(** * dt-device-loader: the code loader's progress tree, sequencer and cycle controller

    A shallow embedding of [code/code_loader/code_loader.py]: the Python
    builtins the loader relies on, the [CodeLoader] object, the external
    collaborators (filesystem, docker, docker-compose) as an environment of
    oracles plus a mutable world, every method of the class as a computation
    in a state-and-exception monad, and the properties of the progress tree,
    of the sequencer and of the retry loop. *)

From Stdlib Require Import ZArith Floats Strings.String Strings.Ascii Lia FunctionalExtensionality.
From stdpp Require Import base list strings pretty gmap.

Open Scope Z_scope.

(** ** Python builtins *)

Module Py.

(** Exceptions, by class. The payload is the text of the message. *)
Inductive exn : Type :=
  | IndexError
  | KeyError (key : string)
  | TypeError (msg : string)
  | OSError (msg : string)
  | CalledProcessError (cmd : string)
  | UnicodeDecodeError (msg : string)
  | Exception (msg : string).

Inductive Result (A : Type) : Type :=
  | Ok (a : A)
  | Raise (e : exn).
Arguments Ok {A} a.
Arguments Raise {A} e.

(** *** str *)

(** [str.isspace] on the code points below 256. *)
Definition is_space (c : ascii) : bool :=
  let n := nat_of_ascii c in
  ((9 <=? n) && (n <=? 13) || (28 <=? n) && (n <=? 32) || (n =? 133) || (n =? 160))%nat.

Fixpoint lstrip (s : string) : string :=
  match s with
  | EmptyString => EmptyString
  | String c s' => if is_space c then lstrip s' else s
  end.

Fixpoint rstrip (s : string) : string :=
  match s with
  | EmptyString => EmptyString
  | String c s' =>
      match rstrip s' with
      | EmptyString => if is_space c then EmptyString else String c EmptyString
      | r => String c r
      end
  end.

(** [s.strip()] *)
Definition strip (s : string) : string := rstrip (lstrip s).

(** [s.split(sep)] for a separator of one character. *)
Fixpoint split (sep : ascii) (s : string) : list string :=
  match s with
  | EmptyString => [EmptyString]
  | String c s' =>
      if Ascii.eqb c sep then EmptyString :: split sep s'
      else match split sep s' with
           | x :: xs => String c x :: xs
           | [] => [String c EmptyString]
           end
  end.

(** [str.lower] on the code points below 256: A-Z and the Latin-1 capitals. *)
Definition lower_char (c : ascii) : ascii :=
  let n := nat_of_ascii c in
  if ((65 <=? n) && (n <=? 90) || (192 <=? n) && (n <=? 222) && negb (n =? 215))%nat
  then ascii_of_nat (n + 32) else c.

Fixpoint lower (s : string) : string :=
  match s with
  | EmptyString => EmptyString
  | String c s' => String (lower_char c) (lower s')
  end.

(** [s.replace(old, new)] for a non-empty [old]: left to right, matches do
    not overlap. [skip] counts the characters of a match still to drop. *)
Fixpoint replace_from (old new : string) (skip : nat) (s : string) : string :=
  match s with
  | EmptyString => EmptyString
  | String c s' =>
      match skip with
      | S k => replace_from old new k s'
      | O =>
          if String.prefix old s
          then new +:+ replace_from old new (String.length old - 1) s'
          else String c (replace_from old new O s')
      end
  end.

Definition replace (old new s : string) : string := replace_from old new O s.

(** [os.path.basename]: what follows the last slash. *)
Definition basename (p : string) : string := List.last (split "/" p) EmptyString.

(** [os.path.dirname] of a path below the root: what precedes the last slash. *)
Definition dirname (p : string) : string :=
  String.concat "/" (List.removelast (split "/" p)).

Fixpoint endswith_from (suffix s : string) : bool :=
  String.eqb s suffix ||
  match s with
  | EmptyString => false
  | String _ s' => endswith_from suffix s'
  end.

(** [s.endswith(suffix)] *)
Definition endswith (s suffix : string) : bool := endswith_from suffix s.

(** *** Objects, as far as [str.join] tells them apart *)

Inductive object : Type :=
  | PyStr (s : string)
  | PyClass (name : string)
  | PyExcValue (e : exn)
  | PyTraceback
  | PyNone.

Definition class_name (e : exn) : string :=
  match e with
  | IndexError => "IndexError"
  | KeyError _ => "KeyError"
  | TypeError _ => "TypeError"
  | OSError _ => "OSError"
  | CalledProcessError _ => "CalledProcessError"
  | UnicodeDecodeError _ => "UnicodeDecodeError"
  | Exception _ => "Exception"
  end.

(** [sys.exc_info()] while [e] is being handled: the class, the instance and
    the traceback. None of the three is a [str]. *)
Definition exc_info (e : exn) : list object :=
  [PyClass (class_name e); PyExcValue e; PyTraceback].

Definition type_name (o : object) : string :=
  match o with
  | PyStr _ => "str"
  | PyClass _ => "type"
  | PyExcValue e => class_name e
  | PyTraceback => "traceback"
  | PyNone => "NoneType"
  end.

(** The items of a sequence as strings, or the first one that is not, with
    its index counted from [i]. *)
Fixpoint all_str (i : nat) (items : list object) : nat * object + list string :=
  match items with
  | [] => inr []
  | PyStr s :: rest =>
      match all_str (S i) rest with
      | inr ss => inr (s :: ss)
      | inl o => inl o
      end
  | o :: _ => inl (i, o)
  end.

(** [sep.join(items)]: a [TypeError] unless every item is a [str]. *)
Definition str_join (sep : string) (items : list object) : Result string :=
  match all_str 0 items with
  | inr ss => Ok (String.concat sep ss)
  | inl (i, o) =>
      Raise (TypeError ("sequence item " +:+ pretty i +:+ ": expected str instance, "
                        +:+ type_name o +:+ " found"))
  end.

(** *** int and float

    Integers are [Z]; floats are the kernel's binary64 numbers. *)

(** [float(n)], rounded to nearest as in Python, for [|n| < 2^63]. *)
Definition float_of_int (n : Z) : float :=
  match n with
  | Z0 => 0%float
  | Zpos _ => PrimFloat.of_uint63 (Uint63.of_Z n)
  | Zneg p => PrimFloat.opp (PrimFloat.of_uint63 (Uint63.of_Z (Zpos p)))
  end.

(** [a / b] on two ints with [b] not zero: exact for [|a|, |b| <= 2^53],
    where both conversions are exact and one rounding remains. *)
Definition truediv (a b : Z) : float :=
  PrimFloat.div (float_of_int a) (float_of_int b).

(** The integer [m * 2^e] rounded down. *)
Definition scaled_floor (m e : Z) : Z :=
  match e with
  | Z0 => m
  | Zpos _ => Z.shiftl m e
  | Zneg p => m / 2 ^ Zpos p
  end.

(** [math.floor(x)] of a finite [x]; 0 stands for the infinities and NaN,
    which no quotient or product of the loader produces. *)
Definition floor (x : float) : Z :=
  match Prim2SF x with
  | S754_finite false m e => scaled_floor (Zpos m) e
  | S754_finite true m e => scaled_floor (Zneg m) e
  | _ => 0
  end.

(** [int(x)] of a finite [x]: towards zero. *)
Definition int_of_float (x : float) : Z :=
  match Prim2SF x with
  | S754_finite false m e => scaled_floor (Zpos m) e
  | S754_finite true m e => - scaled_floor (Zpos m) e
  | _ => 0
  end.

End Py.

Import Py.

Example split_colon : split ":" "a3ed95caeb02: Pull complete" = ["a3ed95caeb02"; " Pull complete"].
Proof. reflexivity. Qed.

Example split_empty : split "," "" = [""].
Proof. reflexivity. Qed.

Example strip_line : strip (" Pull complete" +:+ String (ascii_of_nat 10) "") = "Pull complete".
Proof. reflexivity. Qed.

Example stack_name_yaml : replace ".yml" "" (replace ".yaml" "" (basename "/data/loader/stacks_to_run/DT18.yaml")) = "DT18".
Proof. reflexivity. Qed.

Example dirname_stack : dirname "/data/loader/stacks_to_run/DT18.yaml" = "/data/loader/stacks_to_run".
Proof. reflexivity. Qed.

Example lower_name : lower "DT18_Core" = "dt18_core".
Proof. reflexivity. Qed.

Example join_exc_info : exists msg, str_join "x" (exc_info (OSError "gone")) = Raise (TypeError msg).
Proof. eexists. reflexivity. Qed.

(** The float product is not the exact one: [int((29 / 100) * 100.0)] is 28. *)
Example int_of_float_29 : int_of_float (PrimFloat.mul (truediv 29 100) 100) = 28.
Proof. vm_compute. reflexivity. Qed.

(** ** The loader object and its surroundings *)

(** The attributes of a [CodeLoader] instance. [total], [tick], [action]
    and [output] are Python lists indexed by level. *)
Record CodeLoader : Type := mkCodeLoader {
  images_to_load_tar : list string;
  images_to_load_tar_gz : list string;
  stacks_to_load_yaml : list string;
  stacks_to_run_yaml : list string;
  max_level : nat;
  total : list Z;
  tick : list Z;
  action : list (option string);
  output : list (option string);
  busy : bool;
  error : bool;
  exclude_run : list string;
  do_delete : bool
}.

(** What the loader does to the outside, in the order it does it:
    [EvDockerLoad] is the start of [docker load], [EvOpen] the open of a
    file for reading, [EvLoadWrite] the write of one block to the standard
    input of [docker load]. The write of a total is recorded as well, so
    that a run shows when each total was fixed. *)
Inductive Event : Type :=
  | EvPrint (text : string)
  | EvPrintStatus (tar tar_gz stacks_load stacks_run : list string)
  | EvBootLog (phase msg : string)
  | EvDockerLoad (archive : string)
  | EvOpen (path : string)
  | EvLoadWrite (archive : string) (nbytes : Z)
  | EvDockerImages
  | EvDockerPull (image : string)
  | EvComposeUp (stack_name stack_file : string)
  | EvRemove (path : string)
  | EvDisableService (name : string)
  | EvSleep (seconds : Z)
  | EvPrinterStart
  | EvPrinterStop
  | EvRestApiStart
  | EvRestApiStop
  | EvSetTotal (level : nat) (value : Z).

(** The device: the files on disk, the image references [docker images]
    lists, the shutdown flag of the process and the history of events. *)
Record World : Type := mkWorld {
  files : list string;
  docker_images : list string;
  is_shutdown : bool;
  trace : list Event
}.

(** What [psutil.disk_usage] returns. *)
Record DiskUsage : Type := mkDiskUsage {
  du_total : Z;
  du_used : Z;
  du_free : Z;
  du_percent : float
}.

(** How the collaborators answer. [fault] says which external call raises,
    given everything that happened before it.

    [yaml_services] is what reading and parsing a manifest gives: the
    images of its services, in their order, or the exception of the
    manifest that cannot be read, is not YAML or lacks a key.

    [pull_output] is the list of the lines that the iteration over the
    output of [docker pull], wrapped in a UTF-8 text reader, yields, and
    [pull_undecodable] says how the iteration ends: at the end of the
    output, or at bytes that are not UTF-8, with a [UnicodeDecodeError]. The
    reader decodes by blocks, so that the lines of the block that holds the
    bad bytes are not among those it yields.

    [disk_usage] is [psutil.disk_usage]: the figures of the file system
    that holds the path, or the [OSError] it raises ([FileNotFoundError]
    for a path that is not on the device). *)
Record Env : Type := mkEnv {
  file_size : string -> Z;
  yaml_services : string -> Result (list string);
  archive_images : string -> list string;
  docker_load_output : string -> string;
  pull_output : string -> list string;
  pull_undecodable : string -> bool;
  pull_adds : string -> bool;
  disk_usage : string -> Result DiskUsage;
  fault : list Event -> Event -> option exn
}.

(** The state a computation runs in; [recheck_period] is the local variable
    of [start]. *)
Record State : Type := mkState {
  self : CodeLoader;
  world : World;
  recheck_period : Z
}.

Definition with_config (tar tar_gz sl sr : list string) (c : CodeLoader) : CodeLoader :=
  mkCodeLoader tar tar_gz sl sr (max_level c) (total c) (tick c) (action c) (output c)
    (busy c) (error c) (exclude_run c) (do_delete c).

Definition with_total (v : list Z) (c : CodeLoader) : CodeLoader :=
  mkCodeLoader (images_to_load_tar c) (images_to_load_tar_gz c) (stacks_to_load_yaml c)
    (stacks_to_run_yaml c) (max_level c) v (tick c) (action c) (output c)
    (busy c) (error c) (exclude_run c) (do_delete c).

Definition with_tick (v : list Z) (c : CodeLoader) : CodeLoader :=
  mkCodeLoader (images_to_load_tar c) (images_to_load_tar_gz c) (stacks_to_load_yaml c)
    (stacks_to_run_yaml c) (max_level c) (total c) v (action c) (output c)
    (busy c) (error c) (exclude_run c) (do_delete c).

Definition with_action (v : list (option string)) (c : CodeLoader) : CodeLoader :=
  mkCodeLoader (images_to_load_tar c) (images_to_load_tar_gz c) (stacks_to_load_yaml c)
    (stacks_to_run_yaml c) (max_level c) (total c) (tick c) v (output c)
    (busy c) (error c) (exclude_run c) (do_delete c).

Definition with_output (v : list (option string)) (c : CodeLoader) : CodeLoader :=
  mkCodeLoader (images_to_load_tar c) (images_to_load_tar_gz c) (stacks_to_load_yaml c)
    (stacks_to_run_yaml c) (max_level c) (total c) (tick c) (action c) v
    (busy c) (error c) (exclude_run c) (do_delete c).

Definition with_busy (v : bool) (c : CodeLoader) : CodeLoader :=
  mkCodeLoader (images_to_load_tar c) (images_to_load_tar_gz c) (stacks_to_load_yaml c)
    (stacks_to_run_yaml c) (max_level c) (total c) (tick c) (action c) (output c)
    v (error c) (exclude_run c) (do_delete c).

Definition with_error (v : bool) (c : CodeLoader) : CodeLoader :=
  mkCodeLoader (images_to_load_tar c) (images_to_load_tar_gz c) (stacks_to_load_yaml c)
    (stacks_to_run_yaml c) (max_level c) (total c) (tick c) (action c) (output c)
    (busy c) v (exclude_run c) (do_delete c).

Definition with_exclude_run (v : list string) (c : CodeLoader) : CodeLoader :=
  mkCodeLoader (images_to_load_tar c) (images_to_load_tar_gz c) (stacks_to_load_yaml c)
    (stacks_to_run_yaml c) (max_level c) (total c) (tick c) (action c) (output c)
    (busy c) (error c) v (do_delete c).

Definition on_self (f : CodeLoader -> CodeLoader) (s : State) : State :=
  mkState (f (self s)) (world s) (recheck_period s).

Definition on_world (f : World -> World) (s : State) : State :=
  mkState (self s) (f (world s)) (recheck_period s).

Definition with_recheck_period (v : Z) (s : State) : State :=
  mkState (self s) (world s) v.

Definition log (ev : Event) (w : World) : World :=
  mkWorld (files w) (docker_images w) (is_shutdown w) (trace w ++ [ev]).

Definition with_files (v : list string) (w : World) : World :=
  mkWorld v (docker_images w) (is_shutdown w) (trace w).

Definition with_docker_images (v : list string) (w : World) : World :=
  mkWorld (files w) v (is_shutdown w) (trace w).

(** ** Computations: state and exceptions *)

Definition M (A : Type) : Type := State -> Result A * State.

Definition ret {A : Type} (a : A) : M A := fun s => (Ok a, s).

Definition bind {A B : Type} (m : M A) (f : A -> M B) : M B :=
  fun s =>
    match m s with
    | (Ok a, s') => f a s'
    | (Raise e, s') => (Raise e, s')
    end.

Definition raise {A : Type} (e : exn) : M A := fun s => (Raise e, s).

Definition get : M State := fun s => (Ok s, s).

Definition modify (f : State -> State) : M unit := fun s => (Ok tt, f s).

Definition lift {A : Type} (r : Result A) : M A := fun s => (r, s).

Declare Scope py_scope.
Delimit Scope py_scope with py.
Bind Scope py_scope with M.
Notation "x <- m ;; k" := (bind m (fun x => k))
  (at level 100, m at next level, right associativity) : py_scope.
Notation "m ;; k" := (bind m (fun _ => k))
  (at level 100, right associativity) : py_scope.
Open Scope py_scope.

(** [for x in l: body(x)] *)
Fixpoint for_each {A : Type} (l : list A) (body : A -> M unit) : M unit :=
  match l with
  | [] => ret tt
  | x :: l' => body x ;; for_each l' body
  end.

(** [try: m / except: h] *)
Definition try_except {A : Type} (m : M A) (h : exn -> M A) : M A :=
  fun s =>
    match m s with
    | (Ok a, s') => (Ok a, s')
    | (Raise e, s') => h e s'
    end.

(** [try: m / finally: f]: [f] runs either way; what [m] raised is raised
    again after it, unless [f] raises itself. *)
Definition try_finally {A : Type} (m : M A) (f : M unit) : M A :=
  fun s =>
    match m s with
    | (r, s') =>
        match f s' with
        | (Ok _, s'') => (r, s'')
        | (Raise e, s'') => (Raise e, s'')
        end
    end.

(** [l[i]] and [l[i] = v] for an index that is not negative. *)
Definition getitem {A : Type} (l : list A) (i : nat) : Result A :=
  match l !! i with
  | Some v => Ok v
  | None => Raise IndexError
  end.

Definition setitem {A : Type} (l : list A) (i : nat) (v : A) : Result (list A) :=
  if (i <? length l)%nat then Ok (<[i := v]> l) else Raise IndexError.

(** [range(a, b)] *)
Definition range (a b : nat) : list nat := seq a (b - a).

(** An effect that cannot fail. *)
Definition emit (ev : Event) : M unit := modify (on_world (log ev)).

(** ** The module's constants *)

Definition LOADER_DATA_DIR : string := "/data/loader".
Definition RECHECK_PERIOD_ON_ERROR_SEC : Z := 10.
Definition RECHECK_PERIOD_SEC : Z := 60.
Definition ENABLE_PRINTER : bool := false.
Definition ENABLE_REST_API : bool := true.

Definition images_to_load_dir : string := LOADER_DATA_DIR +:+ "/images_to_load".
Definition stacks_to_load_dir : string := LOADER_DATA_DIR +:+ "/stacks_to_load".
Definition stacks_to_run_dir : string := LOADER_DATA_DIR +:+ "/stacks_to_run".

(** ** Module-level functions *)

(** [percentage(partial, total)] with [rtype=int]. *)
Definition percentage (partial total : Z) : Z :=
  let total := if total =? 0 then 1 else total in
  let partial := Z.min partial total in
  int_of_float (PrimFloat.mul (truediv partial total) 100).

(** [basenames(lst)] *)
Definition basenames (lst : list string) : list string := basename <$> lst.

(** [glob(os.path.join(dir, '*' + ext))]: the files of [dir] whose name ends
    with [ext] and does not start with a dot. *)
Definition glob_match (dir ext p : string) : bool :=
  String.eqb (dirname p) dir && endswith (basename p) ext
  && negb (String.prefix "." (basename p)).

Definition glob (fs : list string) (dir ext : string) : list string :=
  List.filter (glob_match dir ext) fs.

(** The lengths [fin.read(buffer)] returns on a file of [size] bytes, up to
    the empty read. *)
Definition file_reads (size buffer : Z) : list Z :=
  replicate (Z.to_nat (size / buffer)) buffer
  ++ (if 0 <? size mod buffer then [size mod buffer] else []).

(** ** The methods of [CodeLoader] *)

(** [CodeLoader.__init__], given [os.environ]. *)
Definition __init__ (environ : gmap string string) : CodeLoader :=
  let max_level := 4%nat in
  mkCodeLoader [] [] [] [] max_level
    (replicate max_level 1) (replicate max_level 0)
    (replicate max_level None) (replicate max_level None)
    true false
    (match environ !! "EXCLUDE_RUN" with
     | Some v => split "," (lower v)
     | None => []
     end)
    (negb (match environ !! "NO_DELETE" with
           | Some v => String.eqb v "1"
           | None => false
           end)).

Definition is_busy (c : CodeLoader) : bool := busy c.

(** [self.tick[level] = v] and its siblings. *)
Definition store_total (level : nat) (v : Z) : M unit :=
  s <- get ;;
  l <- lift (setitem (total (self s)) level v) ;;
  modify (on_self (with_total l)).

Definition store_tick (level : nat) (v : Z) : M unit :=
  s <- get ;;
  l <- lift (setitem (tick (self s)) level v) ;;
  modify (on_self (with_tick l)).

Definition store_action (level : nat) (v : option string) : M unit :=
  s <- get ;;
  l <- lift (setitem (action (self s)) level v) ;;
  modify (on_self (with_action l)).

Definition store_output (level : nat) (v : option string) : M unit :=
  s <- get ;;
  l <- lift (setitem (output (self s)) level v) ;;
  modify (on_self (with_output l)).

Definition _set_total (level : nat) (v : Z) : M unit :=
  store_total level v ;;
  emit (EvSetTotal level v).

Definition _set_tick (level : nat) (v : Z) : M unit := store_tick level v.

Definition _tick (level : nat) : M unit :=
  s <- get ;;
  t <- lift (getitem (tick (self s)) level) ;;
  _set_tick level (t + 1).

Definition _set_action (action_lvl : nat) (a : string) : M unit :=
  s <- get ;;
  for_each (range (action_lvl + 1) (max_level (self s)))
    (fun lvl => store_action lvl None ;; store_tick lvl 0) ;;
  store_action action_lvl (Some a).

(** [_set_status(level, action, tick)]; every caller leaves [tick] at its
    default 0. *)
Definition _set_status (level : nat) (a : string) (t : Z) : M unit :=
  _set_tick level t ;;
  _set_action level a ;;
  store_output level None.

(** The roll-up of one level inside [_get_progress]. *)
Definition progress_step (c : CodeLoader) (progress : list Z) (lvl : nat) : Result (list Z) :=
  match getitem (tick c) lvl, getitem (total c) lvl with
  | Ok tk, Ok tot =>
      let progress_base := percentage tk tot in
      if ((lvl + 1 <? max_level c)%nat && (0 <? tot))%bool then
        match getitem progress (lvl + 1) with
        | Ok sub =>
            let substep_progress :=
              floor (PrimFloat.mul (float_of_int sub) (PrimFloat.div 1 (float_of_int tot))) in
            setitem progress lvl (progress_base + substep_progress)
        | Raise e => Raise e
        end
      else setitem progress lvl (progress_base + 0)
  | Raise e, _ => Raise e
  | _, Raise e => Raise e
  end.

Fixpoint progress_loop (c : CodeLoader) (lvls : list nat) (progress : list Z) : Result (list Z) :=
  match lvls with
  | [] => Ok progress
  | lvl :: rest =>
      match progress_step c progress lvl with
      | Ok progress' => progress_loop c rest progress'
      | Raise e => Raise e
      end
  end.

(** [_get_progress]: from the deepest level up. *)
Definition _get_progress (c : CodeLoader) : Result (list Z) :=
  progress_loop c (rev (range 0 (max_level c))) (replicate (max_level c) 0).

(** One entry of the ['progress'] dictionary of a status. *)
Record LevelStatus : Type := mkLevelStatus {
  ls_progress : Z;
  ls_current : Z;
  ls_total : Z;
  ls_action : option string;
  ls_output : option string
}.

(** What [get_status] returns; the disk and cpu entries, figures read from
    psutil and from the thermal zone, are left out. *)
Record Status : Type := mkStatus {
  st_status : string;
  st_progress : list LevelStatus
}.

Fixpoint level_statuses (c : CodeLoader) (progress : list Z) (lvls : list nat) : Result (list LevelStatus) :=
  match lvls with
  | [] => Ok []
  | lvl :: rest =>
      match getitem progress lvl, getitem (tick c) lvl, getitem (total c) lvl,
            getitem (action c) lvl, getitem (output c) lvl with
      | Ok p, Ok tk, Ok tot, Ok a, Ok o =>
          match level_statuses c progress rest with
          | Ok r => Ok (mkLevelStatus p tk tot a o :: r)
          | Raise e => Raise e
          end
      | _, _, _, _, _ => Raise IndexError
      end
  end.

Definition _load_configuration : M unit :=
  s <- get ;;
  let fs := files (world s) in
  let tar := glob fs images_to_load_dir ".tar" in
  let tar_gz := glob fs images_to_load_dir ".tar.gz" in
  let sl := glob fs stacks_to_load_dir ".yaml" ++ glob fs stacks_to_load_dir ".yml" in
  let sr := glob fs stacks_to_run_dir ".yaml" ++ glob fs stacks_to_run_dir ".yml" in
  modify (on_self (with_config tar tar_gz sl sr)) ;;
  emit (EvPrintStatus (basenames tar) (basenames tar_gz) (basenames sl) (basenames sr)).

(** [stack_name] as [_run] and [_docker_run_stack] compute it. *)
Definition stack_name_of (stack : string) : string :=
  replace ".yml" "" (replace ".yaml" "" (basename stack)).

Section Methods.

Variable env : Env.

(** A call to a collaborator, which may raise. *)
Definition call (ev : Event) : M unit :=
  fun s =>
    match fault env (trace (world s)) ev with
    | Some e => (Raise e, on_world (log ev) s)
    | None => (Ok tt, on_world (log ev) s)
    end.

Definition _boot_log (phase message : string) : M unit :=
  try_except (call (EvBootLog phase message)) (fun _ => ret tt).

(** [remove_file(filepath)] *)
Definition remove_file (filepath : string) : M unit :=
  emit (EvPrint ("Now removing: " +:+ filepath)) ;;
  s <- get ;;
  if bool_decide (filepath ∈ files (world s)) then
    call (EvRemove filepath) ;;
    modify (on_world (fun w => with_files (List.filter (fun p => negb (String.eqb p filepath)) (files w)) w))
  else raise (OSError ("No such file or directory: " +:+ filepath)).

(** [get_status]: the disk usage of the data directory is read first, and
    what that raises is raised; [cpu_temperature] swallows what it raises
    and [psutil.cpu_percent] reads no path. *)
Definition get_status (c : CodeLoader) : Result Status :=
  match disk_usage env LOADER_DATA_DIR with
  | Ok disk =>
      match _get_progress c with
      | Ok progress =>
          match level_statuses c progress (range 0 (max_level c)) with
          | Ok ls =>
              Ok (mkStatus (if error c then "error" else if is_busy c then "busy" else "ready") ls)
          | Raise e => Raise e
          end
      | Raise e => Raise e
      end
  | Raise e => Raise e
  end.

(** [os.stat(path).st_size] *)
Definition stat_size (path : string) : M Z :=
  s <- get ;;
  if bool_decide (path ∈ files (world s)) then ret (file_size env path)
  else raise (OSError ("No such file or directory: " +:+ path)).

Definition _images_in_stack (stack_file : string) : M (list string) :=
  s <- get ;;
  if bool_decide (stack_file ∈ files (world s)) then
    images <- lift (yaml_services env stack_file) ;;
    ret (remove_dups images)
  else raise (OSError ("No such file or directory: " +:+ stack_file)).

(** The read loop of [_docker_load_archive]: [reads] are the lengths of the
    blocks still to read. The write to the standard input of [docker load]
    is a call that may raise ([BrokenPipeError], once the process is gone). *)
Fixpoint send_chunks (archive_file : string) (level : nat) (reads : list Z)
    (bytes_transferred : Z) : M unit :=
  match reads with
  | [] => ret tt
  | data :: rest =>
      s <- get ;;
      if is_shutdown (world s) then ret tt
      else
        call (EvLoadWrite archive_file data) ;;
        let bytes_transferred := bytes_transferred + data in
        _set_tick level bytes_transferred ;;
        send_chunks archive_file level rest bytes_transferred
  end.

(** [_docker_load_archive]: the start of [docker load], the open of the
    archive and every write to the process may raise; nothing on the way
    handles what they raise. *)
Definition _docker_load_archive (archive_file : string) (buffer_mb : Z) (level : nat) : M unit :=
  _set_status level ("Loading archive: " +:+ basename archive_file) 0 ;;
  total_bytes <- stat_size archive_file ;;
  _set_total level total_bytes ;;
  let bytes_transferred := 0 in
  let buffer := buffer_mb * 1024 * 1024 in
  call (EvDockerLoad archive_file) ;;
  call (EvOpen archive_file) ;;
  send_chunks archive_file level (file_reads total_bytes buffer) bytes_transferred ;;
  modify (on_world (fun w => with_docker_images (docker_images w ++ archive_images env archive_file) w)) ;;
  store_output level (Some (docker_load_output env archive_file)).

(** [_docker_image_exists]: [EvDockerImages] is the run of [docker images]
    with the decoding of what it prints, as one call; the image references
    of the world are the lines decoded. *)
Definition _docker_image_exists (image : string) : M bool :=
  call EvDockerImages ;;
  s <- get ;;
  let images := strip <$> (docker_images (world s) ++ [""]) in
  ret (bool_decide (image ∈ images)).

(** The body of the loop of [_docker_pull_image], for one line of the pull;
    it returns the set [layers] as the line leaves it. *)
Definition pull_line (level : nat) (line : string) (layers : gset string) : M (gset string) :=
  let line := strip line in
  s <- get ;;
  o <- lift (getitem (output (self s)) level) ;;
  match o with
  | None => raise (TypeError "unsupported operand type(s) for +=: 'NoneType' and 'str'")
  | Some text =>
      store_output level (Some (text +:+ String (ascii_of_nat 10) line)) ;;
      match split ":" line with
      | [p0; p1] =>
          let layerID := strip p0 in
          let act := strip p1 in
          if negb (String.length layerID =? 12)%nat then ret layers
          else if bool_decide (act ∈ ["Waiting"; "Pulling fs layer"]) then
            let layers := {[layerID]} ∪ layers in
            _set_total level (2 * Z.of_nat (size layers)) ;;
            ret layers
          else if bool_decide (act ∈ ["Download complete"; "Pull complete"]) then
            _tick level ;;
            ret layers
          else ret layers
      | _ => ret layers
      end
  end.

(** The loop of [_docker_pull_image] over the lines the reader yields. *)
Fixpoint read_pull_lines (level : nat) (lines : list string) (layers : gset string) : M unit :=
  match lines with
  | [] => ret tt
  | line :: rest =>
      layers <- pull_line level line layers ;;
      read_pull_lines level rest layers
  end.

(** [_docker_pull_image]: the loop ends when the reader does, at the end of
    the output or with the [UnicodeDecodeError] of bytes it cannot decode. *)
Definition _docker_pull_image (image : string) (level : nat) : M unit :=
  _set_action level ("Pulling image: " +:+ image) ;;
  call (EvDockerPull image) ;;
  _set_total level 1 ;;
  _set_tick level 0 ;;
  let layers : gset string := ∅ in
  store_output level (Some "") ;;
  read_pull_lines level (pull_output env image) layers ;;
  (if pull_undecodable env image
   then raise (UnicodeDecodeError "'utf-8' codec can't decode byte")
   else ret tt) ;;
  modify (on_world (fun w =>
    if pull_adds env image then with_docker_images (docker_images w ++ [image]) w else w)).

Definition _docker_run_stack (stack_file : string) (level : nat) : M unit :=
  let stack_name := stack_name_of stack_file in
  _set_status level ("Running stack: " +:+ stack_name) 0 ;;
  _set_total level 1 ;;
  call (EvComposeUp stack_name stack_file) ;;
  store_output level None ;;
  _tick level.

(** The loops that fill the dictionaries [stacks_to_load] and
    [stacks_to_run] of [_run]. *)
Fixpoint read_stacks (stacks : list string) (d : gmap string (list string)) : M (gmap string (list string)) :=
  match stacks with
  | [] => ret d
  | stack :: rest =>
      images <- _images_in_stack stack ;;
      read_stacks rest (<[stack := images]> d)
  end.

(** [sum(map(len, d.values()))] *)
Definition count_images (d : gmap string (list string)) : Z :=
  Z.of_nat (sum_list (length <$> (map_to_list d).*2)).

(** [d[key]] *)
Definition lookup_stack (d : gmap string (list string)) (key : string) : M (list string) :=
  match d !! key with
  | Some v => ret v
  | None => raise (KeyError key)
  end.

(** The body of the two archive loops of [_run]. *)
Definition load_archive_item (archive : string) : M unit :=
  _docker_load_archive archive 8 2 ;;
  s <- get ;;
  (if do_delete (self s) then remove_file archive else ret tt) ;;
  _tick 1 ;;
  _tick 0 ;;
  _boot_log "loading" ("Archive loaded: " +:+ basename archive).

(** The body of the loop over a stack-to-run's images. *)
Definition run_stack_image (image : string) : M unit :=
  present <- _docker_image_exists image ;;
  (if negb present then
     _docker_pull_image image 3 ;;
     _boot_log "loading" ("Image loaded: " +:+ image)
   else ret tt) ;;
  _tick 2 ;;
  _tick 0.

(** The body of the loop over the stacks to run, up to the test of
    [exclude_run]: the images of the stack. *)
Definition run_stack_images (stacks_to_run : gmap string (list string)) (stack : string) : M unit :=
  let stack_name := stack_name_of stack in
  images <- lookup_stack stacks_to_run stack ;;
  _set_total 2 (1 + Z.of_nat (length images)) ;;
  _set_status 2 ("Loading stack: " +:+ stack_name) 0 ;;
  images <- lookup_stack stacks_to_run stack ;;
  for_each images run_stack_image.

(** The rest of that body: the bring-up, unless the stack is excluded. *)
Definition run_stack_up (stack : string) : M unit :=
  let stack_name := stack_name_of stack in
  s <- get ;;
  (if negb (bool_decide (lower stack_name ∈ exclude_run (self s))) then
     _docker_run_stack stack 3 ;;
     _boot_log "loading" ("Stack run: " +:+ stack_name)
   else ret tt) ;;
  _boot_log "loading" ("Stack completed: " +:+ stack_name) ;;
  _tick 1.

(** The body of the loop over the stacks to run. *)
Definition run_stack_item (stacks_to_run : gmap string (list string)) (stack : string) : M unit :=
  run_stack_images stacks_to_run stack ;;
  run_stack_up stack.

(** The body of the loop over a stack-to-load's images. *)
Definition load_stack_image (image : string) : M unit :=
  _docker_pull_image image 3 ;;
  _tick 2 ;;
  _tick 0 ;;
  _boot_log "loading" ("Image loaded: " +:+ image).

(** The body of the loop over the stacks to load. *)
Definition load_stack_item (stacks_to_load : gmap string (list string)) (stack : string) : M unit :=
  let stack_name := stack_name_of stack in
  images <- lookup_stack stacks_to_load stack ;;
  _set_total 2 (Z.of_nat (length images)) ;;
  _set_status 2 ("Loading stack: " +:+ stack_name) 0 ;;
  images <- lookup_stack stacks_to_load stack ;;
  for_each images load_stack_image ;;
  s <- get ;;
  (if do_delete (self s) then remove_file stack else ret tt) ;;
  _boot_log "loading" ("Stack completed: " +:+ stack_name) ;;
  _tick 1.

(** One phase of [_run]: the total and the status of level 1, then the
    loop over the items of the phase. *)
Definition phase (items : CodeLoader -> list string) (status : string)
    (body : string -> M unit) : M unit :=
  s <- get ;;
  _set_total 1 (Z.of_nat (length (items (self s)))) ;;
  _set_status 1 status 0 ;;
  s <- get ;;
  for_each (items (self s)) body.

(** [_run], after the two dictionaries are read: the four phases. *)
Definition run_phases (stacks_to_load stacks_to_run : gmap string (list string)) : M unit :=
  phase images_to_load_tar "Loading uncrompressed images (.tar)" load_archive_item ;;
  phase images_to_load_tar_gz "Loading crompressed images (.tar.gz)" load_archive_item ;;
  phase stacks_to_run_yaml "Loading stacks we run at boot" (run_stack_item stacks_to_run) ;;
  phase stacks_to_load_yaml "Loading other stacks" (load_stack_item stacks_to_load) ;;
  _boot_log "done" "All stacks up".

Definition _run : M unit :=
  modify (on_self (with_busy true)) ;;
  s <- get ;;
  stacks_to_load <- read_stacks (stacks_to_load_yaml (self s)) ∅ ;;
  let num_images_stacks_to_load := count_images stacks_to_load in
  stacks_to_run <- read_stacks (stacks_to_run_yaml (self s)) ∅ ;;
  let num_images_stacks_to_run := count_images stacks_to_run in
  let num_images :=
    Z.of_nat (length (images_to_load_tar (self s)))
    + Z.of_nat (length (images_to_load_tar_gz (self s)))
    + num_images_stacks_to_load
    + num_images_stacks_to_run in
  _set_total 0 num_images ;;
  _set_status 0 "Loading Docker images" 0 ;;
  run_phases stacks_to_load stacks_to_run ;;
  modify (on_self (with_busy false)).

(** The [except:] block of [start], from its [for] loop on. *)
Definition mark_error (e : string) : M unit :=
  s <- get ;;
  for_each (range 0 (max_level (self s)))
    (fun lvl =>
       _set_action lvl ("ERROR: " +:+ e) ;;
       modify (on_self (with_error true))) ;;
  modify (with_recheck_period RECHECK_PERIOD_ON_ERROR_SEC).

(** The [except:] block of [start]. *)
Definition on_exception (exc : exn) : M unit :=
  e <- lift (str_join (String (ascii_of_nat 10) "") (exc_info exc)) ;;
  mark_error e.

(** The [finally:] block of [start]. *)
Definition on_finally : M unit :=
  emit EvPrinterStop ;;
  s <- get ;;
  emit (EvSleep (recheck_period s)) ;;
  if ENABLE_PRINTER then emit EvPrinterStart else ret tt.

(** What the [try:] block of [start] runs. *)
Definition cycle_body : M unit :=
  _load_configuration ;;
  _run ;;
  call (EvDisableService "dt.device-init").

(** One pass of the [while] loop of [start]. *)
Definition start_cycle : M unit :=
  try_finally (try_except cycle_body on_exception) on_finally.

(** The [while not self.is_shutdown] loop, for at most [fuel] passes. *)
Fixpoint start_loop (fuel : nat) : M unit :=
  match fuel with
  | O => ret tt
  | S n =>
      s <- get ;;
      if is_shutdown (world s) then ret tt
      else start_cycle ;; start_loop n
  end.

Definition start (fuel : nat) : M unit :=
  (if ENABLE_PRINTER then emit EvPrinterStart else ret tt) ;;
  (if ENABLE_REST_API then emit EvRestApiStart else ret tt) ;;
  modify (with_recheck_period RECHECK_PERIOD_SEC) ;;
  start_loop fuel ;;
  emit EvPrinterStop ;;
  emit EvRestApiStop.

End Methods.

(** ** Vocabulary of the statements *)

(** The level lists have one entry per level, and there are four levels. *)
Definition wf (c : CodeLoader) : Prop :=
  max_level c = 4%nat /\ length (total c) = 4%nat /\ length (tick c) = 4%nat
  /\ length (action c) = 4%nat /\ length (output c) = 4%nat.

Definition tick_at (l : nat) (s : State) : option Z := tick (self s) !! l.
Definition total_at (l : nat) (s : State) : option Z := total (self s) !! l.
Definition action_at (l : nat) (s : State) : option (option string) := action (self s) !! l.
Definition output_at (l : nat) (s : State) : option (option string) := output (self s) !! l.

(** What no step of a cycle writes: the shape of the level lists, the
    policy, the error flag and the wait of the controller. *)
Definition static (s : State) : nat * (nat * nat * nat * nat) * list string * bool * bool * Z :=
  (max_level (self s),
   (length (total (self s)), length (tick (self s)),
    length (action (self s)), length (output (self s))),
   exclude_run (self s), do_delete (self s), error (self s), recheck_period s).

(** The work list of a cycle, as the scan left it. *)
Definition config (s : State) : list string * list string * list string * list string :=
  (images_to_load_tar (self s), images_to_load_tar_gz (self s),
   stacks_to_load_yaml (self s), stacks_to_run_yaml (self s)).

Definition files_of (s : State) : list string := files (world s).
Definition trace_of (s : State) : list Event := trace (world s).

(** The values written to the total of level [l], oldest first. *)
Definition totals_written (l : nat) (tr : list Event) : list Z :=
  omap (fun ev => match ev with
                  | EvSetTotal l' v => if (l' =? l)%nat then Some v else None
                  | _ => None
                  end) tr.

(** The bring-ups, the image look-ups and pulls, and the removals of a trace. *)
Definition compose_ups (tr : list Event) : list (string * string) :=
  omap (fun ev => match ev with EvComposeUp n f => Some (n, f) | _ => None end) tr.

Definition image_events (tr : list Event) : list Event :=
  omap (fun ev => match ev with
                  | EvDockerImages | EvDockerPull _ => Some ev
                  | _ => None
                  end) tr.

Definition removals (tr : list Event) : list string :=
  omap (fun ev => match ev with EvRemove p => Some p | _ => None end) tr.

(** The unique images of a manifest, as [_images_in_stack] returns them. *)
Definition stack_images (env : Env) (stack : string) : list string :=
  match yaml_services env stack with
  | Ok images => remove_dups images
  | Raise _ => []
  end.

(** The percentage of a level from its counters and the percentage [sub] of
    the level below, as [_get_progress] adds them up. *)
Definition rollup (tk tot sub : Z) : Z :=
  percentage tk tot
  + (if 0 <? tot
     then floor (PrimFloat.mul (float_of_int sub) (PrimFloat.div 1 (float_of_int tot)))
     else 0).

(** [m] relates every state to the one it leaves behind, whatever the outcome. *)
Definition stable {A : Type} (R : relation State) (m : M A) : Prop :=
  forall s, R s (m s).2.

(** [f] reads the same before and after. *)
Definition pres {X : Type} (f : State -> X) : relation State :=
  fun s s' => f s' = f s.

(** The trace only grows. *)
Definition grows : relation State :=
  fun s s' => trace_of s `prefix_of` trace_of s'.

(** If [m] returns from a state of [P], it returns in a state of [Q]. *)
Definition triple {A : Type} (P : State -> Prop) (m : M A) (Q : A -> State -> Prop) : Prop :=
  forall s a s', P s -> m s = (Ok a, s') -> Q a s'.

(** ** Reasoning about computations *)

Lemma bind_ok {A B : Type} (m : M A) (f : A -> M B) s b s' :
  bind m f s = (Ok b, s') ->
  exists a s1, m s = (Ok a, s1) /\ f a s1 = (Ok b, s').
Proof.
  unfold bind. destruct (m s) as [[a | e] s1]; [eauto | discriminate].
Qed.

Lemma bind_run {A B : Type} (m : M A) (f : A -> M B) s a s1 :
  m s = (Ok a, s1) -> bind m f s = f a s1.
Proof. unfold bind. intros ->. reflexivity. Qed.

Lemma bind_raise {A B : Type} (m : M A) (f : A -> M B) s e s1 :
  m s = (Raise e, s1) -> bind m f s = (Raise e, s1).
Proof. unfold bind. intros ->. reflexivity. Qed.

#[export] Instance pres_preorder {X : Type} (f : State -> X) : PreOrder (pres f).
Proof.
  split.
  - intros s. reflexivity.
  - intros s1 s2 s3 H12 H23. unfold pres in *. congruence.
Qed.

#[export] Instance grows_preorder : PreOrder grows.
Proof.
  split.
  - intros s. unfold grows. reflexivity.
  - intros s1 s2 s3 H12 H23. unfold grows in *. etrans; eassumption.
Qed.

Section Stable.

Context (R : relation State) `{!PreOrder R}.

Lemma stable_ret {A : Type} (a : A) : stable R (ret a).
Proof. intros s. simpl. reflexivity. Qed.

Lemma stable_raise {A : Type} (e : exn) : stable R (@raise A e).
Proof. intros s. simpl. reflexivity. Qed.

Lemma stable_get : stable R get.
Proof. intros s. simpl. reflexivity. Qed.

Lemma stable_lift {A : Type} (r : Result A) : stable R (lift r).
Proof. intros s. simpl. reflexivity. Qed.

Lemma stable_modify (f : State -> State) : (forall s, R s (f s)) -> stable R (modify f).
Proof. intros H s. apply H. Qed.

Lemma stable_emit (ev : Event) : (forall s, R s (on_world (log ev) s)) -> stable R (emit ev).
Proof. intros H s. apply H. Qed.

Lemma stable_call (env : Env) (ev : Event) :
  (forall s, R s (on_world (log ev) s)) -> stable R (call env ev).
Proof.
  intros H s. unfold call. destruct (fault env _ ev); apply H.
Qed.

Lemma stable_bind {A B : Type} (m : M A) (f : A -> M B) :
  stable R m -> (forall a, stable R (f a)) -> stable R (bind m f).
Proof.
  intros Hm Hf s. unfold bind. specialize (Hm s).
  destruct (m s) as [[a | e] s1]; simpl in *; [| assumption].
  etrans; [exact Hm | apply Hf].
Qed.

Lemma stable_for_each {A : Type} (l : list A) (body : A -> M unit) :
  (forall x, x ∈ l -> stable R (body x)) -> stable R (for_each l body).
Proof.
  induction l as [| x l IH]; intros H; simpl.
  - apply stable_ret.
  - apply stable_bind.
    + apply H. left.
    + intros _. apply IH. intros y Hy. apply H. right. exact Hy.
Qed.

Lemma stable_try_except {A : Type} (m : M A) (h : exn -> M A) :
  stable R m -> (forall e, stable R (h e)) -> stable R (try_except m h).
Proof.
  intros Hm Hh s. unfold try_except. specialize (Hm s).
  destruct (m s) as [[a | e] s1]; simpl in *; [assumption |].
  etrans; [exact Hm | apply Hh].
Qed.

Lemma stable_try_finally {A : Type} (m : M A) (f : M unit) :
  stable R m -> stable R f -> stable R (try_finally m f).
Proof.
  intros Hm Hf s. unfold try_finally. specialize (Hm s).
  destruct (m s) as [r s1]. specialize (Hf s1).
  destruct (f s1) as [[[] | e] s2]; simpl in *; etrans; eassumption.
Qed.

End Stable.

(** What [m] leaves alone it leaves alone under any assertion. *)
Lemma stable_run {A X : Type} (f : State -> X) (m : M A) s r s' :
  stable (pres f) m -> m s = (r, s') -> f s' = f s.
Proof. intros H E. specialize (H s). rewrite E in H. exact H. Qed.

Lemma triple_bind {A B : Type} (P : State -> Prop) (R : A -> State -> Prop)
    (Q : B -> State -> Prop) (m : M A) (f : A -> M B) :
  triple P m R -> (forall a, triple (R a) (f a) Q) -> triple P (bind m f) Q.
Proof.
  intros Hm Hf s b s' HP E.
  apply bind_ok in E as (a & s1 & E1 & E2).
  eapply Hf; [| exact E2]. eapply Hm; eassumption.
Qed.

Lemma triple_ret {A : Type} (P : State -> Prop) (Q : A -> State -> Prop) (a : A) :
  (forall s, P s -> Q a s) -> triple P (ret a) Q.
Proof. intros H s a' s' HP E. unfold ret in E. inversion E; subst. auto. Qed.

Lemma triple_weaken {A : Type} (P P' : State -> Prop) (Q Q' : A -> State -> Prop) (m : M A) :
  triple P' m Q' -> (forall s, P s -> P' s) -> (forall a s, Q' a s -> Q a s) -> triple P m Q.
Proof. intros H HP HQ s a s' Hs E. apply HQ. eapply H; eauto. Qed.

Lemma triple_stable {A X : Type} (f : State -> X) (P : X -> Prop) (m : M A) :
  stable (pres f) m -> triple (fun s => P (f s)) m (fun _ s => P (f s)).
Proof.
  intros H s a s' HP E. rewrite (stable_run f m s (Ok a) s' H E). exact HP.
Qed.

Lemma triple_and {A : Type} (P1 P2 : State -> Prop) (Q1 Q2 : A -> State -> Prop) (m : M A) :
  triple P1 m Q1 -> triple P2 m Q2 ->
  triple (fun s => P1 s /\ P2 s) m (fun a s => Q1 a s /\ Q2 a s).
Proof. intros H1 H2 s a s' [HP1 HP2] E. split; [eapply H1 | eapply H2]; eauto. Qed.

(** The loop rule: [I done] holds after the items [done]. *)
Lemma triple_for_each_from {A : Type} (I : list A -> State -> Prop) (body : A -> M unit)
    (l done : list A) :
  (forall d x, triple (I d) (body x) (fun _ => I (d ++ [x]))) ->
  triple (I done) (for_each l body) (fun _ => I (done ++ l)).
Proof.
  intros H. revert done.
  induction l as [| x l IH]; intros done; simpl.
  - apply triple_ret. intros s Hs. rewrite app_nil_r. exact Hs.
  - apply (triple_bind _ (fun _ => I (done ++ [x]))); [apply H |]. intros u.
    replace (done ++ x :: l) with ((done ++ [x]) ++ l) by (rewrite <- app_assoc; reflexivity).
    apply IH.
Qed.

Lemma triple_for_each {A : Type} (I : list A -> State -> Prop) (body : A -> M unit) (l : list A) :
  (forall d x, triple (I d) (body x) (fun _ => I (d ++ [x]))) ->
  triple (I []) (for_each l body) (fun _ => I l).
Proof. intros H. apply (triple_for_each_from I body l [] H). Qed.

(** *** Frames, mechanically *)

Create HintDb methods.

#[export] Hint Unfold _set_total _set_tick _tick _set_action _set_status
  _load_configuration _boot_log remove_file stat_size _images_in_stack
  _docker_load_archive _docker_image_exists pull_line _docker_pull_image
  _docker_run_stack lookup_stack load_archive_item run_stack_image run_stack_images
  run_stack_up run_stack_item
  load_stack_image load_stack_item phase run_phases _run mark_error on_exception
  on_finally cycle_body start_cycle : methods.

Lemma stable_send_chunks (R : relation State) `{!PreOrder R} env archive level reads b :
  (forall data, stable R (call env (EvLoadWrite archive data))) ->
  (forall v, stable R (store_tick level v)) ->
  stable R (send_chunks env archive level reads b).
Proof.
  intros Hwrite H. revert b.
  induction reads as [| data rest IH]; intros b; simpl.
  - apply stable_ret; assumption.
  - apply stable_bind; [assumption | apply stable_get; assumption |].
    intros s. destruct (is_shutdown (world s)).
    + apply stable_ret; assumption.
    + apply stable_bind; [assumption | apply Hwrite |]. intros _.
      apply stable_bind; [assumption | apply H |]. intros _. apply IH.
Qed.

Lemma stable_read_pull_lines (R : relation State) `{!PreOrder R} level lines layers :
  (forall line ls, stable R (pull_line level line ls)) ->
  stable R (read_pull_lines level lines layers).
Proof.
  intros H. revert layers.
  induction lines as [| line rest IH]; intros layers; simpl.
  - apply stable_ret; assumption.
  - apply stable_bind; [assumption | apply H |]. intros ls. apply IH.
Qed.

Lemma stable_read_stacks (R : relation State) `{!PreOrder R} env stacks d :
  (forall stack, stable R (_images_in_stack env stack)) ->
  stable R (read_stacks env stacks d).
Proof.
  intros H. revert d.
  induction stacks as [| stack rest IH]; intros d; simpl.
  - apply stable_ret; assumption.
  - apply stable_bind; [assumption | apply H |]. intros images. apply IH.
Qed.

Lemma elem_of_range (x a b : nat) : x ∈ range a b -> (a <= x < b)%nat.
Proof. unfold range. rewrite elem_of_seq. lia. Qed.

(** *** The disk, as the delete policy sees it *)

(** The removals of a trace that failed: [pre] is what happened before it. *)
Fixpoint failed_removals_from (env : Env) (pre tr : list Event) : list string :=
  match tr with
  | [] => []
  | ev :: rest =>
      match ev, fault env pre ev with
      | EvRemove p, Some _ => p :: failed_removals_from env (pre ++ [ev]) rest
      | _, _ => failed_removals_from env (pre ++ [ev]) rest
      end
  end.

Definition failed_removals (env : Env) (tr : list Event) : list string :=
  failed_removals_from env [] tr.

(** What the delete policy acts on: the policy itself, the files on disk,
    the removals so far and those that failed. *)
Definition disk (env : Env) (s : State) : bool * list string * list string * list string :=
  (do_delete (self s), files_of s, removals (trace_of s), failed_removals env (trace_of s)).

(** [os.remove(p)] on a list of files. *)
Definition without (p : string) (fs : list string) : list string :=
  List.filter (fun q => negb (String.eqb q p)) fs.

(** The removal of [p] after it was processed, under the policy. *)
Definition remove_step (p : string)
    (dk : bool * list string * list string * list string)
    : bool * list string * list string * list string :=
  let '(policy, fs, removed, failed) := dk in
  if policy then (policy, without p fs, removed ++ [p], failed) else dk.

Lemma failed_removals_from_snoc (env : Env) (tr : list Event) :
  forall (pre : list Event) (ev : Event),
  failed_removals_from env pre (tr ++ [ev])
  = failed_removals_from env pre tr
    ++ match ev, fault env (pre ++ tr) ev with
       | EvRemove p, Some _ => [p]
       | _, _ => []
       end.
Proof.
  induction tr as [| e tr IH]; intros pre ev; simpl.
  - rewrite app_nil_r. destruct ev; try reflexivity;
      try (destruct (fault env pre _); reflexivity).
  - rewrite IH, <- app_assoc. simpl.
    destruct e; try reflexivity; try (destruct (fault env pre _); reflexivity).
Qed.

(** An event that is not a removal adds no failed removal. *)
Lemma failed_removals_snoc (env : Env) (tr : list Event) (ev : Event) :
  (forall p, ev <> EvRemove p) ->
  failed_removals env (tr ++ [ev]) = failed_removals env tr.
Proof.
  intros Hev. unfold failed_removals. rewrite failed_removals_from_snoc. simpl.
  destruct ev; try apply app_nil_r. exfalso. exact (Hev _ eq_refl).
Qed.

(** Closes [R s (f s)] for a state update [f] the relation does not see. *)
Ltac frame_close :=
  unfold pres, grows, static, config, disk, tick_at, total_at, action_at, output_at,
    files_of, trace_of, totals_written, removals, compose_ups, image_events;
  simpl;
  repeat match goal with |- context [if ?b then _ else _] => destruct b; simpl end;
  rewrite ?length_insert, ?omap_app, ?filter_app; simpl; rewrite ?app_nil_r;
  rewrite ?failed_removals_snoc by (intros ?; discriminate);
  first
    [ reflexivity
    | apply prefix_app_r; reflexivity
    | apply list_lookup_insert_ne; lia ].

(** The four stores write one entry of one level list. *)
Ltac store_frame :=
  let s := fresh "s" in
  intros s;
  unfold store_total, store_tick, store_action, store_output, bind, get, lift, setitem, modify;
  simpl;
  destruct (_ <? _)%nat; simpl; frame_close.

(** Walks a computation down to its stores, events and calls. *)
Ltac stable_go :=
  repeat (progress autounfold with methods);
  lazymatch goal with
  | |- stable _ (ret _) => apply stable_ret; tc_solve
  | |- stable _ (raise _) => apply stable_raise; tc_solve
  | |- stable _ get => apply stable_get; tc_solve
  | |- stable _ (lift _) => apply stable_lift; tc_solve
  | |- stable _ (bind _ _) =>
      apply stable_bind; [tc_solve | stable_go | intros ?; stable_go]
  | |- stable _ (for_each _ _) =>
      apply stable_for_each;
      [tc_solve | let H := fresh "Hin" in intros ? H; try apply elem_of_range in H; stable_go]
  | |- stable _ (try_except _ _) =>
      apply stable_try_except; [tc_solve | stable_go | intros ?; stable_go]
  | |- stable _ (try_finally _ _) =>
      apply stable_try_finally; [tc_solve | stable_go | stable_go]
  | |- stable _ (send_chunks _ _ _ _ _) =>
      apply stable_send_chunks; [tc_solve | intros ?; stable_go | intros ?; stable_go]
  | |- stable _ (read_pull_lines _ _ _) =>
      apply stable_read_pull_lines; [tc_solve | intros ? ?; stable_go]
  | |- stable _ (read_stacks _ _ _) =>
      apply stable_read_stacks; [tc_solve | intros ?; stable_go]
  | |- stable _ (modify _) => apply stable_modify; intros ?; frame_close
  | |- stable _ (emit _) => apply stable_emit; intros ?; frame_close
  | |- stable _ (call _ _) => apply stable_call; intros ?; frame_close
  | |- stable _ (store_total _ _) => store_frame
  | |- stable _ (store_tick _ _) => store_frame
  | |- stable _ (store_action _ _) => store_frame
  | |- stable _ (store_output _ _) => store_frame
  | |- stable _ (if ?b then _ else _) => destruct b; stable_go
  | |- stable _ (match ?x with _ => _ end) => destruct x; stable_go
  end.

(** A cycle's [try:] block writes neither the error flag nor the wait, and
    keeps the level lists at their length. *)
Lemma cycle_body_static env : stable (pres static) (cycle_body env).
Proof. stable_go. Qed.

Lemma _run_config env : stable (pres config) (_run env).
Proof. stable_go. Qed.

Lemma _run_grows env : stable grows (_run env).
Proof. stable_go. Qed.

(** ** The progress tree *)

(** A list of length four is four entries. *)
Lemma length_four {A : Type} (l : list A) :
  length l = 4%nat -> exists a b c d, l = [a; b; c; d].
Proof.
  destruct l as [| a [| b [| c [| d [| e l]]]]]; simpl; intros H; try discriminate.
  eauto.
Qed.

(** Opens a well-formed state into its sixteen level entries. *)
Ltac open_state s Hwf :=
  let c := fresh "c" in
  let w := fresh "w" in
  let rp := fresh "rp" in
  destruct s as [c w rp];
  destruct c as [tar targz sl sr ml tot tk act out bsy err excl del];
  destruct w as [fs imgs down tr];
  destruct Hwf as (Hml & Htot & Htk & Hact & Hout);
  simpl in Hml, Htot, Htk, Hact, Hout;
  apply length_four in Htot as (tot0 & tot1 & tot2 & tot3 & ->);
  apply length_four in Htk as (tk0 & tk1 & tk2 & tk3 & ->);
  apply length_four in Hact as (act0 & act1 & act2 & act3 & ->);
  apply length_four in Hout as (out0 & out1 & out2 & out3 & ->);
  subst ml.

Ltac four_levels l := destruct l as [| [| [| [| l]]]]; try lia.

(** C6. For a level [L] of 0..3, [_set_action L a] returns, stores [a] at
    level [L], leaves [None] as the action and 0 as the tick of every level
    above [L], and leaves action, tick, total and output of every level
    below [L] as they were. *)
Theorem set_action_clears_above (L : nat) (a : string) (s : State) :
  wf (self s) -> (L < 4)%nat ->
  exists s',
    _set_action L a s = (Ok tt, s') /\
    action_at L s' = Some (Some a) /\
    (forall l, (L < l < 4)%nat -> action_at l s' = Some None /\ tick_at l s' = Some 0) /\
    (forall l, (l < L)%nat ->
       action_at l s' = action_at l s /\ tick_at l s' = tick_at l s /\
       total_at l s' = total_at l s /\ output_at l s' = output_at l s).
Proof.
  intros Hwf HL. open_state s Hwf.
  four_levels L; (eexists; split; [vm_compute; reflexivity |]);
    (split; [reflexivity |]);
    (split; intros l Hl; four_levels l; repeat split; reflexivity).
Qed.

Lemma set_action_clears_above_witness :
  exists s',
    _set_action 1 "Loading other stacks"
      (mkState (with_tick [4; 2; 7; 9] (__init__ ∅)) (mkWorld [] [] false []) 60) = (Ok tt, s') /\
    tick (self s') = [4; 2; 0; 0] /\
    action (self s') = [None; Some "Loading other stacks"; None; None].
Proof.
  destruct (set_action_clears_above 1 "Loading other stacks"
              (mkState (with_tick [4; 2; 7; 9] (__init__ ∅)) (mkWorld [] [] false []) 60))
    as (s' & Hrun & _); [repeat split | lia |].
  exists s'. split; [exact Hrun |].
  vm_compute in Hrun. injection Hrun as <-. split; reflexivity.
Defined.

(** C10. For a level [L] of 0..3, [_set_status L a 0] returns, stores [a] at
    level [L], resets the tick of level [L] to 0 and its output to [None], and
    leaves [None] as the action and 0 as the tick of every level above [L]. *)
Theorem set_status_resets_own_level (L : nat) (a : string) (s : State) :
  wf (self s) -> (L < 4)%nat ->
  exists s',
    _set_status L a 0 s = (Ok tt, s') /\
    action_at L s' = Some (Some a) /\
    tick_at L s' = Some 0 /\
    output_at L s' = Some None /\
    (forall l, (L < l < 4)%nat -> action_at l s' = Some None /\ tick_at l s' = Some 0).
Proof.
  intros Hwf HL. open_state s Hwf.
  four_levels L; (eexists; split; [vm_compute; reflexivity |]);
    (repeat (split; [reflexivity |]));
    (intros l Hl; four_levels l; split; reflexivity).
Qed.

Lemma set_status_resets_own_level_witness :
  exists s',
    _set_status 2 "Loading stack: core"  0
      (mkState (with_output [None; None; Some "out"; Some "log"] (with_tick [4; 2; 7; 9] (__init__ ∅)))
         (mkWorld [] [] false []) 60) = (Ok tt, s') /\
    tick (self s') = [4; 2; 0; 0] /\
    output (self s') = [None; None; None; Some "log"].
Proof.
  destruct (set_status_resets_own_level 2 "Loading stack: core"
              (mkState (with_output [None; None; Some "out"; Some "log"] (with_tick [4; 2; 7; 9] (__init__ ∅)))
                 (mkWorld [] [] false []) 60))
    as (s' & Hrun & _); [repeat split | lia |].
  exists s'. split; [exact Hrun |].
  vm_compute in Hrun. injection Hrun as <-. split; reflexivity.
Defined.

(** ** Example devices *)

Definition core_yaml : string := "/data/loader/stacks_to_run/core.yaml".
Definition broken_yaml : string := "/data/loader/stacks_to_run/broken.yaml".
Definition empty_yaml : string := "/data/loader/stacks_to_run/empty.yaml".
Definition extra_yaml : string := "/data/loader/stacks_to_load/extra.yaml".
Definition base_tar : string := "/data/loader/images_to_load/base.tar".
Definition tools_tar : string := "/data/loader/images_to_load/tools.tar".

(** What [docker pull] prints for an image of one layer. *)
Definition one_layer_pull : list string :=
  ["latest: Pulling from duckietown/dt-core";
   "a3ed95caeb02: Pulling fs layer";
   "a3ed95caeb02: Download complete";
   "a3ed95caeb02: Pull complete";
   "Digest: sha256:0c1a";
   "Status: Downloaded newer image for duckietown/dt-core:latest"].

(** The manifests of the example devices: [core.yaml] has three services on
    two images, [extra.yaml] one service, [empty.yaml] none, and
    [broken.yaml] has no ['services'] key. *)
Definition demo_services (p : string) : Result (list string) :=
  if String.eqb p core_yaml then
    Ok ["duckietown/dt-core:latest"; "duckietown/dt-ui:latest"; "duckietown/dt-core:latest"]
  else if String.eqb p extra_yaml then Ok ["duckietown/dt-core:latest"]
  else if String.eqb p broken_yaml then Raise (KeyError "services")
  else Ok [].

(** A disk of 32 GB, a quarter of it in use. *)
Definition demo_disk : DiskUsage := mkDiskUsage 32000000000 8000000000 24000000000 25.

(** Collaborators that never fail. *)
Definition demo_env : Env :=
  mkEnv (fun _ => 20000000) demo_services (fun _ => []) (fun _ => "Loaded image")
    (fun _ => one_layer_pull) (fun _ => false) (fun _ => true)
    (fun _ => Ok demo_disk) (fun _ _ => None).

(** The same, except that no file can be removed. *)
Definition readonly_env : Env :=
  mkEnv (fun _ => 20000000) demo_services (fun _ => []) (fun _ => "Loaded image")
    (fun _ => one_layer_pull) (fun _ => false) (fun _ => true)
    (fun _ => Ok demo_disk)
    (fun _ ev => match ev with
                 | EvRemove p => Some (OSError ("Permission denied: " +:+ p))
                 | _ => None
                 end).

(** A device right after [__init__], with the given files and images. *)
Definition boot (environ : gmap string string) (fs imgs : list string) : State :=
  mkState (__init__ environ) (mkWorld fs imgs false []) RECHECK_PERIOD_SEC.

(** ** The cycle controller *)

(** The handler stops at its first line: the three items [sys.exc_info()]
    returns are not strings, so the join raises. *)
Lemma on_exception_raises (exc : exn) (s : State) :
  on_exception exc s
  = (Raise (TypeError ("sequence item 0: expected str instance, type found")), s).
Proof. reflexivity. Qed.

(** Had the join returned a text [e], the rest of the handler would mark
    every level, set the error flag and shorten the wait. *)
Lemma mark_error_marks_every_level (e : string) (s : State) :
  wf (self s) ->
  exists s',
    mark_error e s = (Ok tt, s') /\
    action (self s') = replicate 4 (Some ("ERROR: " +:+ e)) /\
    error (self s') = true /\
    recheck_period s' = RECHECK_PERIOD_ON_ERROR_SEC.
Proof.
  intros Hwf. open_state s Hwf.
  eexists. split; [cbv -[String.app]; reflexivity |].
  repeat split.
Qed.

(** C2. When the [try:] block of a pass raises, whatever the exception, the
    pass itself ends with the [TypeError] of the handler's first line: no
    action is written and the error flag is not set (the loader is as the
    failed block left it), the wait is the one in force before the pass, and
    the loop of [start] ends with that exception, so that no later pass
    scans again. *)
Theorem failed_cycle_ends_the_loop (env : Env) (s s1 : State) (e : exn) :
  cycle_body env s = (Raise e, s1) ->
  exists s',
    start_cycle env s
    = (Raise (TypeError "sequence item 0: expected str instance, type found"), s') /\
    self s' = self s1 /\
    error (self s') = error (self s) /\
    trace_of s' = trace_of s1 ++ [EvPrinterStop; EvSleep (recheck_period s)] /\
    (is_shutdown (world s) = false ->
     forall fuel, start_loop env (S fuel) s
       = (Raise (TypeError "sequence item 0: expected str instance, type found"), s')).
Proof.
  intros Hbody.
  pose proof (stable_run static _ _ _ _ (cycle_body_static env) Hbody) as Hst.
  assert (Hcycle : start_cycle env s
    = (Raise (TypeError "sequence item 0: expected str instance, type found"),
       on_world (log (EvSleep (recheck_period s1))) (on_world (log EvPrinterStop) s1))).
  { unfold start_cycle, try_finally, try_except. rewrite Hbody.
    rewrite on_exception_raises. reflexivity. }
  assert (Hrp : recheck_period s1 = recheck_period s).
  { unfold static in Hst. congruence. }
  assert (Herr : error (self s1) = error (self s)).
  { unfold static in Hst. congruence. }
  eexists. split; [exact Hcycle |].
  split; [reflexivity |]. split; [exact Herr |]. split.
  - unfold trace_of. simpl. rewrite Hrp, <- app_assoc. reflexivity.
  - intros Hup fuel. simpl. unfold bind at 1, get. rewrite Hup.
    apply bind_raise. exact Hcycle.
Qed.

Lemma failed_cycle_ends_the_loop_witness :
  exists s',
    start_loop demo_env 5 (boot ∅ [base_tar; broken_yaml] [])
    = (Raise (TypeError "sequence item 0: expected str instance, type found"), s') /\
    action (self s') = [None; None; None; None] /\
    error (self s') = false /\
    trace_of s' = [EvPrintStatus ["base.tar"] [] [] ["broken.yaml"]; EvPrinterStop; EvSleep 60].
Proof.
  edestruct (failed_cycle_ends_the_loop demo_env (boot ∅ [base_tar; broken_yaml] []))
    as (s' & Hcycle & Hself & Herr & Htr & Hloop); [vm_compute; reflexivity |].
  exists s'. split; [apply Hloop; reflexivity |].
  rewrite Hself, Htr. repeat split.
Defined.

(** A pass whose [try:] block returns leaves the error flag and the wait
    alone: nothing on that path writes either. *)
Lemma start_cycle_after_success (env : Env) (s s1 : State) :
  cycle_body env s = (Ok tt, s1) ->
  start_cycle env s
  = (Ok tt, on_world (log (EvSleep (recheck_period s))) (on_world (log EvPrinterStop) s1))
  /\ error (self s1) = error (self s).
Proof.
  intros Hbody.
  pose proof (stable_run static _ _ _ _ (cycle_body_static env) Hbody) as Hst.
  assert (Hrp : recheck_period s1 = recheck_period s).
  { unfold static in Hst. congruence. }
  split.
  - unfold start_cycle, try_finally, try_except. rewrite Hbody. simpl.
    rewrite Hrp. reflexivity.
  - unfold static in Hst. congruence.
Qed.

(** On four levels the roll-up returns four percentages. *)
Lemma _get_progress_returns (c : CodeLoader) :
  wf c -> exists p0 p1 p2 p3, _get_progress c = Ok [p0; p1; p2; p3].
Proof.
  intros (Hml & Htot & Htk & _).
  destruct c as [tar targz sl sr ml tot tk act out bsy err excl del]. simpl in *.
  apply length_four in Htot as (tot0 & tot1 & tot2 & tot3 & ->).
  apply length_four in Htk as (tk0 & tk1 & tk2 & tk3 & ->).
  subst ml. unfold _get_progress.
  cbn -[percentage floor float_of_int PrimFloat.mul PrimFloat.div Z.add Z.ltb].
  unfold progress_step.
  cbn -[percentage floor float_of_int PrimFloat.mul PrimFloat.div Z.add Z.ltb].
  destruct (0 <? tot2);
    cbn -[percentage floor float_of_int PrimFloat.mul PrimFloat.div Z.add Z.ltb];
    destruct (0 <? tot1);
    cbn -[percentage floor float_of_int PrimFloat.mul PrimFloat.div Z.add Z.ltb];
    destruct (0 <? tot0);
    cbn -[percentage floor float_of_int PrimFloat.mul PrimFloat.div Z.add Z.ltb];
    eauto.
Qed.

(** A status read of a loader with four levels, on a device whose disk
    usage can be read, returns and names the error flag first. *)
Lemma get_status_returns (env : Env) (c : CodeLoader) (du : DiskUsage) :
  disk_usage env LOADER_DATA_DIR = Ok du ->
  wf c ->
  exists st,
    get_status env c = Ok st /\
    st_status st = (if error c then "error" else if busy c then "busy" else "ready") /\
    length (st_progress st) = 4%nat.
Proof.
  intros Hdisk Hwf. destruct (_get_progress_returns c Hwf) as (p0 & p1 & p2 & p3 & Hp).
  unfold get_status. rewrite Hdisk, Hp.
  destruct Hwf as (Hml & Htot & Htk & Hact & Hout).
  destruct c as [tar targz sl sr ml tot tk act out bsy err excl del]. simpl in *.
  apply length_four in Htot as (tot0 & tot1 & tot2 & tot3 & ->).
  apply length_four in Htk as (tk0 & tk1 & tk2 & tk3 & ->).
  apply length_four in Hact as (act0 & act1 & act2 & act3 & ->).
  apply length_four in Hout as (out0 & out1 & out2 & out3 & ->).
  subst ml. cbn. eexists. repeat split.
Qed.

(** When the disk usage of the data directory cannot be read, neither can
    the status. *)
Lemma get_status_raises (env : Env) (c : CodeLoader) (e : exn) :
  disk_usage env LOADER_DATA_DIR = Raise e -> get_status env c = Raise e.
Proof. intros Hdisk. unfold get_status. rewrite Hdisk. reflexivity. Qed.

(** From [__init__] on, no pass of the loop ever sets the error flag or
    shortens the wait: the only writes of both follow the failing join. *)
Lemma start_loop_static (env : Env) (fuel : nat) : stable (pres static) (start_loop env fuel).
Proof.
  induction fuel as [| n IH]; simpl.
  - apply stable_ret; tc_solve.
  - apply stable_bind; [tc_solve | apply stable_get; tc_solve |].
    intros s. destruct (is_shutdown (world s)); [apply stable_ret; tc_solve |].
    apply stable_bind; [tc_solve | | intros _; exact IH].
    unfold start_cycle.
    apply stable_try_finally; [tc_solve | | stable_go].
    apply stable_try_except; [tc_solve | apply cycle_body_static |].
    intros e s0. rewrite on_exception_raises. reflexivity.
Qed.

(** A cycle that returns leaves the loader idle. *)
Lemma _run_ends_idle (env : Env) (s s' : State) :
  _run env s = (Ok tt, s') -> busy (self s') = false.
Proof.
  intros Hrun. unfold _run in Hrun.
  unfold bind at 1, modify in Hrun. unfold bind at 1, get in Hrun.
  apply bind_ok in Hrun as (d_load & s0 & _ & Hrun).
  apply bind_ok in Hrun as (d_run & s1 & _ & Hrun).
  apply bind_ok in Hrun as ([] & s2 & _ & Hrun).
  apply bind_ok in Hrun as ([] & s3 & _ & Hrun).
  apply bind_ok in Hrun as ([] & s4 & _ & Hdone).
  unfold modify in Hdone. injection Hdone as <-. reflexivity.
Qed.

Lemma cycle_body_ends_idle (env : Env) (s s1 : State) :
  cycle_body env s = (Ok tt, s1) -> busy (self s1) = false.
Proof.
  intros Hbody. unfold cycle_body in Hbody.
  apply bind_ok in Hbody as ([] & sa & _ & Hbody).
  apply bind_ok in Hbody as ([] & sb & Hrun & Hcall).
  assert (Hself : stable (pres self) (call env (EvDisableService "dt.device-init")))
    by stable_go.
  rewrite (stable_run self _ _ _ _ Hself Hcall).
  exact (_run_ends_idle env sa sb Hrun).
Qed.





(** The loop of [start], entered by a loader as [__init__] leaves it (four
    levels, the error flag off) with the long wait in force: after any
    number of passes, a pass whose [try:] block returns ends with the error
    flag off, a status read then says "ready", and the sleep of the pass is
    the long one. The flag is off and the wait is long because no pass ever
    writes either (the handler stops at its join), not because a pass that
    returns resets them. *)
Lemma fresh_loader_reports_ready (env : Env) (n : nat) (s0 s s1 : State) (du : DiskUsage) :
  wf (self s0) -> error (self s0) = false -> recheck_period s0 = RECHECK_PERIOD_SEC ->
  disk_usage env LOADER_DATA_DIR = Ok du ->
  start_loop env n s0 = (Ok tt, s) ->
  cycle_body env s = (Ok tt, s1) ->
  exists s' st,
    start_cycle env s = (Ok tt, s') /\
    error (self s') = false /\
    get_status env (self s') = Ok st /\ st_status st = "ready" /\
    trace_of s' = trace_of s1 ++ [EvPrinterStop; EvSleep RECHECK_PERIOD_SEC] /\
    recheck_period s' = RECHECK_PERIOD_SEC.
Proof.
  intros Hwf Herr Hrp Hdisk Hloop Hbody.
  pose proof (stable_run static _ _ _ _ (start_loop_static env n) Hloop) as Hst.
  pose proof (stable_run static _ _ _ _ (cycle_body_static env) Hbody) as Hst1.
  rewrite Hst in Hst1.
  assert (Hs : error (self s) = false /\ recheck_period s = RECHECK_PERIOD_SEC).
  { unfold static in Hst. split; congruence. }
  destruct Hs as [Herr_s Hrp_s].
  assert (Hs1 : error (self s1) = false /\ recheck_period s1 = RECHECK_PERIOD_SEC).
  { unfold static in Hst1. split; congruence. }
  destruct Hs1 as [Herr1 Hrp1].
  assert (Hwf1 : wf (self s1)).
  { unfold static in Hst1. unfold wf in *.
    injection Hst1 as Hml Hlt Hlk Hla Hlo _ _ _ _. rewrite Hml, Hlt, Hlk, Hla, Hlo.
    exact Hwf. }
  destruct (start_cycle_after_success env s s1 Hbody) as [Hcycle _].
  destruct (get_status_returns env (self s1) du Hdisk Hwf1) as (st & Hread & Hname & _).
  rewrite Herr1, (cycle_body_ends_idle env s s1 Hbody) in Hname.
  eexists. exists st. split; [exact Hcycle |]. simpl.
  split; [exact Herr1 |]. split; [exact Hread |]. split; [exact Hname |].
  split; [| exact Hrp1].
  unfold trace_of. simpl. rewrite <- app_assoc, Hrp_s. reflexivity.
Qed.

(** C1. One pass on a device whose only work is a stack-to-load manifest of
    one image, the pull of which reports one layer: the pass returns, the
    status is "ready", and the percentages of the four levels are 400, 300,
    200 and 100. *)
Theorem progress_exceeds_100 :
  exists s' st,
    start_cycle demo_env (boot ∅ [extra_yaml] []) = (Ok tt, s') /\
    tick (self s') = [1; 1; 1; 2] /\
    total (self s') = [1; 1; 1; 2] /\
    get_status demo_env (self s') = Ok st /\
    st_status st = "ready" /\
    ls_progress <$> st_progress st = [400; 300; 200; 100].
Proof.
  eexists. eexists.
  split; [vm_compute; reflexivity |].
  split; [reflexivity |]. split; [reflexivity |].
  split; [vm_compute; reflexivity |].
  split; reflexivity.
Qed.

(** ** The pull parser *)

(** The two keyword classes [_docker_pull_image] knows. *)
Definition registering : list string := ["Waiting"; "Pulling fs layer"].
Definition completing : list string := ["Download complete"; "Pull complete"].

(** The layer and the keyword of a line that has both: two fields around one
    colon, the first of twelve characters once stripped. *)
Definition line_fields (line : string) : option (string * string) :=
  match split ":" (strip line) with
  | [p0; p1] =>
      if (String.length (strip p0) =? 12)%nat then Some (strip p0, strip p1) else None
  | _ => None
  end.

Inductive line_class : Type :=
  | Registers (layer : string)
  | Completes
  | Other.

Definition classify (line : string) : line_class :=
  match line_fields line with
  | Some (layer, keyword) =>
      if bool_decide (keyword ∈ registering) then Registers layer
      else if bool_decide (keyword ∈ completing) then Completes
      else Other
  | None => Other
  end.

(** The set [layers] and the number of completions after a run of lines. *)
Fixpoint layers_after (lines : list string) (layers : gset string) : gset string :=
  match lines with
  | [] => layers
  | line :: rest =>
      layers_after rest
        match classify line with
        | Registers layer => {[layer]} ∪ layers
        | _ => layers
        end
  end.

Fixpoint completions (lines : list string) : Z :=
  match lines with
  | [] => 0
  | line :: rest =>
      match classify line with
      | Completes => 1 + completions rest
      | _ => completions rest
      end
  end.

Definition registers_any (lines : list string) : bool :=
  existsb (fun line => match classify line with Registers _ => true | _ => false end) lines.

(** What one line does, with what the next line needs. *)
Lemma pull_line_spec (level : nat) (line : string) (layers : gset string) (s : State)
    (text : string) :
  wf (self s) -> (level < 4)%nat -> output_at level s = Some (Some text) ->
  exists s' layers',
    pull_line level line layers s = (Ok layers', s') /\
    wf (self s') /\
    output_at level s' = Some (Some (text +:+ String (ascii_of_nat 10) (strip line))) /\
    match classify line with
    | Registers layer =>
        layers' = {[layer]} ∪ layers /\
        total_at level s' = Some (2 * Z.of_nat (size layers')) /\
        tick (self s') = tick (self s)
    | Completes =>
        layers' = layers /\
        (exists t, tick_at level s = Some t /\ tick_at level s' = Some (t + 1)) /\
        total (self s') = total (self s)
    | Other =>
        layers' = layers /\
        tick (self s') = tick (self s) /\
        total (self s') = total (self s)
    end.
Proof.
  intros Hwf HL Htext. open_state s Hwf.
  unfold classify, line_fields, pull_line.
  generalize (strip line). intros l.
  destruct (split ":" l) as [| p0 [| p1 [| p2 ps]]].
  all: four_levels level; unfold output_at in Htext; simpl in Htext;
    injection Htext as ->.
  all: cbv [bind get lift getitem self output lookup list_lookup store_output setitem
            length Nat.ltb Nat.leb modify on_self with_output ret insert list_insert
            _set_total store_total total with_total emit on_world log _tick _set_tick
            store_tick tick with_tick raise].
  all: try (destruct (String.length (strip p0) =? 12)%nat; cbv [negb]).
  all: try (destruct (bool_decide (strip p1 ∈ registering)) eqn:Hreg;
            [ change (bool_decide (strip p1 ∈ ["Waiting"; "Pulling fs layer"])) with
                (bool_decide (strip p1 ∈ registering)); rewrite Hreg
            | change (bool_decide (strip p1 ∈ ["Waiting"; "Pulling fs layer"])) with
                (bool_decide (strip p1 ∈ registering)); rewrite Hreg;
              change (bool_decide (strip p1 ∈ ["Download complete"; "Pull complete"])) with
                (bool_decide (strip p1 ∈ completing));
              destruct (bool_decide (strip p1 ∈ completing)) ]).
  all: eexists; eexists; (split; [reflexivity |]).
  all: (split; [repeat split |]); (split; [reflexivity |]).
  all: repeat split; eauto.
Qed.

Example classify_pulling : classify "a3ed95caeb02: Pulling fs layer" = Registers "a3ed95caeb02".
Proof. vm_compute. reflexivity. Qed.

Example classify_pull_complete : classify "a3ed95caeb02: Pull complete" = Completes.
Proof. vm_compute. reflexivity. Qed.

Example classify_digest : classify "Digest: sha256:0c1a" = Other.
Proof. vm_compute. reflexivity. Qed.

Example classify_header : classify "latest: Pulling from duckietown/dt-core" = Other.
Proof. vm_compute. reflexivity. Qed.

(** Without a registering line the set stays as it is. *)
Lemma layers_after_none (lines : list string) (layers : gset string) :
  registers_any lines = false -> layers_after lines layers = layers.
Proof.
  revert layers. induction lines as [| line rest IH]; intros layers; simpl; [reflexivity |].
  destruct (classify line); simpl; intros H; try discriminate; apply IH; exact H.
Qed.

(** A whole pull: the tick grows by the number of completing lines, and the
    total ends at twice the number of layers registered, once one is. *)
Lemma read_pull_lines_spec (level : nat) (lines : list string) :
  forall (layers : gset string) (s : State) (text : string) (t : Z),
  wf (self s) -> (level < 4)%nat ->
  output_at level s = Some (Some text) -> tick_at level s = Some t ->
  exists s',
    read_pull_lines level lines layers s = (Ok tt, s') /\
    wf (self s') /\
    tick_at level s' = Some (t + completions lines) /\
    total_at level s'
    = (if registers_any lines
       then Some (2 * Z.of_nat (size (layers_after lines layers)))
       else total_at level s).
Proof.
  induction lines as [| line rest IH]; intros layers s text t Hwf HL Htext Htick.
  - exists s. simpl. rewrite Z.add_0_r. auto.
  - destruct (pull_line_spec level line layers s text Hwf HL Htext)
      as (s1 & layers1 & Hrun & Hwf1 & Htext1 & Hclass).
    simpl. rewrite (bind_run _ _ _ _ _ Hrun).
    destruct (classify line) as [layer | |].
    + destruct Hclass as (-> & Htotal1 & Htick1).
      assert (Ht1 : tick_at level s1 = Some t) by (unfold tick_at in *; congruence).
      destruct (IH ({[layer]} ∪ layers) s1 _ t Hwf1 HL Htext1 Ht1)
        as (s' & Hrest & Hwf' & Htick' & Htotal').
      exists s'. split; [exact Hrest |]. split; [exact Hwf' |]. split; [exact Htick' |].
      simpl. rewrite Htotal'.
      destruct (registers_any rest) eqn:Hany; [reflexivity |].
      rewrite (layers_after_none rest _ Hany). exact Htotal1.
    + destruct Hclass as (-> & (t0 & Ht0 & Ht1) & Htotal1).
      assert (t0 = t) as -> by (unfold tick_at in *; congruence).
      destruct (IH layers s1 _ (t + 1) Hwf1 HL Htext1 Ht1) as (s' & Hrest & Hwf' & Htick' & Htotal').
      exists s'. split; [exact Hrest |]. split; [exact Hwf' |]. split.
      * rewrite Htick'. f_equal. lia.
      * simpl. rewrite Htotal'. unfold total_at. rewrite Htotal1. reflexivity.
    + destruct Hclass as (-> & Htick1 & Htotal1).
      assert (Ht1 : tick_at level s1 = Some t) by (unfold tick_at in *; congruence).
      destruct (IH layers s1 _ t Hwf1 HL Htext1 Ht1) as (s' & Hrest & Hwf' & Htick' & Htotal').
      exists s'. split; [exact Hrest |]. split; [exact Hwf' |]. split; [exact Htick' |].
      simpl. rewrite Htotal'. unfold total_at. rewrite Htotal1. reflexivity.
Qed.

(** *** The lines docker prints *)

Fixpoint all_chars (P : ascii -> bool) (s : string) : bool :=
  match s with
  | EmptyString => true
  | String c s' => P c && all_chars P s'
  end.

(** A character of a layer identifier: neither white space nor a colon. *)
Definition layer_char (c : ascii) : bool := negb (is_space c) && negb (Ascii.eqb c ":").

Lemma append_cons (c : ascii) (s t : string) : String c s +:+ t = String c (s +:+ t).
Proof. reflexivity. Qed.

Lemma append_empty_r (s : string) : s +:+ "" = s.
Proof. induction s as [| c s IH]; [reflexivity | rewrite append_cons; f_equal; exact IH]. Qed.

Lemma rstrip_append (s t : string) :
  rstrip t <> EmptyString -> rstrip (s +:+ t) = s +:+ rstrip t.
Proof.
  intros Ht. induction s as [| c s IH]; [reflexivity |].
  rewrite !append_cons. simpl. rewrite IH.
  destruct (s +:+ rstrip t) eqn:E; [| reflexivity].
  destruct s; [| discriminate]. simpl in E. contradiction.
Qed.

Lemma rstrip_layer (s : string) : all_chars layer_char s = true -> rstrip s = s.
Proof.
  induction s as [| c s IH]; simpl; [reflexivity |].
  intros [Hc Hs]%andb_true_iff. rewrite (IH Hs).
  apply andb_true_iff in Hc as [Hsp _]. apply negb_true_iff in Hsp. rewrite Hsp.
  destruct s; reflexivity.
Qed.

Lemma lstrip_layer (s t : string) :
  all_chars layer_char s = true -> s <> EmptyString -> lstrip (s +:+ t) = s +:+ t.
Proof.
  destruct s as [| c s]; [contradiction |]. simpl.
  intros [Hc Hs]%andb_true_iff _.
  apply andb_true_iff in Hc as [Hsp _]. apply negb_true_iff in Hsp.
  rewrite Hsp. reflexivity.
Qed.

Lemma split_layer (s t : string) :
  all_chars layer_char s = true -> split ":" (s +:+ String ":" t) = s :: split ":" t.
Proof.
  induction s as [| c s IH]; simpl; [reflexivity |].
  intros [Hc Hs]%andb_true_iff. rewrite (IH Hs).
  apply andb_true_iff in Hc as [_ Hcolon]. apply negb_true_iff in Hcolon.
  rewrite Hcolon. reflexivity.
Qed.

(** A line as docker prints it, [<layer>: <keyword>] and a newline, with a
    layer of twelve characters, is read as that layer and that keyword. *)
Lemma line_fields_docker (layer keyword : string) :
  String.length layer = 12%nat -> all_chars layer_char layer = true ->
  keyword ∈ registering ++ completing ->
  line_fields (layer +:+ ": " +:+ keyword +:+ String (ascii_of_nat 10) "")
  = Some (layer, keyword).
Proof.
  intros Hlen Hchars Hkw.
  assert (Hne : layer <> EmptyString) by (destruct layer; [discriminate | congruence]).
  assert (Hstrip : strip layer = layer).
  { unfold strip. rewrite <- (append_empty_r layer) at 1.
    rewrite (lstrip_layer layer "" Hchars Hne), append_empty_r.
    apply rstrip_layer. exact Hchars. }
  unfold line_fields. unfold strip at 1.
  rewrite (lstrip_layer layer _ Hchars Hne).
  assert (Hcases : keyword = "Waiting" \/ keyword = "Pulling fs layer"
                   \/ keyword = "Download complete" \/ keyword = "Pull complete").
  { unfold registering, completing in Hkw. simpl in Hkw.
    rewrite !elem_of_cons, elem_of_nil in Hkw. tauto. }
  destruct Hcases as [-> | [-> | [-> | ->]]].
  all: match goal with
       | |- context [?l +:+ ?t] =>
           is_var l; let r := eval vm_compute in t in change t with r
       end.
  all: rewrite rstrip_append; [| vm_compute; discriminate].
  all: match goal with
       | |- context [rstrip ?t] =>
           let r := eval vm_compute in (rstrip t) in change (rstrip t) with r
       end.
  all: rewrite (split_layer layer _ Hchars).
  all: match goal with
       | |- context [split ?c ?t] =>
           let r := eval vm_compute in (split c t) in change (split c t) with r
       end.
  all: cbv beta iota; rewrite Hstrip, Hlen.
  all: match goal with
       | |- context [strip ?t] =>
           let r := eval vm_compute in (strip t) in change (strip t) with r
       end.
  all: reflexivity.
Qed.

(** ** One stack to run *)

(** The boot log cannot fail: what its write raises is swallowed. *)
Lemma _boot_log_run (env : Env) (phase message : string) (s : State) :
  _boot_log env phase message s = (Ok tt, on_world (log (EvBootLog phase message)) s).
Proof.
  unfold _boot_log, try_except, call. destruct (fault env _ _); reflexivity.
Qed.

(** Runs the stores and the monad of a goal on an opened state. *)
Ltac run_cbv :=
  cbv [bind get lift ret raise modify emit getitem setitem lookup list_lookup insert
       list_insert length Nat.ltb Nat.leb Nat.add Nat.sub range seq for_each on_self
       on_world log with_total with_tick with_action with_output with_busy with_files
       with_docker_images store_total store_tick store_action store_output
       _set_total _set_tick _tick _set_action _set_status
       self world recheck_period total tick action output max_level exclude_run
       do_delete busy error images_to_load_tar images_to_load_tar_gz
       stacks_to_load_yaml stacks_to_run_yaml files docker_images is_shutdown trace
       negb fst snd].

Ltac run_cbv_in H :=
  cbv [bind get lift ret raise modify emit getitem setitem lookup list_lookup insert
       list_insert length Nat.ltb Nat.leb Nat.add Nat.sub range seq for_each on_self
       on_world log with_total with_tick with_action with_output with_busy with_files
       with_docker_images store_total store_tick store_action store_output
       _set_total _set_tick _tick _set_action _set_status
       self world recheck_period total tick action output max_level exclude_run
       do_delete busy error images_to_load_tar images_to_load_tar_gz
       stacks_to_load_yaml stacks_to_run_yaml files docker_images is_shutdown trace
       negb fst snd] in H.

(** The bring-up of a stack, from the status write to the tick. *)
Lemma _docker_run_stack_level_3 (env : Env) (stack : string) (s s' : State) :
  wf (self s) ->
  _docker_run_stack env stack 3 s = (Ok tt, s') ->
  tick (self s') = <[3%nat := 1]> (tick (self s)) /\
  total (self s') = <[3%nat := 1]> (total (self s)) /\
  (forall l, (l < 3)%nat -> action_at l s' = action_at l s /\ output_at l s' = output_at l s) /\
  trace_of s' = trace_of s ++ [EvSetTotal 3 1; EvComposeUp (stack_name_of stack) stack] /\
  docker_images (world s') = docker_images (world s) /\
  files (world s') = files (world s) /\
  static s' = static s /\ config s' = config s.
Proof.
  intros Hwf Hrun. open_state s Hwf.
  unfold _docker_run_stack in Hrun. run_cbv_in Hrun.
  unfold call in Hrun. run_cbv_in Hrun.
  destruct (fault env _ _); [discriminate |].
  run_cbv_in Hrun. injection Hrun as <-.
  split; [reflexivity |]. split; [reflexivity |].
  split; [intros l Hl; four_levels l; split; reflexivity |].
  split; [unfold trace_of; simpl; rewrite <- app_assoc; reflexivity |].
  repeat split.
Qed.

(** The end of a stack that is excluded: the boot log and the tick of level 1. *)
Lemma run_stack_up_excluded (env : Env) (stack : string) (s : State) :
  wf (self s) ->
  lower (stack_name_of stack) ∈ exclude_run (self s) ->
  exists s' t1,
    run_stack_up env stack s = (Ok tt, s') /\
    tick_at 1 s = Some t1 /\
    tick (self s') = <[1%nat := t1 + 1]> (tick (self s)) /\
    total (self s') = total (self s) /\
    action (self s') = action (self s) /\
    output (self s') = output (self s) /\
    trace_of s'
    = trace_of s ++ [EvBootLog "loading" ("Stack completed: " +:+ stack_name_of stack)] /\
    docker_images (world s') = docker_images (world s) /\
    files (world s') = files (world s).
Proof.
  intros Hwf Hex. open_state s Hwf. simpl in Hex.
  unfold run_stack_up. run_cbv.
  rewrite (bool_decide_eq_true_2 _ Hex). run_cbv.
  rewrite _boot_log_run. run_cbv.
  eexists. exists tk1. repeat split.
Qed.

(** The end of a stack that is not excluded, when it returns: the bring-up
    at level 3, the two boot log entries and the tick of level 1. *)
Lemma run_stack_up_included (env : Env) (stack : string) (s s' : State) :
  wf (self s) ->
  lower (stack_name_of stack) ∉ exclude_run (self s) ->
  run_stack_up env stack s = (Ok tt, s') ->
  exists t1,
    tick_at 1 s = Some t1 /\
    tick (self s') = <[3%nat := 1]> (<[1%nat := t1 + 1]> (tick (self s))) /\
    total (self s') = <[3%nat := 1]> (total (self s)) /\
    trace_of s'
    = trace_of s ++ [EvSetTotal 3 1; EvComposeUp (stack_name_of stack) stack;
                      EvBootLog "loading" ("Stack run: " +:+ stack_name_of stack);
                      EvBootLog "loading" ("Stack completed: " +:+ stack_name_of stack)] /\
    docker_images (world s') = docker_images (world s) /\
    files (world s') = files (world s).
Proof.
  intros Hwf Hin Hrun. open_state s Hwf. simpl in Hin.
  unfold run_stack_up, _docker_run_stack in Hrun. run_cbv_in Hrun.
  rewrite (bool_decide_eq_false_2 _ Hin) in Hrun. run_cbv_in Hrun.
  unfold call in Hrun. run_cbv_in Hrun.
  destruct (fault env _ _); [discriminate |].
  run_cbv_in Hrun. rewrite _boot_log_run in Hrun. run_cbv_in Hrun.
  rewrite _boot_log_run in Hrun. run_cbv_in Hrun.
  injection Hrun as <-.
  exists tk1. split; [reflexivity |]. split; [reflexivity |]. split; [reflexivity |].
  split; [unfold trace_of; simpl; rewrite <- !app_assoc; reflexivity |].
  split; reflexivity.
Qed.

(** *** What does not read [exclude_run] *)

Definition set_excl (E : list string) : State -> State := on_self (with_exclude_run E).

(** [m] runs the same whatever [exclude_run] holds, and leaves it alone. *)
Definition indep {A : Type} (m : M A) : Prop :=
  forall E s, m (set_excl E s) = ((m s).1, set_excl E (m s).2).

Lemma indep_ret {A : Type} (a : A) : indep (ret a).
Proof. intros E s. reflexivity. Qed.

Lemma indep_raise {A : Type} (e : exn) : indep (@raise A e).
Proof. intros E s. reflexivity. Qed.

Lemma indep_lift {A : Type} (r : Result A) : indep (lift r).
Proof. intros E s. reflexivity. Qed.

Lemma indep_bind {A B : Type} (m : M A) (f : A -> M B) :
  indep m -> (forall a, indep (f a)) -> indep (bind m f).
Proof.
  intros Hm Hf E s. unfold bind. rewrite Hm.
  destruct (m s) as [[a | e] s1]; simpl; [apply Hf | reflexivity].
Qed.

(** A read of the state is allowed when what is done with it does not look
    at [exclude_run]. *)
Lemma indep_get_bind {B : Type} (f : State -> M B) :
  (forall E s s0, f (set_excl E s) s0 = f s s0) -> (forall s, indep (f s)) ->
  indep (bind get f).
Proof.
  intros Hsame Hf E s. unfold bind, get. rewrite Hsame. apply Hf.
Qed.

Lemma indep_modify (g : State -> State) :
  (forall E s, g (set_excl E s) = set_excl E (g s)) -> indep (modify g).
Proof. intros H E s. unfold modify. simpl. rewrite H. reflexivity. Qed.

Lemma indep_call (env : Env) (ev : Event) : indep (call env ev).
Proof.
  intros E s. unfold call. simpl. destruct (fault env _ _); reflexivity.
Qed.

Lemma indep_for_each {A : Type} (l : list A) (body : A -> M unit) :
  (forall x, indep (body x)) -> indep (for_each l body).
Proof.
  intros H. induction l as [| x l IH]; simpl.
  - apply indep_ret.
  - apply indep_bind; [apply H | intros _; exact IH].
Qed.

Lemma indep_try_except {A : Type} (m : M A) (h : exn -> M A) :
  indep m -> (forall e, indep (h e)) -> indep (try_except m h).
Proof.
  intros Hm Hh E s. unfold try_except. rewrite Hm.
  destruct (m s) as [[a | e] s1]; simpl; [reflexivity | apply Hh].
Qed.

Lemma indep_read_pull_lines (level : nat) (lines : list string) (layers : gset string) :
  (forall line ls, indep (pull_line level line ls)) ->
  indep (read_pull_lines level lines layers).
Proof.
  intros H. revert layers.
  induction lines as [| line rest IH]; intros layers; simpl.
  - apply indep_ret.
  - apply indep_bind; [apply H | intros ls; apply IH].
Qed.

Ltac indep_go :=
  repeat (progress autounfold with methods);
  lazymatch goal with
  | |- indep (ret _) => apply indep_ret
  | |- indep (raise _) => apply indep_raise
  | |- indep (lift _) => apply indep_lift
  | |- indep (bind get _) =>
      apply indep_get_bind; [intros ? ? ?; reflexivity | intros ?; indep_go]
  | |- indep (bind _ _) => apply indep_bind; [indep_go | intros ?; indep_go]
  | |- indep (for_each _ _) => apply indep_for_each; intros ?; indep_go
  | |- indep (try_except _ _) => apply indep_try_except; [indep_go | intros ?; indep_go]
  | |- indep (read_pull_lines _ _ _) => apply indep_read_pull_lines; intros ? ?; indep_go
  | |- indep (modify _) => apply indep_modify; intros ? ?; reflexivity
  | |- indep (emit _) => apply indep_modify; intros ? ?; reflexivity
  | |- indep (call _ _) => apply indep_call
  | |- indep (store_total _ _) => unfold store_total; indep_go
  | |- indep (store_tick _ _) => unfold store_tick; indep_go
  | |- indep (store_action _ _) => unfold store_action; indep_go
  | |- indep (store_output _ _) => unfold store_output; indep_go
  | |- indep (if ?b then _ else _) => destruct b; indep_go
  | |- indep (match ?x with _ => _ end) => destruct x; indep_go
  end.

(** The images of a stack are looked up and pulled without a look at
    [exclude_run]. *)
Lemma run_stack_images_indep (env : Env) (d : gmap string (list string)) (stack : string) :
  indep (run_stack_images env d stack).
Proof. indep_go. Qed.

(** The roll-up, written out for four levels. *)
Lemma _get_progress_closed_form (c : CodeLoader) (tk0 tk1 tk2 tk3 tot0 tot1 tot2 tot3 : Z) :
  max_level c = 4%nat ->
  tick c = [tk0; tk1; tk2; tk3] -> total c = [tot0; tot1; tot2; tot3] ->
  let p3 := percentage tk3 tot3 + 0 in
  let p2 := rollup tk2 tot2 p3 in
  let p1 := rollup tk1 tot1 p2 in
  let p0 := rollup tk0 tot0 p1 in
  _get_progress c = Ok [p0; p1; p2; p3].
Proof.
  intros Hml Htk Htot.
  destruct c as [tar targz sl sr ml tot tk act out bsy err excl del]. simpl in *.
  subst ml tk tot. unfold _get_progress, rollup.
  cbn -[percentage floor float_of_int PrimFloat.mul PrimFloat.div Z.add Z.ltb].
  unfold progress_step.
  cbn -[percentage floor float_of_int PrimFloat.mul PrimFloat.div Z.add Z.ltb].
  destruct (0 <? tot2);
    cbn -[percentage floor float_of_int PrimFloat.mul PrimFloat.div Z.add Z.ltb];
    destruct (0 <? tot1);
    cbn -[percentage floor float_of_int PrimFloat.mul PrimFloat.div Z.add Z.ltb];
    destruct (0 <? tot0);
    cbn -[percentage floor float_of_int PrimFloat.mul PrimFloat.div Z.add Z.ltb];
    reflexivity.
Qed.

(** The images of a stack leave the shape of the tree, the policy and the
    bring-ups of the trace alone. *)
Lemma run_stack_images_static (env : Env) (d : gmap string (list string)) (stack : string) :
  stable (pres static) (run_stack_images env d stack).
Proof. stable_go. Qed.

Lemma run_stack_images_no_bring_up (env : Env) (d : gmap string (list string)) (stack : string) :
  stable (pres (fun s => compose_ups (trace_of s))) (run_stack_images env d stack).
Proof. stable_go. Qed.

Lemma wf_static (s s' : State) : static s' = static s -> wf (self s) -> wf (self s').
Proof.
  unfold static, wf. intros Hst Hwf.
  injection Hst as Hml Hlt Hlk Hla Hlo _ _ _ _.
  rewrite Hml, Hlt, Hlk, Hla, Hlo. exact Hwf.
Qed.

Lemma exclude_run_static (s s' : State) :
  static s' = static s -> exclude_run (self s') = exclude_run (self s).
Proof. unfold static. intros Hst. injection Hst as _ _ _ _ _ He _ _ _. exact He. Qed.

(** C7. A stack whose lower-cased name is in [exclude_run] is never brought
    up, whatever the outcome of its images. And compared with the same stack
    run with an [exclude_run] that does not hold the name, when that run
    returns: the excluded run returns too, with the same ticks and totals at
    levels 0, 1 and 2, the same image look-ups and pulls, the same images
    in the store, and without the bring-up the other run performs. *)
Theorem excluded_stack_skips_bring_up (env : Env) (d : gmap string (list string))
    (stack : string) (s : State) :
  wf (self s) ->
  lower (stack_name_of stack) ∈ exclude_run (self s) ->
  compose_ups (trace_of (run_stack_item env d stack s).2) = compose_ups (trace_of s) /\
  forall (E : list string) (s_in' : State),
    lower (stack_name_of stack) ∉ E ->
    run_stack_item env d stack (set_excl E s) = (Ok tt, s_in') ->
    exists s',
      run_stack_item env d stack s = (Ok tt, s') /\
      (forall l, (l < 3)%nat ->
         tick_at l s' = tick_at l s_in' /\ total_at l s' = total_at l s_in') /\
      image_events (trace_of s') = image_events (trace_of s_in') /\
      docker_images (world s') = docker_images (world s_in') /\
      compose_ups (trace_of s_in')
      = compose_ups (trace_of s') ++ [(stack_name_of stack, stack)].
Proof.
  intros Hwf Hex.
  pose proof (run_stack_images_static env d stack s) as Hst.
  pose proof (run_stack_images_no_bring_up env d stack s) as Hups.
  unfold pres in Hst, Hups.
  destruct (run_stack_images env d stack s) as [r s1] eqn:Himg. simpl in Hst, Hups.
  assert (Hwf1 : wf (self s1)) by (eapply wf_static; eassumption).
  assert (Hex1 : lower (stack_name_of stack) ∈ exclude_run (self s1)).
  { rewrite (exclude_run_static _ _ Hst). exact Hex. }
  destruct (run_stack_up_excluded env stack s1 Hwf1 Hex1)
    as (s' & t1 & Hup & Ht1 & Htick & Htotal & _ & _ & Htrace & Himgs & _).
  split.
  - unfold run_stack_item, bind. rewrite Himg.
    destruct r as [[] | e]; simpl; [| exact Hups].
    rewrite Hup. simpl. rewrite Htrace. unfold compose_ups in *.
    rewrite omap_app. simpl. rewrite app_nil_r. exact Hups.
  - intros E s_in' HE Hrun.
    unfold run_stack_item in Hrun. apply bind_ok in Hrun as ([] & s_in1 & Himg_in & Hup_in).
    rewrite (run_stack_images_indep env d stack E s), Himg in Himg_in. simpl in Himg_in.
    injection Himg_in as -> <-.
    assert (Hwf_in : wf (self (set_excl E s1))) by exact Hwf1.
    destruct (run_stack_up_included env stack (set_excl E s1) s_in' Hwf_in HE Hup_in)
      as (t1' & Ht1' & Htick_in & Htotal_in & Htrace_in & Himgs_in & _).
    assert (t1' = t1) as -> by (unfold tick_at in *; simpl in Ht1'; congruence).
    exists s'. split.
    { unfold run_stack_item, bind. rewrite Himg. exact Hup. }
    split.
    { intros l Hl. unfold tick_at, total_at.
      rewrite Htick, Htotal, Htick_in, Htotal_in. simpl.
      rewrite !(list_lookup_insert_ne _ 3 l) by lia. split; reflexivity. }
    split.
    { rewrite Htrace, Htrace_in. unfold image_events, trace_of. simpl.
      rewrite !omap_app. simpl. reflexivity. }
    split.
    { rewrite Himgs, Himgs_in. reflexivity. }
    rewrite Htrace, Htrace_in. unfold compose_ups, trace_of. simpl.
    rewrite !omap_app. simpl. rewrite app_nil_r. reflexivity.
Qed.

(** A device whose [EXCLUDE_RUN] names the stack [core], in capitals. *)
Definition excluding_boot : State :=
  boot {["EXCLUDE_RUN" := "Core,portainer"]} [core_yaml] ["duckietown/dt-ui:latest"].

Definition core_images : gmap string (list string) :=
  {[core_yaml := ["duckietown/dt-core:latest"; "duckietown/dt-ui:latest"]]}.

Lemma excluded_stack_skips_bring_up_witness :
  exists s',
    run_stack_item demo_env core_images core_yaml excluding_boot = (Ok tt, s') /\
    compose_ups (trace_of s') = [] /\
    image_events (trace_of s')
    = [EvDockerImages; EvDockerPull "duckietown/dt-core:latest"; EvDockerImages] /\
    tick_at 0 s' = Some 2 /\ tick_at 1 s' = Some 1 /\ tick_at 2 s' = Some 2.
Proof.
  destruct (excluded_stack_skips_bring_up demo_env core_images core_yaml excluding_boot)
    as [Hnone Hsame].
  { repeat split. }
  { apply (bool_decide_unpack _). vm_compute. exact I. }
  edestruct (Hsame []) as (s' & Hrun & Hlevels & Himages & _ & _).
  { apply not_elem_of_nil. }
  { vm_compute. reflexivity. }
  exists s'. split; [exact Hrun |].
  split; [rewrite Hrun in Hnone; exact Hnone |].
  split; [rewrite Himages; reflexivity |].
  destruct (Hlevels 0%nat ltac:(lia)) as [-> _].
  destruct (Hlevels 1%nat ltac:(lia)) as [-> _].
  destruct (Hlevels 2%nat ltac:(lia)) as [-> _].
  repeat split.
Defined.

(** C9 as it is stated, for one stack on one device: once the stack is
    done, the counter of level 2 has reached its total. *)
Definition stack_counter_reaches_total (env : Env) (d : gmap string (list string))
    (stack : string) (s : State) : Prop :=
  wf (self s) -> d !! stack = Some [] ->
  lower (stack_name_of stack) ∉ exclude_run (self s) ->
  forall s', run_stack_item env d stack s = (Ok tt, s') -> tick_at 2 s' = total_at 2 s'.

(** A stack without images that is brought up: the counter of level 2 stays
    at 0 of 1. *)
Lemma stack_counter_stays_short :
  ~ stack_counter_reaches_total demo_env {[empty_yaml := []]} empty_yaml
      (boot ∅ [empty_yaml] []).
Proof.
  intros H.
  assert (Hrun : exists s', run_stack_item demo_env {[empty_yaml := []]} empty_yaml
                   (boot ∅ [empty_yaml] []) = (Ok tt, s')
                 /\ tick_at 2 s' = Some 0 /\ total_at 2 s' = Some 1).
  { eexists. split; [vm_compute; reflexivity |]. split; reflexivity. }
  destruct Hrun as (s' & Hrun & Htick & Htotal).
  specialize (H ltac:(repeat split) ltac:(reflexivity) ltac:(apply not_elem_of_nil) s' Hrun).
  rewrite Htick, Htotal in H. discriminate.
Qed.

Lemma run_stack_up_static (env : Env) (stack : string) :
  stable (pres static) (run_stack_up env stack).
Proof. stable_go. Qed.

(** C9, amended. A stack to run that declares no image and is not excluded,
    once done: the bring-up has ticked level 3 to 1 of 1, the counter of
    level 2 is at 0 of 1, level 1 has one more tick and level 0 none, and the
    roll-up credits the bring-up to level 2, whose percentage is 100. *)
Theorem empty_stack_ticks_level_3 (env : Env) (d : gmap string (list string))
    (stack : string) (s s' : State) :
  wf (self s) -> d !! stack = Some [] ->
  lower (stack_name_of stack) ∉ exclude_run (self s) ->
  run_stack_item env d stack s = (Ok tt, s') ->
  tick_at 3 s' = Some 1 /\ total_at 3 s' = Some 1 /\
  tick_at 2 s' = Some 0 /\ total_at 2 s' = Some 1 /\
  (exists t1, tick_at 1 s = Some t1 /\ tick_at 1 s' = Some (t1 + 1)) /\
  tick_at 0 s' = tick_at 0 s /\
  exists p0 p1, _get_progress (self s') = Ok [p0; p1; 100; 100].
Proof.
  intros Hwf Hd Hin Hrun.
  unfold run_stack_item in Hrun. apply bind_ok in Hrun as ([] & s1 & Himg & Hup).
  pose proof (stable_run static _ _ _ _ (run_stack_images_static env d stack) Himg) as Hst.
  pose proof (stable_run static _ _ _ _ (run_stack_up_static env stack) Hup) as Hst'.
  assert (Hwf1 : wf (self s1)) by (eapply wf_static; eassumption).
  assert (Hwf' : wf (self s')) by (eapply wf_static; eassumption).
  assert (Hin1 : lower (stack_name_of stack) ∉ exclude_run (self s1)).
  { rewrite (exclude_run_static _ _ Hst). exact Hin. }
  destruct (run_stack_up_included env stack s1 s' Hwf1 Hin1 Hup)
    as (t1 & Ht1 & Htick & Htotal & _).
  clear Hup Hst Hst' Hin1 Hwf1 Hin.
  open_state s Hwf.
  unfold run_stack_images, lookup_stack in Himg. rewrite Hd in Himg.
  run_cbv_in Himg. injection Himg as <-.
  unfold tick_at in Ht1. simpl in Ht1. injection Ht1 as <-.
  simpl in Htick, Htotal.
  unfold tick_at, total_at. rewrite Htick, Htotal.
  repeat (split; [reflexivity |]).
  split; [exists tk1; split; reflexivity |].
  split; [reflexivity |].
  destruct Hwf' as (Hml' & _).
  rewrite (_get_progress_closed_form (self s') _ _ _ _ _ _ _ _ Hml' Htick Htotal).
  cbv zeta.
  replace (percentage 1 1 + 0) with 100 by (vm_compute; reflexivity).
  replace (rollup 0 (1 + Z.of_nat 0) 100) with 100 by (vm_compute; reflexivity).
  eexists. eexists. reflexivity.
Qed.

Lemma empty_stack_ticks_level_3_witness :
  exists s' p0 p1,
    run_stack_item demo_env {[empty_yaml := []]} empty_yaml (boot ∅ [empty_yaml] [])
    = (Ok tt, s') /\
    tick (self s') = [0; 1; 0; 1] /\ total (self s') = [1; 1; 1; 1] /\
    _get_progress (self s') = Ok [p0; p1; 100; 100].
Proof.
  assert (Hrun : exists s', run_stack_item demo_env {[empty_yaml := []]} empty_yaml
                   (boot ∅ [empty_yaml] []) = (Ok tt, s')
                 /\ tick (self s') = [0; 1; 0; 1] /\ total (self s') = [1; 1; 1; 1]).
  { eexists. split; [vm_compute; reflexivity |]. split; reflexivity. }
  destruct Hrun as (s' & Hrun & Htick & Htotal).
  destruct (empty_stack_ticks_level_3 demo_env {[empty_yaml := []]} empty_yaml
              (boot ∅ [empty_yaml] []) s')
    as (_ & _ & _ & _ & _ & _ & p0 & p1 & Hp);
    [repeat split | reflexivity | apply not_elem_of_nil | exact Hrun |].
  exists s', p0, p1. repeat split; assumption.
Defined.

(** ** A whole cycle *)

(** The pulls a list of manifests asks for, one per unique image. *)
Definition images_in (env : Env) (stacks : list string) : Z :=
  Z.of_nat (sum_list ((fun x => length (stack_images env x)) <$> stacks)).

(** The units of work of a cycle: the archives of both kinds and the unique
    images of the manifests of both kinds. *)
Definition planned_work (env : Env) (c : CodeLoader) : Z :=
  Z.of_nat (length (images_to_load_tar c)) + Z.of_nat (length (images_to_load_tar_gz c))
  + images_in env (stacks_to_load_yaml c) + images_in env (stacks_to_run_yaml c).

(** The sum of [g] over a list. *)
Definition sum_over {A : Type} (g : A -> Z) (l : list A) : Z :=
  foldr (fun x acc => g x + acc) 0 l.

Lemma sum_over_ones {A : Type} (l : list A) : sum_over (fun _ => 1) l = Z.of_nat (length l).
Proof. induction l as [| x l IH]; simpl; [reflexivity | rewrite IH; lia]. Qed.

Lemma sum_over_lengths {A B : Type} (f : A -> list B) (l : list A) :
  sum_over (fun x => Z.of_nat (length (f x))) l
  = Z.of_nat (sum_list ((fun x => length (f x)) <$> l)).
Proof.
  induction l as [| x l IH]; [reflexivity |].
  rewrite fmap_cons. change (sum_over (fun x => Z.of_nat (length (f x))) (x :: l))
    with (Z.of_nat (length (f x)) + sum_over (fun x => Z.of_nat (length (f x))) l).
  rewrite IH. change (sum_list (length (f x) :: ((fun x => length (f x)) <$> l)))
    with (length (f x) + sum_list ((fun x => length (f x)) <$> l))%nat.
  lia.
Qed.

Lemma sum_over_ext {A : Type} (g h : A -> Z) (l : list A) :
  (forall x, x ∈ l -> g x = h x) -> sum_over g l = sum_over h l.
Proof.
  induction l as [| x l IH]; intros H; simpl; [reflexivity |].
  rewrite (H x) by left. rewrite IH; [reflexivity |].
  intros y Hy. apply H. right. exact Hy.
Qed.

(** [m] leaves [f] alone, then [k] runs. *)
Lemma triple_seq_stable {A B X : Type} (f : State -> X) (v : X) (m : M A) (k : A -> M B)
    (Q : B -> State -> Prop) :
  stable (pres f) m ->
  (forall a, triple (fun s => f s = v) (k a) Q) ->
  triple (fun s => f s = v) (bind m k) Q.
Proof.
  intros Hm Hk. eapply triple_bind; [| exact Hk].
  apply (triple_stable f (fun x => x = v)). exact Hm.
Qed.

Lemma triple_end_stable {A X : Type} (f : State -> X) (v : X) (m : M A) :
  stable (pres f) m -> triple (fun s => f s = v) m (fun _ s => f s = v).
Proof. intros Hm. apply (triple_stable f (fun x => x = v)). exact Hm. Qed.

(** [_tick l] adds one at level [l]. *)
Lemma _tick_adds_one (l : nat) (j : Z) :
  triple (fun s => tick_at l s = Some j) (_tick l) (fun _ s => tick_at l s = Some (j + 1)).
Proof.
  intros s a s' Hj Hrun.
  unfold _tick, _set_tick, store_tick, bind, get, lift, getitem, setitem, modify in Hrun.
  unfold tick_at in *. rewrite Hj in Hrun.
  destruct (l <? length (tick (self s)))%nat eqn:Hlen; [| discriminate].
  injection Hrun as _ <-. simpl.
  apply list_lookup_insert_eq. apply Nat.ltb_lt. exact Hlen.
Qed.

Lemma triple_ret_bind {A B : Type} (P : State -> Prop) (Q : B -> State -> Prop)
    (a : A) (k : A -> M B) :
  triple P (k a) Q -> triple P (bind (ret a) k) Q.
Proof. intros H s b s' HP Hrun. exact (H s b s' HP Hrun). Qed.

(** Frames the steps that leave [f] alone, up to the first that does not. *)
Ltac frame_steps :=
  repeat lazymatch goal with
         | |- triple _ (bind (ret _) _) _ => apply triple_ret_bind
         | |- triple _ (bind _ _) _ =>
             apply triple_seq_stable; [solve [stable_go] | intros ?]
         end.

(** A loop whose body adds [g x] to the tick of level [l] adds the sum. *)
Lemma for_each_adds {A : Type} (l : nat) (g : A -> Z) (body : A -> M unit) (items : list A) :
  (forall x j, triple (fun s => tick_at l s = Some j) (body x)
                      (fun _ s => tick_at l s = Some (j + g x))) ->
  forall k, triple (fun s => tick_at l s = Some k) (for_each items body)
                   (fun _ s => tick_at l s = Some (k + sum_over g items)).
Proof.
  intros Hbody. induction items as [| x items IH]; intros k; simpl.
  - apply triple_ret. intros s Hs. rewrite Z.add_0_r. exact Hs.
  - apply (triple_bind _ (fun _ s => tick_at l s = Some (k + g x))); [apply Hbody |].
    intros u s a s' Hs Hrun.
    rewrite (IH (k + g x) s a s' Hs Hrun). f_equal. lia.
Qed.

(** An archive is one unit of work at the root. *)
Lemma load_archive_item_root_tick (env : Env) (archive : string) (j : Z) :
  triple (fun s => tick_at 0 s = Some j) (load_archive_item env archive)
         (fun _ s => tick_at 0 s = Some (j + 1)).
Proof.
  unfold load_archive_item. frame_steps.
  eapply triple_bind; [apply _tick_adds_one |]. intros ?.
  apply triple_end_stable. stable_go.
Qed.

Lemma run_stack_image_root_tick (env : Env) (image : string) (j : Z) :
  triple (fun s => tick_at 0 s = Some j) (run_stack_image env image)
         (fun _ s => tick_at 0 s = Some (j + 1)).
Proof.
  unfold run_stack_image. frame_steps.
  apply _tick_adds_one.
Qed.

Lemma load_stack_image_root_tick (env : Env) (image : string) (j : Z) :
  triple (fun s => tick_at 0 s = Some j) (load_stack_image env image)
         (fun _ s => tick_at 0 s = Some (j + 1)).
Proof.
  unfold load_stack_image. frame_steps.
  eapply triple_bind; [apply _tick_adds_one |]. intros ?.
  apply triple_end_stable. stable_go.
Qed.

(** The images a dictionary holds for a stack. *)
Definition images_of (d : gmap string (list string)) (stack : string) : list string :=
  default [] (d !! stack).

(** A stack is one unit of work at the root per image, of either kind. *)
Lemma run_stack_item_root_tick (env : Env) (d : gmap string (list string)) (stack : string)
    (j : Z) :
  triple (fun s => tick_at 0 s = Some j) (run_stack_item env d stack)
         (fun _ s => tick_at 0 s = Some (j + Z.of_nat (length (images_of d stack)))).
Proof.
  unfold run_stack_item, run_stack_images, lookup_stack, images_of.
  destruct (d !! stack) as [images |] eqn:Hd; simpl.
  - apply (triple_bind _ (fun _ s => tick_at 0 s = Some (j + Z.of_nat (length images)))).
    + frame_steps.
      rewrite <- sum_over_ones.
      apply (for_each_adds 0 (fun _ => 1)). intros x k. apply run_stack_image_root_tick.
    + intros u. apply triple_end_stable. stable_go.
  - intros s a s' _ Hrun. discriminate.
Qed.

Lemma load_stack_item_root_tick (env : Env) (d : gmap string (list string)) (stack : string)
    (j : Z) :
  triple (fun s => tick_at 0 s = Some j) (load_stack_item env d stack)
         (fun _ s => tick_at 0 s = Some (j + Z.of_nat (length (images_of d stack)))).
Proof.
  unfold load_stack_item, lookup_stack, images_of.
  destruct (d !! stack) as [images |] eqn:Hd; simpl.
  - frame_steps.
    apply (triple_bind _ (fun _ s => tick_at 0 s = Some (j + Z.of_nat (length images)))).
    + rewrite <- sum_over_ones.
      apply (for_each_adds 0 (fun _ => 1)). intros x k. apply load_stack_image_root_tick.
    + intros u. apply triple_end_stable. stable_go.
  - intros s a s' _ Hrun. discriminate.
Qed.

(** Reading the manifests changes nothing and fills the dictionary with the
    unique images of each. *)
Lemma read_stacks_spec (env : Env) (stacks : list string) :
  forall (d0 d : gmap string (list string)) (s s' : State),
  read_stacks env stacks d0 s = (Ok d, s') ->
  s' = s /\
  forall x, d !! x = if bool_decide (x ∈ stacks) then Some (stack_images env x) else d0 !! x.
Proof.
  induction stacks as [| stack rest IH]; intros d0 d s s' Hrun; simpl in Hrun.
  - injection Hrun as <- <-. split; [reflexivity |]. intros x.
    rewrite bool_decide_eq_false_2 by apply not_elem_of_nil. reflexivity.
  - apply bind_ok in Hrun as (images & s1 & Himg & Hrest).
    assert (Hone : s1 = s /\ images = stack_images env stack).
    { unfold _images_in_stack, bind, get, lift, ret, raise, stack_images in *.
      destruct (bool_decide (stack ∈ files (world s))); [| discriminate].
      destruct (yaml_services env stack); [| discriminate].
      injection Himg as <- <-. split; reflexivity. }
    destruct Hone as [-> ->].
    destruct (IH _ _ _ _ Hrest) as [-> Hd]. split; [reflexivity |].
    intros x. rewrite Hd.
    destruct (decide (x ∈ rest)) as [Hin | Hout].
    + rewrite !bool_decide_eq_true_2; [reflexivity | right; exact Hin | exact Hin].
    + rewrite (bool_decide_eq_false_2 _ Hout).
      destruct (decide (x = stack)) as [-> | Hne].
      * rewrite lookup_insert_eq, bool_decide_eq_true_2 by left. reflexivity.
      * rewrite lookup_insert_ne by congruence.
        rewrite bool_decide_eq_false_2; [reflexivity |].
        rewrite elem_of_cons. tauto.
Qed.

(** Over distinct manifests the dictionary counts every manifest once. *)
Lemma count_images_spec (env : Env) (stacks : list string) (d : gmap string (list string)) :
  NoDup stacks ->
  (forall x, d !! x = if bool_decide (x ∈ stacks) then Some (stack_images env x) else None) ->
  count_images d = images_in env stacks.
Proof.
  intros Hnd Hd.
  set (pairs := (fun x => (x, stack_images env x)) <$> stacks).
  assert (Hkeys : pairs.*1 = stacks).
  { unfold pairs. rewrite <- list_fmap_compose. apply list_fmap_id. }
  assert (Hvals : length <$> pairs.*2 = (fun x => length (stack_images env x)) <$> stacks).
  { unfold pairs. rewrite <- !list_fmap_compose. reflexivity. }
  assert (Hmap : d = list_to_map pairs).
  { apply map_eq. intros x. rewrite Hd.
    destruct (decide (x ∈ stacks)) as [Hin | Hout].
    - rewrite (bool_decide_eq_true_2 _ Hin). symmetry.
      apply elem_of_list_to_map_1; [rewrite Hkeys; exact Hnd |].
      unfold pairs. apply list_elem_of_fmap. exists x. split; [reflexivity | exact Hin].
    - rewrite (bool_decide_eq_false_2 _ Hout). symmetry.
      apply not_elem_of_list_to_map_1. rewrite Hkeys. exact Hout. }
  unfold count_images, images_in. f_equal. rewrite <- Hvals, Hmap.
  apply sum_list_with_Permutation_proper.
  apply fmap_Permutation, fmap_Permutation, map_to_list_to_map.
  rewrite Hkeys. exact Hnd.
Qed.

(** A phase is its prelude, then the loop over the items the scan found. *)
Lemma phase_run (items : CodeLoader -> list string) (status : string)
    (body : string -> M unit) (s s' : State) :
  (forall s1 s2, config s1 = config s2 -> items (self s1) = items (self s2)) ->
  phase items status body s = (Ok tt, s') ->
  exists s2,
    (_set_total 1 (Z.of_nat (length (items (self s)))) ;; _set_status 1 status 0) s
    = (Ok tt, s2) /\
    for_each (items (self s)) body s2 = (Ok tt, s').
Proof.
  intros Hitems Hrun. unfold phase in Hrun.
  unfold bind at 1, get in Hrun.
  apply bind_ok in Hrun as ([] & s1 & Htotal & Hrun).
  apply bind_ok in Hrun as ([] & s2 & Hstatus & Hrun).
  unfold bind at 1, get in Hrun.
  assert (Hcfg : config s2 = config s).
  { assert (H1 : stable (pres config) (_set_total 1 (Z.of_nat (length (items (self s))))))
      by stable_go.
    assert (H2 : stable (pres config) (_set_status 1 status 0)) by stable_go.
    rewrite (stable_run config _ _ _ _ H2 Hstatus).
    exact (stable_run config _ _ _ _ H1 Htotal). }
  rewrite (Hitems s2 s Hcfg) in Hrun.
  exists s2. split; [| exact Hrun].
  rewrite (bind_run _ _ _ _ _ Htotal). exact Hstatus.
Qed.

Lemma phase_prelude_root_tick (n : Z) (status : string) :
  stable (pres (tick_at 0)) (_set_total 1 n ;; _set_status 1 status 0).
Proof. stable_go. Qed.

(** A phase adds to the root tick what its items add. *)
Lemma phase_root_tick (items : CodeLoader -> list string) (status : string)
    (body : string -> M unit) (g : string -> Z) (s s' : State) (k : Z) :
  (forall s1 s2, config s1 = config s2 -> items (self s1) = items (self s2)) ->
  (forall x j, triple (fun s => tick_at 0 s = Some j) (body x)
                      (fun _ s => tick_at 0 s = Some (j + g x))) ->
  tick_at 0 s = Some k ->
  phase items status body s = (Ok tt, s') ->
  tick_at 0 s' = Some (k + sum_over g (items (self s))).
Proof.
  intros Hitems Hbody Hk Hrun.
  destruct (phase_run items status body s s' Hitems Hrun) as (s2 & Hpre & Hloop).
  eapply (for_each_adds 0 g body _ Hbody k); [| exact Hloop].
  rewrite (stable_run (tick_at 0) _ _ _ _ (phase_prelude_root_tick _ status) Hpre).
  exact Hk.
Qed.

Ltac config_proj :=
  let H := fresh "H" in
  intros ? ? H; unfold config in H; congruence.

(** A write of a total stores it and records it, and nothing else. *)
Lemma _set_total_run (l : nat) (v : Z) (s s' : State) :
  _set_total l v s = (Ok tt, s') ->
  total_at l s' = Some v /\
  trace_of s' = trace_of s ++ [EvSetTotal l v] /\
  tick (self s') = tick (self s) /\
  static s' = static s /\ config s' = config s /\ busy (self s') = busy (self s).
Proof.
  unfold _set_total, store_total, emit, bind, get, lift, setitem, modify.
  destruct (l <? length (total (self s)))%nat eqn:Hlen; [| discriminate].
  intros Hrun. injection Hrun as <-. simpl.
  apply Nat.ltb_lt in Hlen.
  split; [apply list_lookup_insert_eq; exact Hlen |].
  split; [reflexivity |]. split; [reflexivity |].
  split; [unfold static; simpl; rewrite length_insert; reflexivity |].
  split; reflexivity.
Qed.

Lemma store_tick_sets (l : nat) (v : Z) :
  triple (fun _ => True) (store_tick l v) (fun _ s => tick_at l s = Some v).
Proof.
  intros s a s' _. unfold store_tick, bind, get, lift, setitem, modify.
  destruct (l <? length (tick (self s)))%nat eqn:Hlen; [| discriminate].
  intros Hrun. injection Hrun as _ <-. unfold tick_at. simpl.
  apply list_lookup_insert_eq. apply Nat.ltb_lt. exact Hlen.
Qed.

Lemma _set_action_keeps_own_tick (l : nat) (a : string) :
  stable (pres (tick_at l)) (_set_action l a).
Proof. stable_go. Qed.

(** A status write at a level leaves the tick of the level at 0. *)
Lemma _set_status_resets_tick (l : nat) (a : string) (s s' : State) :
  _set_status l a 0 s = (Ok tt, s') -> tick_at l s' = Some 0.
Proof.
  intros Hrun. unfold _set_status, _set_tick in Hrun.
  apply bind_ok in Hrun as ([] & s1 & Htick & Hrun).
  apply bind_ok in Hrun as ([] & s2 & Haction & Hout).
  assert (Hlast : stable (pres (tick_at l)) (store_output l None)) by stable_go.
  rewrite (stable_run (tick_at l) _ _ _ _ Hlast Hout).
  rewrite (stable_run (tick_at l) _ _ _ _ (_set_action_keeps_own_tick l a) Haction).
  exact (store_tick_sets l 0 s tt s1 I Htick).
Qed.

(** A phase without items leaves level 1 at 0 of 0. *)
Lemma phase_empty (items : CodeLoader -> list string) (status : string)
    (body : string -> M unit) (s s' : State) :
  (forall s1 s2, config s1 = config s2 -> items (self s1) = items (self s2)) ->
  items (self s) = [] ->
  phase items status body s = (Ok tt, s') ->
  tick_at 1 s' = Some 0 /\ total_at 1 s' = Some 0.
Proof.
  intros Hitems Hnone Hrun.
  destruct (phase_run items status body s s' Hitems Hrun) as (s2 & Hpre & Hloop).
  rewrite Hnone in Hpre, Hloop. simpl in Hloop. injection Hloop as <-.
  apply bind_ok in Hpre as ([] & s1 & Htotal & Hstatus).
  split; [exact (_set_status_resets_tick _ _ _ _ Hstatus) |].
  assert (Hkeep : stable (pres (total_at 1)) (_set_status 1 status 0)) by stable_go.
  rewrite (stable_run (total_at 1) _ _ _ _ Hkeep Hstatus).
  apply (_set_total_run _ _ _ _ Htotal).
Qed.

(** The phases leave the root total alone, never write it again, and add
    one root tick per archive and per image. *)
Lemma run_phases_root_total (env : Env) (d_load d_run : gmap string (list string)) :
  stable (pres (total_at 0)) (run_phases env d_load d_run).
Proof. stable_go. Qed.

Lemma run_phases_root_writes (env : Env) (d_load d_run : gmap string (list string)) :
  stable (pres (fun s => totals_written 0 (trace_of s))) (run_phases env d_load d_run).
Proof. stable_go. Qed.

Lemma run_phases_grows (env : Env) (d_load d_run : gmap string (list string)) :
  stable grows (run_phases env d_load d_run).
Proof. stable_go. Qed.

Lemma run_phases_static (env : Env) (d_load d_run : gmap string (list string)) :
  stable (pres static) (run_phases env d_load d_run).
Proof. stable_go. Qed.

(** The four phases of a cycle that returns, each on the work list the
    scan left. *)
Lemma run_phases_run (env : Env) (d_load d_run : gmap string (list string)) (s s' : State) :
  run_phases env d_load d_run s = (Ok tt, s') ->
  exists s1 s2 s3 s4,
    phase images_to_load_tar "Loading uncrompressed images (.tar)"
      (load_archive_item env) s = (Ok tt, s1) /\
    phase images_to_load_tar_gz "Loading crompressed images (.tar.gz)"
      (load_archive_item env) s1 = (Ok tt, s2) /\
    phase stacks_to_run_yaml "Loading stacks we run at boot"
      (run_stack_item env d_run) s2 = (Ok tt, s3) /\
    phase stacks_to_load_yaml "Loading other stacks"
      (load_stack_item env d_load) s3 = (Ok tt, s4) /\
    config s1 = config s /\ config s2 = config s /\ config s3 = config s /\
    s' = on_world (log (EvBootLog "done" "All stacks up")) s4.
Proof.
  intros Hrun. unfold run_phases in Hrun.
  apply bind_ok in Hrun as ([] & s1 & H1 & Hrun).
  apply bind_ok in Hrun as ([] & s2 & H2 & Hrun).
  apply bind_ok in Hrun as ([] & s3 & H3 & Hrun).
  apply bind_ok in Hrun as ([] & s4 & H4 & Hlog).
  rewrite _boot_log_run in Hlog. injection Hlog as <-.
  assert (C1 : config s1 = config s).
  { eapply (stable_run config); [| exact H1]. stable_go. }
  assert (C2 : config s2 = config s).
  { rewrite <- C1. eapply (stable_run config); [| exact H2]. stable_go. }
  assert (C3 : config s3 = config s).
  { rewrite <- C2. eapply (stable_run config); [| exact H3]. stable_go. }
  exists s1, s2, s3, s4. auto 10.
Qed.

Lemma run_phases_root_tick (env : Env) (d_load d_run : gmap string (list string))
    (s s' : State) (k : Z) :
  tick_at 0 s = Some k ->
  run_phases env d_load d_run s = (Ok tt, s') ->
  tick_at 0 s'
  = Some (k + Z.of_nat (length (images_to_load_tar (self s)))
            + Z.of_nat (length (images_to_load_tar_gz (self s)))
            + sum_over (fun x => Z.of_nat (length (images_of d_run x)))
                (stacks_to_run_yaml (self s))
            + sum_over (fun x => Z.of_nat (length (images_of d_load x)))
                (stacks_to_load_yaml (self s))).
Proof.
  intros Hk Hrun.
  destruct (run_phases_run env d_load d_run s s' Hrun)
    as (s1 & s2 & s3 & s4 & H1 & H2 & H3 & H4 & C1 & C2 & C3 & ->).
  pose proof (phase_root_tick images_to_load_tar _ _ (fun _ => 1) _ _ k
                ltac:(config_proj) (load_archive_item_root_tick env) Hk H1) as T1.
  pose proof (phase_root_tick images_to_load_tar_gz _ _ (fun _ => 1) _ _ _
                ltac:(config_proj) (load_archive_item_root_tick env) T1 H2) as T2.
  pose proof (phase_root_tick stacks_to_run_yaml _ _ _ _ _ _
                ltac:(config_proj) (run_stack_item_root_tick env d_run) T2 H3) as T3.
  pose proof (phase_root_tick stacks_to_load_yaml _ _ _ _ _ _
                ltac:(config_proj) (load_stack_item_root_tick env d_load) T3 H4) as T4.
  change (tick_at 0 (on_world (log (EvBootLog "done" "All stacks up")) s4))
    with (tick_at 0 s4).
  rewrite T4, !sum_over_ones.
  unfold config in C1, C2, C3.
  replace (images_to_load_tar_gz (self s1)) with (images_to_load_tar_gz (self s)) by congruence.
  replace (stacks_to_run_yaml (self s2)) with (stacks_to_run_yaml (self s)) by congruence.
  replace (stacks_to_load_yaml (self s3)) with (stacks_to_load_yaml (self s)) by congruence.
  reflexivity.
Qed.

(** Without a stack to load, the last phase leaves level 1 at 0 of 0. *)
Lemma run_phases_level_1 (env : Env) (d_load d_run : gmap string (list string))
    (s s' : State) :
  stacks_to_load_yaml (self s) = [] ->
  run_phases env d_load d_run s = (Ok tt, s') ->
  tick_at 1 s' = Some 0 /\ total_at 1 s' = Some 0.
Proof.
  intros Hnone Hrun.
  destruct (run_phases_run env d_load d_run s s' Hrun)
    as (s1 & s2 & s3 & s4 & _ & _ & _ & H4 & _ & _ & C3 & ->).
  change (tick_at 1 (on_world (log (EvBootLog "done" "All stacks up")) s4))
    with (tick_at 1 s4).
  change (total_at 1 (on_world (log (EvBootLog "done" "All stacks up")) s4))
    with (total_at 1 s4).
  refine (phase_empty stacks_to_load_yaml _ _ s3 s4 ltac:(config_proj) _ H4).
  unfold config in C3. congruence.
Qed.

(** A cycle that returns: where the root total comes from, and where the
    root tick ends. *)
Lemma _run_root_counters (env : Env) (s s' : State) :
  NoDup (stacks_to_load_yaml (self s)) -> NoDup (stacks_to_run_yaml (self s)) ->
  _run env s = (Ok tt, s') ->
  total_at 0 s' = Some (planned_work env (self s)) /\
  tick_at 0 s' = Some (planned_work env (self s)) /\
  (exists rest,
     trace_of s' = trace_of s ++ EvSetTotal 0 (planned_work env (self s)) :: rest /\
     totals_written 0 rest = []) /\
  busy (self s') = false /\
  static s' = static s /\
  (stacks_to_load_yaml (self s) = [] -> tick_at 1 s' = Some 0 /\ total_at 1 s' = Some 0).
Proof.
  intros Hnd_load Hnd_run Hrun. unfold _run in Hrun.
  unfold bind at 1, modify in Hrun. unfold bind at 1, get in Hrun.
  apply bind_ok in Hrun as (d_load & s0 & Hload & Hrun).
  apply read_stacks_spec in Hload as [-> Hd_load].
  apply bind_ok in Hrun as (d_run & s0 & Hrunning & Hrun).
  apply read_stacks_spec in Hrunning as [-> Hd_run].
  apply bind_ok in Hrun as ([] & s1 & Htotal & Hrun).
  apply bind_ok in Hrun as ([] & s2 & Hstatus & Hrun).
  apply bind_ok in Hrun as ([] & s3 & Hphases & Hdone).
  unfold modify in Hdone. injection Hdone as <-.
  rewrite (count_images_spec env _ d_load Hnd_load) in Htotal
    by (intros x; rewrite Hd_load, lookup_empty; reflexivity).
  rewrite (count_images_spec env _ d_run Hnd_run) in Htotal
    by (intros x; rewrite Hd_run, lookup_empty; reflexivity).
  simpl in Htotal. fold (planned_work env (self s)) in Htotal.
  destruct (_set_total_run _ _ _ _ Htotal) as (Ht1 & Htr1 & _ & Hst1 & Hcfg1 & _).
  assert (Hstatus_total : stable (pres (total_at 0)) (_set_status 0 "Loading Docker images" 0))
    by stable_go.
  assert (Hstatus_trace : stable (pres trace_of) (_set_status 0 "Loading Docker images" 0))
    by stable_go.
  assert (Hstatus_static : stable (pres static) (_set_status 0 "Loading Docker images" 0))
    by stable_go.
  assert (Hstatus_config : stable (pres config) (_set_status 0 "Loading Docker images" 0))
    by stable_go.
  pose proof (stable_run _ _ _ _ _ Hstatus_total Hstatus) as Ht2.
  pose proof (stable_run _ _ _ _ _ Hstatus_trace Hstatus) as Htr2.
  pose proof (stable_run _ _ _ _ _ Hstatus_static Hstatus) as Hst2.
  pose proof (stable_run _ _ _ _ _ Hstatus_config Hstatus) as Hcfg2.
  pose proof (_set_status_resets_tick _ _ _ _ Hstatus) as Hk2.
  pose proof (stable_run _ _ _ _ _ (run_phases_root_total env d_load d_run) Hphases) as Ht3.
  pose proof (stable_run _ _ _ _ _ (run_phases_root_writes env d_load d_run) Hphases) as Hw3.
  pose proof (stable_run _ _ _ _ _ (run_phases_static env d_load d_run) Hphases) as Hst3.
  pose proof (run_phases_grows env d_load d_run s2) as Hgrow.
  rewrite Hphases in Hgrow. destruct Hgrow as [rest Hrest]. simpl in Hrest.
  pose proof (run_phases_root_tick env d_load d_run s2 s3 0 Hk2 Hphases) as Hk3.
  assert (Hcfg : config s2 = config s).
  { rewrite Hcfg2, Hcfg1. reflexivity. }
  assert (Hwork : tick_at 0 s3 = Some (planned_work env (self s))).
  { rewrite Hk3. f_equal. unfold planned_work, images_in.
    unfold config in Hcfg. injection Hcfg as -> -> -> ->.
    rewrite <- !sum_over_lengths.
    rewrite (sum_over_ext (fun x => Z.of_nat (length (images_of d_run x)))
               (fun x => Z.of_nat (length (stack_images env x)))).
    2: { intros x Hx. unfold images_of. rewrite Hd_run, (bool_decide_eq_true_2 _ Hx).
         reflexivity. }
    rewrite (sum_over_ext (fun x => Z.of_nat (length (images_of d_load x)))
               (fun x => Z.of_nat (length (stack_images env x)))).
    2: { intros x Hx. unfold images_of. rewrite Hd_load, (bool_decide_eq_true_2 _ Hx).
         reflexivity. }
    lia. }
  split; [rewrite <- Ht1, <- Ht2, <- Ht3; reflexivity |].
  split; [exact Hwork |].
  split.
  { exists rest. unfold trace_of in *. simpl in Htr1. split.
    - change (trace (world (on_self (with_busy false) s3))) with (trace (world s3)).
      rewrite Hrest, Htr2, Htr1, <- app_assoc. reflexivity.
    - unfold totals_written in *. rewrite Hrest, omap_app in Hw3.
      rewrite <- (app_nil_r (omap _ (trace (world s2)))) in Hw3 at 2.
      apply app_inv_head in Hw3. exact Hw3. }
  split; [reflexivity |].
  split.
  { change (static (on_self (with_busy false) s3)) with (static s3).
    rewrite Hst3, Hst2, Hst1. reflexivity. }
  intros Hnone.
  change (tick_at 1 (on_self (with_busy false) s3)) with (tick_at 1 s3).
  change (total_at 1 (on_self (with_busy false) s3)) with (total_at 1 s3).
  apply (run_phases_level_1 env d_load d_run s2 s3); [| exact Hphases].
  unfold config in Hcfg. congruence.
Qed.

(** The status of a loader whose root is at [n] of [n] and whose level 1 is
    at 0 of 0, on a device whose disk usage can be read: the root percentage
    is the one of [n] of [n]. *)
Lemma get_status_root_done (env : Env) (c : CodeLoader) (n : Z) (du : DiskUsage) :
  disk_usage env LOADER_DATA_DIR = Ok du ->
  wf c -> tick c !! 0%nat = Some n -> total c !! 0%nat = Some n ->
  tick c !! 1%nat = Some 0 -> total c !! 1%nat = Some 0 ->
  exists st root rest,
    get_status env c = Ok st /\
    st_status st = (if error c then "error" else if busy c then "busy" else "ready") /\
    st_progress st = root :: rest /\
    ls_progress root = rollup n n 0 /\ ls_current root = n /\ ls_total root = n.
Proof.
  intros Hdisk (Hml & Htot & Htk & Hact & Hout) Hk0 Ht0 Hk1 Ht1.
  destruct c as [tar targz sl sr ml tot tk act out bsy err excl del]. simpl in *.
  apply length_four in Htot as (tot0 & tot1 & tot2 & tot3 & ->).
  apply length_four in Htk as (tk0 & tk1 & tk2 & tk3 & ->).
  apply length_four in Hact as (act0 & act1 & act2 & act3 & ->).
  apply length_four in Hout as (out0 & out1 & out2 & out3 & ->).
  simpl in Hk0, Ht0, Hk1, Ht1.
  injection Hk0 as ->. injection Ht0 as ->. injection Hk1 as ->. injection Ht1 as ->.
  subst ml. unfold get_status. rewrite Hdisk.
  rewrite (_get_progress_closed_form _ n 0 tk2 tk3 n 0 tot2 tot3) by reflexivity.
  cbv zeta.
  replace (rollup 0 0 (rollup tk2 tot2 (percentage tk3 tot3 + 0))) with 0
    by (unfold rollup; replace (percentage 0 0) with 0 by (vm_compute; reflexivity);
        reflexivity).
  cbn. eexists. eexists. eexists. repeat split.
Qed.

(** C5. A cycle that returns, over distinct manifests: the root total is the
    number of archives of both kinds plus the number of unique images of the
    manifests of both kinds; it is written once, as the first effect of the
    cycle, and the root tick ends at it. In scenario A (two uncompressed
    archives, no compressed one, one stack to run with two unique images,
    no stack to load, the error flag not set) the root ends at 4 of 4, and
    a status read gives 100 as its percentage and "ready" as the status,
    unless the disk usage of the data directory cannot be read, in which
    case the status read raises what [psutil.disk_usage] raises. *)
Theorem root_total_counts_planned_work (env : Env) (s s' : State) :
  NoDup (stacks_to_load_yaml (self s)) -> NoDup (stacks_to_run_yaml (self s)) ->
  _run env s = (Ok tt, s') ->
  (total_at 0 s' = Some (planned_work env (self s)) /\
   tick_at 0 s' = Some (planned_work env (self s)) /\
   exists rest,
     trace_of s' = trace_of s ++ EvSetTotal 0 (planned_work env (self s)) :: rest /\
     totals_written 0 rest = []) /\
  (wf (self s) -> error (self s) = false ->
   length (images_to_load_tar (self s)) = 2%nat ->
   images_to_load_tar_gz (self s) = [] ->
   (exists stack, stacks_to_run_yaml (self s) = [stack]
                  /\ length (stack_images env stack) = 2%nat) ->
   stacks_to_load_yaml (self s) = [] ->
   total_at 0 s' = Some 4 /\ tick_at 0 s' = Some 4 /\
   match disk_usage env LOADER_DATA_DIR with
   | Ok _ =>
       exists st root rest,
         get_status env (self s') = Ok st /\ st_status st = "ready" /\
         st_progress st = root :: rest /\
         ls_progress root = 100 /\ ls_current root = 4 /\ ls_total root = 4
   | Raise e => get_status env (self s') = Raise e
   end).
Proof.
  intros Hnd_load Hnd_run Hrun.
  destruct (_run_root_counters env s s' Hnd_load Hnd_run Hrun)
    as (Htotal & Htick & Hwrites & Hbusy & Hstatic & Hlevel1).
  split; [auto |].
  intros Hwf Herr Htar Htargz (stack & Hsr & Himages) Hsl.
  assert (Hwork : planned_work env (self s) = 4).
  { unfold planned_work, images_in. rewrite Htar, Htargz, Hsl, Hsr. simpl.
    rewrite Himages. reflexivity. }
  rewrite Hwork in Htotal, Htick.
  destruct (Hlevel1 Hsl) as [Hk1 Ht1].
  split; [exact Htotal |]. split; [exact Htick |].
  assert (Hwf' : wf (self s')) by (eapply wf_static; eassumption).
  destruct (disk_usage env LOADER_DATA_DIR) as [du | e] eqn:Hdisk;
    [| exact (get_status_raises env (self s') e Hdisk)].
  destruct (get_status_root_done env (self s') 4 du Hdisk Hwf' Htick Htotal Hk1 Ht1)
    as (st & root & rest & Hst & Hname & Hprog & Hp & Hc & Ht).
  exists st, root, rest.
  assert (Herr' : error (self s') = false).
  { unfold static in Hstatic. congruence. }
  rewrite Herr', Hbusy in Hname.
  split; [exact Hst |]. split; [exact Hname |]. split; [exact Hprog |].
  split; [| split; assumption].
  rewrite Hp. vm_compute. reflexivity.
Qed.

(** Scenario A: two archives, a stack to run on two images, one of them in
    the store already. *)
Definition scenario_a : State :=
  (_load_configuration
     (boot ∅ [base_tar; tools_tar; core_yaml] ["duckietown/dt-ui:latest"])).2.

Lemma root_total_counts_planned_work_witness :
  exists s' st root rest,
    _run demo_env scenario_a = (Ok tt, s') /\
    total_at 0 s' = Some 4 /\ tick_at 0 s' = Some 4 /\
    totals_written 0 (trace_of s') = [4] /\
    image_events (trace_of s')
    = [EvDockerImages; EvDockerImages; EvDockerPull "duckietown/dt-core:latest"] /\
    get_status demo_env (self s') = Ok st /\ st_status st = "ready" /\
    st_progress st = root :: rest /\ ls_progress root = 100.
Proof.
  assert (Hrun : exists s',
    _run demo_env scenario_a = (Ok tt, s') /\ totals_written 0 (trace_of s') = [4] /\
    image_events (trace_of s')
    = [EvDockerImages; EvDockerImages; EvDockerPull "duckietown/dt-core:latest"]).
  { eexists. split; [vm_compute; reflexivity | split; reflexivity]. }
  destruct Hrun as (s' & Hrun & Hwrites & Himages).
  assert (Hnd_load : NoDup (stacks_to_load_yaml (self scenario_a))).
  { vm_compute. constructor. }
  assert (Hnd_run : NoDup (stacks_to_run_yaml (self scenario_a))).
  { vm_compute. apply NoDup_singleton. }
  destruct (root_total_counts_planned_work demo_env scenario_a s' Hnd_load Hnd_run Hrun)
    as [_ Hscenario].
  destruct Hscenario as (Htotal & Htick & Hstatus).
  - repeat split.
  - reflexivity.
  - reflexivity.
  - reflexivity.
  - exists core_yaml. split; reflexivity.
  - reflexivity.
  - change (exists st root rest,
              get_status demo_env (self s') = Ok st /\ st_status st = "ready" /\
              st_progress st = root :: rest /\
              ls_progress root = 100 /\ ls_current root = 4 /\ ls_total root = 4)
      in Hstatus.
    destruct Hstatus as (st & root & rest & Hst & Hname & Hprog & Hp & _).
    exists s', st, root, rest. auto 10.
Defined.

(** ** The delete policy *)

(** An operation that returns did not fail, and is logged. *)
Lemma call_run (env : Env) (ev : Event) (s s' : State) :
  call env ev s = (Ok tt, s') ->
  fault env (trace_of s) ev = None /\ s' = on_world (log ev) s.
Proof.
  unfold call, trace_of.
  destruct (fault env (trace (world s)) ev); [discriminate |].
  intros Hrun. injection Hrun as <-. split; reflexivity.
Qed.

(** A removal that returns: the file is gone, the removal is recorded, and
    it did not fail. *)
Lemma remove_file_run (env : Env) (p : string) (s s' : State) :
  remove_file env p s = (Ok tt, s') ->
  disk env s'
  = (do_delete (self s), without p (files_of s), removals (trace_of s) ++ [p],
     failed_removals env (trace_of s)).
Proof.
  unfold remove_file. intros Hrun.
  apply bind_ok in Hrun as ([] & s1 & Hprint & Hrun).
  unfold emit, modify in Hprint. injection Hprint as <-.
  unfold bind at 1, get in Hrun.
  destruct (bool_decide (p ∈ files (world _))); [| discriminate].
  apply bind_ok in Hrun as ([] & s2 & Hcall & Hrun).
  apply call_run in Hcall as [Hfault ->].
  unfold modify in Hrun. injection Hrun as <-.
  destruct s as [c [fs imgs down tr] rp].
  unfold trace_of in Hfault. simpl in Hfault.
  unfold disk, files_of, trace_of, removals, failed_removals. simpl.
  rewrite !omap_app, !failed_removals_from_snoc. simpl.
  rewrite Hfault, !app_nil_r. reflexivity.
Qed.

(** A removal that fails raises. *)
Lemma remove_file_failure (env : Env) (p : string) (s : State) (e : exn) :
  fault env (trace_of s ++ [EvPrint ("Now removing: " +:+ p)]) (EvRemove p) = Some e ->
  p ∈ files_of s ->
  exists s', remove_file env p s = (Raise e, s') /\ files_of s' = files_of s.
Proof.
  intros Hfault Hin. destruct s as [c [fs imgs down tr] rp].
  unfold files_of in Hin. unfold trace_of in Hfault.
  unfold remove_file, emit, call, bind, get, modify, raise.
  simpl in Hfault, Hin. simpl.
  rewrite (bool_decide_eq_true_2 _ Hin). simpl. rewrite Hfault.
  eexists. split; reflexivity.
Qed.

(** An archive, once loaded, is removed under the policy. *)
Lemma load_archive_item_disk (env : Env) (archive : string)
    (dk : bool * list string * list string * list string) :
  triple (fun s => disk env s = dk) (load_archive_item env archive)
         (fun _ s => disk env s = remove_step archive dk).
Proof.
  intros s [] s' Hdk Hrun. unfold load_archive_item in Hrun.
  apply bind_ok in Hrun as ([] & s1 & Hload & Hrun).
  unfold bind at 1, get in Hrun.
  apply bind_ok in Hrun as ([] & s2 & Hremove & Hrest).
  assert (H1 : disk env s1 = dk).
  { rewrite <- Hdk. eapply (stable_run (disk env)); [| exact Hload]. stable_go. }
  assert (H2 : disk env s' = disk env s2).
  { eapply (stable_run (disk env)); [| exact Hrest]. stable_go. }
  rewrite H2. clear H2 Hrest Hload Hdk.
  destruct dk as [[[policy fs] removed] failed].
  assert (Hpolicy : do_delete (self s1) = policy) by (unfold disk in H1; congruence).
  rewrite Hpolicy in Hremove. destruct policy; simpl.
  - rewrite (remove_file_run _ _ _ _ Hremove). unfold disk in H1.
    injection H1 as -> -> -> ->. reflexivity.
  - injection Hremove as <-. exact H1.
Qed.

Lemma run_stack_item_disk (env : Env) (d : gmap string (list string)) (stack : string) :
  stable (pres (disk env)) (run_stack_item env d stack).
Proof. stable_go. Qed.

(** A manifest to load, once its images are pulled, is removed under the
    policy. *)
Lemma load_stack_item_disk (env : Env) (d : gmap string (list string)) (stack : string)
    (dk : bool * list string * list string * list string) :
  triple (fun s => disk env s = dk) (load_stack_item env d stack)
         (fun _ s => disk env s = remove_step stack dk).
Proof.
  intros s [] s' Hdk Hrun. unfold load_stack_item in Hrun.
  apply bind_ok in Hrun as (images & s0 & Hlookup & Hrun).
  apply bind_ok in Hrun as ([] & s1 & Htotal & Hrun).
  apply bind_ok in Hrun as ([] & s2 & Hstatus & Hrun).
  apply bind_ok in Hrun as (images' & s3 & Hlookup' & Hrun).
  apply bind_ok in Hrun as ([] & s4 & Hloop & Hrun).
  unfold bind at 1, get in Hrun.
  apply bind_ok in Hrun as ([] & s5 & Hremove & Hrest).
  assert (H4 : disk env s4 = dk).
  { rewrite <- Hdk.
    transitivity (disk env s3);
      [eapply (stable_run (disk env)); [| exact Hloop]; stable_go |].
    transitivity (disk env s2);
      [eapply (stable_run (disk env)); [| exact Hlookup']; stable_go |].
    transitivity (disk env s1);
      [eapply (stable_run (disk env)); [| exact Hstatus]; stable_go |].
    transitivity (disk env s0);
      [eapply (stable_run (disk env)); [| exact Htotal]; stable_go |].
    eapply (stable_run (disk env)); [| exact Hlookup]. stable_go. }
  assert (H5 : disk env s' = disk env s5).
  { eapply (stable_run (disk env)); [| exact Hrest]. stable_go. }
  rewrite H5. clear - H4 Hremove.
  destruct dk as [[[policy fs] removed] failed].
  assert (Hpolicy : do_delete (self s4) = policy) by (unfold disk in H4; congruence).
  rewrite Hpolicy in Hremove. destruct policy; simpl.
  - rewrite (remove_file_run _ _ _ _ Hremove). unfold disk in H4.
    injection H4 as -> -> -> ->. reflexivity.
  - injection Hremove as <-. exact H4.
Qed.

(** A loop folds on [f] what its body does to it. *)
Lemma for_each_folds {A X : Type} (f : State -> X) (step : A -> X -> X)
    (body : A -> M unit) (items : list A) :
  (forall x v, triple (fun s => f s = v) (body x) (fun _ s => f s = step x v)) ->
  forall v, triple (fun s => f s = v) (for_each items body)
                   (fun _ s => f s = foldl (fun v x => step x v) v items).
Proof.
  intros Hbody. induction items as [| x items IH]; intros v; simpl.
  - apply triple_ret. auto.
  - apply (triple_bind _ (fun _ s => f s = step x v)); [apply Hbody |].
    intros u. apply IH.
Qed.

Lemma phase_prelude_disk (env : Env) (n : Z) (status : string) :
  stable (pres (disk env)) (_set_total 1 n ;; _set_status 1 status 0).
Proof. stable_go. Qed.

(** A phase does to the disk what its items do, in their order. *)
Lemma phase_disk (env : Env) (items : CodeLoader -> list string) (status : string)
    (body : string -> M unit)
    (step : string -> bool * list string * list string * list string
            -> bool * list string * list string * list string)
    (s s' : State) :
  (forall s1 s2, config s1 = config s2 -> items (self s1) = items (self s2)) ->
  (forall x dk, triple (fun s => disk env s = dk) (body x)
                       (fun _ s => disk env s = step x dk)) ->
  phase items status body s = (Ok tt, s') ->
  disk env s' = foldl (fun dk x => step x dk) (disk env s) (items (self s)).
Proof.
  intros Hitems Hbody Hrun.
  destruct (phase_run items status body s s' Hitems Hrun) as (s2 & Hpre & Hloop).
  eapply (for_each_folds (disk env) step body _ Hbody (disk env s)); [| exact Hloop].
  exact (stable_run (disk env) _ _ _ _ (phase_prelude_disk env _ status) Hpre).
Qed.

Lemma foldl_keeps {A X : Type} (v : X) (l : list A) : foldl (fun v _ => v) v l = v.
Proof. induction l as [| x l IH]; simpl; [reflexivity | exact IH]. Qed.

(** The removals of a list of files, under the policy. *)
Lemma remove_steps (policy : bool) (l : list string) :
  forall fs removed failed,
  foldl (fun dk p => remove_step p dk) (policy, fs, removed, failed) l
  = (policy,
     (if policy then foldl (fun fs p => without p fs) fs l else fs),
     removed ++ (if policy then l else []),
     failed).
Proof.
  destruct policy.
  - induction l as [| p l IH]; intros fs removed failed; simpl.
    + rewrite app_nil_r. reflexivity.
    + rewrite IH, <- app_assoc. reflexivity.
  - induction l as [| p l IH]; intros fs removed failed; simpl.
    + rewrite app_nil_r. reflexivity.
    + rewrite IH. reflexivity.
Qed.

(** What is left of [fs] once the files of [l] are removed. *)
Lemma elem_of_without (l : list string) :
  forall (fs : list string) (q : string),
  q ∈ foldl (fun fs p => without p fs) fs l <-> q ∈ fs /\ q ∉ l.
Proof.
  induction l as [| p l IH]; intros fs q; simpl.
  - split; [intros H; split; [exact H | apply not_elem_of_nil] | tauto].
  - rewrite IH, not_elem_of_cons. unfold without.
    rewrite !list_elem_of_In, filter_In, negb_true_iff, String.eqb_neq.
    tauto.
Qed.

(** The four phases remove what the two archive phases and the phase of the
    stacks to load processed; the phase of the stacks to run removes
    nothing. *)
Lemma run_phases_disk (env : Env) (d_load d_run : gmap string (list string))
    (s s' : State) :
  run_phases env d_load d_run s = (Ok tt, s') ->
  disk env s'
  = foldl (fun dk p => remove_step p dk) (disk env s)
      (images_to_load_tar (self s) ++ images_to_load_tar_gz (self s)
       ++ stacks_to_load_yaml (self s)).
Proof.
  intros Hrun.
  destruct (run_phases_run env d_load d_run s s' Hrun)
    as (s1 & s2 & s3 & s4 & H1 & H2 & H3 & H4 & C1 & C2 & C3 & ->).
  pose proof (phase_disk env images_to_load_tar _ _ remove_step _ _
                ltac:(config_proj) (load_archive_item_disk env) H1) as D1.
  pose proof (phase_disk env images_to_load_tar_gz _ _ remove_step _ _
                ltac:(config_proj) (load_archive_item_disk env) H2) as D2.
  pose proof (phase_disk env stacks_to_run_yaml _ _ (fun _ dk => dk) _ _
                ltac:(config_proj)
                (fun x dk => triple_end_stable (disk env) dk _ (run_stack_item_disk env d_run x))
                H3) as D3.
  pose proof (phase_disk env stacks_to_load_yaml _ _ remove_step _ _
                ltac:(config_proj) (load_stack_item_disk env d_load) H4) as D4.
  rewrite foldl_keeps in D3.
  assert (Hlog : disk env (on_world (log (EvBootLog "done" "All stacks up")) s4)
                 = disk env s4).
  { refine (stable_run (disk env) (_boot_log env "done" "All stacks up") s4 (Ok tt) _ _
              (_boot_log_run env _ _ s4)).
    stable_go. }
  rewrite Hlog, D4, D3, D2, D1, !foldl_app.
  unfold config in C1, C2, C3.
  replace (images_to_load_tar_gz (self s1)) with (images_to_load_tar_gz (self s)) by congruence.
  replace (stacks_to_load_yaml (self s3)) with (stacks_to_load_yaml (self s)) by congruence.
  reflexivity.
Qed.

(** A cycle that returns has removed, under the policy, the archives and the
    stacks to load, in the order of the phases. *)
Lemma _run_disk (env : Env) (s s' : State) :
  _run env s = (Ok tt, s') ->
  disk env s'
  = foldl (fun dk p => remove_step p dk) (disk env s)
      (images_to_load_tar (self s) ++ images_to_load_tar_gz (self s)
       ++ stacks_to_load_yaml (self s)).
Proof.
  intros Hrun. unfold _run in Hrun.
  unfold bind at 1, modify in Hrun. unfold bind at 1, get in Hrun.
  apply bind_ok in Hrun as (d_load & s0 & Hload & Hrun).
  apply read_stacks_spec in Hload as [-> _].
  apply bind_ok in Hrun as (d_run & s0 & Hrunning & Hrun).
  apply read_stacks_spec in Hrunning as [-> _].
  apply bind_ok in Hrun as ([] & s1 & Htotal & Hrun).
  apply bind_ok in Hrun as ([] & s2 & Hstatus & Hrun).
  apply bind_ok in Hrun as ([] & s3 & Hphases & Hdone).
  unfold modify in Hdone. injection Hdone as <-.
  assert (D1 : disk env s1 = disk env s).
  { eapply (stable_run (disk env)) in Htotal; [exact Htotal | stable_go]. }
  assert (D2 : disk env s2 = disk env s1).
  { eapply (stable_run (disk env)); [| exact Hstatus]. stable_go. }
  assert (C1 : config s1 = config s).
  { eapply (stable_run config) in Htotal; [exact Htotal | stable_go]. }
  assert (C2 : config s2 = config s1).
  { eapply (stable_run config); [| exact Hstatus]. stable_go. }
  change (disk env (on_self (with_busy false) s3)) with (disk env s3).
  rewrite (run_phases_disk env d_load d_run s2 s3 Hphases), D2, D1.
  rewrite C1 in C2. unfold config in C2.
  replace (images_to_load_tar (self s2)) with (images_to_load_tar (self s)) by congruence.
  replace (images_to_load_tar_gz (self s2)) with (images_to_load_tar_gz (self s))
    by congruence.
  replace (stacks_to_load_yaml (self s2)) with (stacks_to_load_yaml (self s)) by congruence.
  reflexivity.
Qed.

(** What a cycle removes: under the policy, the archives of both kinds and
    the stacks to load, in the order of the phases. *)
Definition to_remove (c : CodeLoader) : list string :=
  if do_delete c
  then images_to_load_tar c ++ images_to_load_tar_gz c ++ stacks_to_load_yaml c
  else [].

(** The cycle ended at a removal, with the exception the removal raised. *)
Definition ended_by_removal (env : Env) (r : Result unit) (s' : State) : Prop :=
  exists e pre p,
    r = Raise e /\ trace_of s' = pre ++ [EvRemove p] /\ fault env pre (EvRemove p) = Some e.

(** C4 as it is stated, for one cycle on one device: after a cycle that
    returns, an archive or a manifest of the scan is on disk only if it was
    there and the policy is off; and no cycle ends at a removal that
    failed. *)
Definition removal_is_best_effort (env : Env) (s : State) : Prop :=
  forall r s', _run env s = (r, s') ->
    (r = Ok tt ->
     forall p,
       p ∈ images_to_load_tar (self s) ++ images_to_load_tar_gz (self s)
           ++ stacks_to_load_yaml (self s) ++ stacks_to_run_yaml (self s) ->
       p ∈ files_of s' <-> p ∈ files_of s /\ do_delete (self s) = false) /\
    ~ ended_by_removal env r s'.

(** One archive and one stack to load, the policy on. *)
Definition scenario_e : State :=
  (_load_configuration (boot ∅ [base_tar; extra_yaml] [])).2.

(** Where no file can be removed, the cycle ends at the removal of the
    first archive, with the exception of [os.remove]. *)
Lemma removal_failure_ends_the_cycle : ~ removal_is_best_effort readonly_env scenario_e.
Proof.
  intros H.
  assert (Hrun : exists s',
    _run readonly_env scenario_e
    = (Raise (OSError ("Permission denied: " +:+ base_tar)), s') /\
    trace_of s' = removelast (trace_of s') ++ [EvRemove base_tar]).
  { eexists. split; vm_compute; reflexivity. }
  destruct Hrun as (s' & Hrun & Htrace).
  destruct (H _ _ Hrun) as [_ Hgoes_on]. apply Hgoes_on.
  exists (OSError ("Permission denied: " +:+ base_tar)), (removelast (trace_of s')), base_tar.
  split; [reflexivity |]. split; [exact Htrace | reflexivity].
Qed.

(** With the policy on and collaborators that never fail, the manifest of
    a stack to run is still on disk after the cycle. *)
Lemma run_manifest_is_kept :
  exists s',
    _run demo_env scenario_a = (Ok tt, s') /\
    do_delete (self scenario_a) = true /\
    core_yaml ∈ stacks_to_run_yaml (self scenario_a) /\
    core_yaml ∈ files_of s'.
Proof.
  eexists. split; [vm_compute; reflexivity |].
  split; [reflexivity |].
  split; apply (bool_decide_unpack _); vm_compute; reflexivity.
Qed.

(** * More of the loader *)

(** ** Construction: the policy read from the environment *)

(** A string without the character [c]. *)
Definition free_of (c : ascii) (s : string) : bool :=
  all_chars (fun x => negb (Ascii.eqb x c)) s.

Lemma split_free (c : ascii) (s : string) : free_of c s = true -> split c s = [s].
Proof.
  induction s as [| x s IH]; simpl; [reflexivity |].
  intros [Hx Hs]%andb_true_iff. apply negb_true_iff in Hx.
  rewrite Hx, (IH Hs). reflexivity.
Qed.

Lemma split_free_append (c : ascii) (s t : string) :
  free_of c s = true -> split c (s +:+ String c t) = s :: split c t.
Proof.
  induction s as [| x s IH]; simpl.
  - intros _. rewrite Ascii.eqb_refl. reflexivity.
  - intros [Hx Hs]%andb_true_iff. apply negb_true_iff in Hx.
    rewrite Hx, (IH Hs). reflexivity.
Qed.

(** Splitting at [c] undoes joining with [c], for a list that is not empty. *)
Lemma split_concat (c : ascii) (names : list string) :
  names <> [] -> Forall (fun n => free_of c n = true) names ->
  split c (String.concat (String c "") names) = names.
Proof.
  induction names as [| n names IH]; [contradiction |].
  intros _ Hfree. apply Forall_cons in Hfree as [Hn Hnames].
  destruct names as [| m names].
  - simpl. apply split_free. exact Hn.
  - change (String.concat (String c "") (n :: m :: names))
      with (n +:+ String c (String.concat (String c "") (m :: names))).
    rewrite (split_free_append _ _ _ Hn), IH; [reflexivity | discriminate | exact Hnames].
Qed.

Lemma lower_char_comma (c : ascii) :
  Ascii.eqb (lower_char c) "," = Ascii.eqb c ",".
Proof.
  destruct c as [[] [] [] [] [] [] [] []]; vm_compute; reflexivity.
Qed.

Lemma lower_comma_free (s : string) : free_of "," (lower s) = free_of "," s.
Proof.
  unfold free_of.
  induction s as [| c s IH]; simpl; [reflexivity |].
  rewrite lower_char_comma, IH. reflexivity.
Qed.

Lemma lower_append (s t : string) : lower (s +:+ t) = lower s +:+ lower t.
Proof. induction s as [| c s IH]; simpl; [reflexivity | rewrite IH; reflexivity]. Qed.

Lemma lower_concat (names : list string) :
  lower (String.concat "," names) = String.concat "," (lower <$> names).
Proof.
  induction names as [| n names IH]; [reflexivity |].
  destruct names as [| m names]; [reflexivity |].
  change (String.concat "," (n :: m :: names))
    with (n +:+ String "," (String.concat "," (m :: names))).
  rewrite lower_append.
  change (lower (String "," (String.concat "," (m :: names))))
    with (String "," (lower (String.concat "," (m :: names)))).
  rewrite IH. reflexivity.
Qed.

(** X1. [EXCLUDE_RUN] round trip: when the variable holds names joined by
    commas (at least one name, none with a comma in it), the exclude list of
    the loader is the list of the names in lower case, in their order; so
    every one of them is excluded whatever its case. Nothing is stripped: a
    blank after a comma stays in the name. *)
Theorem exclude_run_reads_the_names (environ : gmap string string) (names : list string) :
  names <> [] -> Forall (fun n => free_of "," n = true) names ->
  environ !! "EXCLUDE_RUN" = Some (String.concat "," names) ->
  exclude_run (__init__ environ) = lower <$> names /\
  forall n, n ∈ names -> lower n ∈ exclude_run (__init__ environ).
Proof.
  intros Hne Hfree Henv.
  assert (Hlist : exclude_run (__init__ environ) = lower <$> names).
  { unfold __init__. simpl. rewrite Henv, lower_concat.
    apply (split_concat ",").
    - destruct names; [contradiction | discriminate].
    - apply Forall_fmap. eapply Forall_impl; [exact Hfree |].
      intros n Hn. simpl. rewrite lower_comma_free. exact Hn. }
  split; [exact Hlist |].
  intros n Hn. rewrite Hlist. apply list_elem_of_fmap. exists n. split; [reflexivity | exact Hn].
Qed.

Lemma exclude_run_reads_the_names_witness :
  exclude_run (__init__ {["EXCLUDE_RUN" := "Core, DT18_Demo"]}) = ["core"; " dt18_demo"].
Proof.
  destruct (exclude_run_reads_the_names {["EXCLUDE_RUN" := "Core, DT18_Demo"]}
              ["Core"; " DT18_Demo"]) as [Hlist _].
  - discriminate.
  - repeat constructor.
  - reflexivity.
  - exact Hlist.
Defined.

(** What no run of [start] writes: the shape of the level lists, the policy
    and the error flag. *)
Definition shape (s : State) : nat * (nat * nat * nat * nat) * list string * bool * bool :=
  (max_level (self s),
   (length (total (self s)), length (tick (self s)),
    length (action (self s)), length (output (self s))),
   exclude_run (self s), do_delete (self s), error (self s)).

Lemma stable_weaken {A : Type} (R R' : relation State) (m : M A) :
  (forall s s', R s s' -> R' s s') -> stable R m -> stable R' m.
Proof. intros H Hm s. apply H, Hm. Qed.

Lemma static_shape (s s' : State) : pres static s s' -> pres shape s s'.
Proof. unfold pres, static, shape. intros H. injection H as -> -> -> -> -> -> -> -> _. reflexivity. Qed.

Lemma start_shape (env : Env) (fuel : nat) : stable (pres shape) (start env fuel).
Proof.
  assert (Hev : forall ev, stable (pres shape) (emit ev)).
  { intros ev. apply stable_emit. intros s. reflexivity. }
  unfold start.
  apply stable_bind; [tc_solve | destruct ENABLE_PRINTER; [apply Hev | apply stable_ret; tc_solve] |].
  intros _.
  apply stable_bind; [tc_solve | destruct ENABLE_REST_API; [apply Hev | apply stable_ret; tc_solve] |].
  intros _.
  apply stable_bind; [tc_solve | apply stable_modify; intros s; reflexivity |]. intros _.
  apply stable_bind;
    [tc_solve | exact (stable_weaken _ _ _ static_shape (start_loop_static env fuel)) |].
  intros _.
  apply stable_bind; [tc_solve | apply Hev |]. intros _. apply Hev.
Qed.

Lemma wf___init__ (environ : gmap string string) : wf (__init__ environ).
Proof. repeat split. Qed.

(** X2. Whatever a run of [start] does (any number of passes, any failure
    of any collaborator, returning or raising), it leaves a loader whose
    four level lists have four entries, whose exclude list and delete policy
    are the ones read at construction, and whose error flag is off. Whether
    a status read then returns depends on the device alone: where the disk
    usage of the data directory can be read, the read returns its four
    levels and says "busy" or "ready", never "error"; where it cannot (no
    [/data/loader] on the device), the read raises what [psutil.disk_usage]
    raises. *)
Theorem start_keeps_the_status_readable (env : Env) (environ : gmap string string)
    (w : World) (rp : Z) (fuel : nat) :
  let s' := (start env fuel (mkState (__init__ environ) w rp)).2 in
  wf (self s') /\
  exclude_run (self s') = exclude_run (__init__ environ) /\
  do_delete (self s') = do_delete (__init__ environ) /\
  error (self s') = false /\
  match disk_usage env LOADER_DATA_DIR with
  | Ok _ =>
      exists st,
        get_status env (self s') = Ok st /\ length (st_progress st) = 4%nat /\
        (st_status st = "busy" \/ st_status st = "ready")
  | Raise e => get_status env (self s') = Raise e
  end.
Proof.
  intros s'.
  pose proof (start_shape env fuel (mkState (__init__ environ) w rp)) as Hshape.
  fold s' in Hshape. unfold pres, shape in Hshape. simpl in Hshape.
  injection Hshape as Hml Hlt Hlk Hla Hlo Hex Hdel Herr.
  assert (Hwf : wf (self s')) by (unfold wf; auto).
  split; [exact Hwf |]. split; [exact Hex |]. split; [exact Hdel |].
  split; [exact Herr |].
  destruct (disk_usage env LOADER_DATA_DIR) as [du | e] eqn:Hdisk.
  - destruct (get_status_returns env (self s') du Hdisk Hwf) as (st & Hread & Hname & Hlen).
    exists st. split; [exact Hread |]. split; [exact Hlen |].
    rewrite Hname, Herr. destruct (busy (self s')); auto.
  - exact (get_status_raises env (self s') e Hdisk).
Qed.

(** ** The scan of the configuration directories *)

Lemma endswith_from_cons (suffix : string) (c : ascii) (s : string) :
  endswith_from suffix (String c s)
  = String.eqb (String c s) suffix || endswith_from suffix s.
Proof. reflexivity. Qed.

Lemma endswith_from_nil (suffix : string) : endswith_from suffix "" = String.eqb "" suffix.
Proof. unfold endswith_from. apply orb_false_r. Qed.

Lemma endswith_from_refl (s : string) : endswith_from s s = true.
Proof.
  destruct s as [| c s]; [reflexivity |].
  rewrite endswith_from_cons, String.eqb_refl. reflexivity.
Qed.

Lemma endswith_from_empty (s : string) : endswith_from "" s = true.
Proof.
  induction s as [| c s IH]; [reflexivity |].
  rewrite endswith_from_cons, IH. apply orb_true_r.
Qed.

Lemma endswith_from_length (suffix s : string) :
  endswith_from suffix s = true -> (String.length suffix <= String.length s)%nat.
Proof.
  induction s as [| c s IH].
  - rewrite endswith_from_nil. intros <-%String.eqb_eq. reflexivity.
  - rewrite endswith_from_cons.
    intros [<-%String.eqb_eq | H]%orb_true_iff; [reflexivity |].
    specialize (IH H). simpl. lia.
Qed.

(** Of two suffixes of a string, the shorter is a suffix of the longer. *)
Lemma endswith_from_both (suffix suffix' s : string) :
  endswith_from suffix s = true -> endswith_from suffix' s = true ->
  (String.length suffix <= String.length suffix')%nat ->
  endswith_from suffix suffix' = true.
Proof.
  induction s as [| c s IH]; intros H1 H2 Hlen.
  - rewrite endswith_from_nil in H1. apply String.eqb_eq in H1 as <-.
    apply endswith_from_empty.
  - rewrite endswith_from_cons in H1, H2.
    apply orb_true_iff in H1 as [H1 | H1]; apply orb_true_iff in H2 as [H2 | H2].
    + apply String.eqb_eq in H1 as <-. apply String.eqb_eq in H2 as <-.
      apply endswith_from_refl.
    + apply String.eqb_eq in H1 as <-. apply endswith_from_length in H2.
      simpl in Hlen. lia.
    + apply String.eqb_eq in H2 as <-. rewrite endswith_from_cons, H1. apply orb_true_r.
    + exact (IH H1 H2 Hlen).
Qed.

Lemma elem_of_glob (fs : list string) (dir ext p : string) :
  p ∈ glob fs dir ext <-> p ∈ fs /\ glob_match dir ext p = true.
Proof. unfold glob. rewrite !list_elem_of_In, filter_In. reflexivity. Qed.

Lemma NoDup_glob (fs : list string) (dir ext : string) : NoDup fs -> NoDup (glob fs dir ext).
Proof. rewrite !NoDup_ListNoDup. apply List.NoDup_filter. Qed.

(** A path is in one directory, and its name has one of the extensions. *)
Lemma glob_match_dir (dir ext dir' ext' p : string) :
  glob_match dir ext p = true -> glob_match dir' ext' p = true -> dir = dir'.
Proof.
  unfold glob_match. rewrite !andb_true_iff, !String.eqb_eq.
  intros [[<- _] _] [[<- _] _]. reflexivity.
Qed.

Lemma glob_match_ext (dir ext dir' ext' p : string) :
  glob_match dir ext p = true -> glob_match dir' ext' p = true ->
  (String.length ext <= String.length ext')%nat ->
  endswith_from ext ext' = true.
Proof.
  unfold glob_match, endswith. rewrite !andb_true_iff.
  intros [[_ H1] _] [[_ H2] _]. exact (endswith_from_both _ _ _ H1 H2).
Qed.

(** The six patterns of the scan are exclusive. *)
Ltac two_patterns :=
  match goal with
  | H1 : glob_match ?d ?e ?p = true, H2 : glob_match ?d' ?e' ?p = true |- _ =>
      first
        [ pose proof (glob_match_dir _ _ _ _ _ H1 H2) as Hdir;
          vm_compute in Hdir; discriminate Hdir
        | pose proof (glob_match_ext _ _ _ _ _ H1 H2 ltac:(vm_compute; lia)) as Hext;
          vm_compute in Hext; discriminate Hext
        | pose proof (glob_match_ext _ _ _ _ _ H2 H1 ltac:(vm_compute; lia)) as Hext;
          vm_compute in Hext; discriminate Hext ]
  end.

(** The work list of a scan of the files [fs], as one list. *)
Definition scanned (fs : list string) : list string :=
  glob fs images_to_load_dir ".tar" ++ glob fs images_to_load_dir ".tar.gz"
  ++ (glob fs stacks_to_load_dir ".yaml" ++ glob fs stacks_to_load_dir ".yml")
  ++ (glob fs stacks_to_run_dir ".yaml" ++ glob fs stacks_to_run_dir ".yml").

Lemma NoDup_scanned (fs : list string) : NoDup fs -> NoDup (scanned fs).
Proof.
  intros Hfs. unfold scanned.
  repeat match goal with
         | |- NoDup (glob _ _ _) => apply NoDup_glob; exact Hfs
         | |- NoDup (_ ++ _) => apply NoDup_app; split; [| split]
         | |- forall x, _ -> _ => intros p Hp Hq
         end.
  all: rewrite ?elem_of_app in Hp; rewrite ?elem_of_app in Hq;
    rewrite !elem_of_glob in Hp; rewrite !elem_of_glob in Hq.
  all: repeat match goal with
              | H : _ \/ _ |- _ => destruct H
              | H : _ /\ _ |- _ => destruct H
              end.
  all: two_patterns.
Qed.

Lemma _load_configuration_run (s : State) :
  exists s',
    _load_configuration s = (Ok tt, s') /\
    files_of s' = files_of s /\
    images_to_load_tar (self s') = glob (files_of s) images_to_load_dir ".tar" /\
    images_to_load_tar_gz (self s') = glob (files_of s) images_to_load_dir ".tar.gz" /\
    stacks_to_load_yaml (self s')
    = glob (files_of s) stacks_to_load_dir ".yaml" ++ glob (files_of s) stacks_to_load_dir ".yml" /\
    stacks_to_run_yaml (self s')
    = glob (files_of s) stacks_to_run_dir ".yaml" ++ glob (files_of s) stacks_to_run_dir ".yml" /\
    static s' = static s /\ tick (self s') = tick (self s) /\ total (self s') = total (self s).
Proof.
  unfold _load_configuration, bind, get, modify, emit. simpl.
  eexists. split; [reflexivity |]. repeat split.
Qed.

(** X3. A scan of a disk that holds every path once finds every file at
    most once over its four lists together: no list has a duplicate and no
    two lists share a path, so that a pass processes a file in one phase
    only; and whatever it lists is on disk. *)
Theorem scan_lists_each_file_once (s : State) :
  NoDup (files_of s) ->
  let c := self (_load_configuration s).2 in
  NoDup (images_to_load_tar c ++ images_to_load_tar_gz c
         ++ stacks_to_load_yaml c ++ stacks_to_run_yaml c) /\
  forall p, p ∈ images_to_load_tar c ++ images_to_load_tar_gz c
                ++ stacks_to_load_yaml c ++ stacks_to_run_yaml c ->
            p ∈ files_of s.
Proof.
  intros Hfs c.
  destruct (_load_configuration_run s) as (s' & Hrun & _ & Htar & Htargz & Hsl & Hsr & _).
  subst c. rewrite Hrun. simpl. rewrite Htar, Htargz, Hsl, Hsr.
  split; [exact (NoDup_scanned _ Hfs) |].
  intros p. rewrite !elem_of_app, !elem_of_glob. tauto.
Qed.

Lemma scan_lists_each_file_once_witness :
  NoDup (images_to_load_tar (self scenario_a) ++ images_to_load_tar_gz (self scenario_a)
         ++ stacks_to_load_yaml (self scenario_a) ++ stacks_to_run_yaml (self scenario_a)).
Proof.
  refine (proj1 (scan_lists_each_file_once
                   (boot ∅ [base_tar; tools_tar; core_yaml] ["duckietown/dt-ui:latest"]) _)).
  apply (bool_decide_unpack _). vm_compute. reflexivity.
Defined.

Lemma filter_without (P : string -> bool) (p : string) (fs : list string) :
  P p = false -> List.filter P (without p fs) = List.filter P fs.
Proof.
  intros Hp. unfold without.
  induction fs as [| q fs IH]; simpl; [reflexivity |].
  destruct (String.eqb q p) eqn:Hq; simpl.
  - apply String.eqb_eq in Hq as ->. rewrite Hp. exact IH.
  - destruct (P q); [f_equal |]; exact IH.
Qed.

(** Removing files a pattern does not match leaves what it matches. *)
Lemma glob_without_others (dir ext : string) (l : list string) :
  (forall p, p ∈ l -> glob_match dir ext p = false) ->
  forall fs, glob (foldl (fun fs p => without p fs) fs l) dir ext = glob fs dir ext.
Proof.
  unfold glob. induction l as [| p l IH]; intros Hl fs; simpl; [reflexivity |].
  rewrite IH by (intros q Hq; apply Hl; right; exact Hq).
  apply filter_without. apply Hl. left.
Qed.

(** Removing every file a pattern matches leaves it nothing. *)
Lemma glob_without_all (dir ext : string) (l fs : list string) :
  (forall p, p ∈ glob fs dir ext -> p ∈ l) ->
  glob (foldl (fun fs p => without p fs) fs l) dir ext = [].
Proof.
  intros Hl. apply elem_of_nil_inv. intros p Hp.
  apply elem_of_glob in Hp as [Hp Hmatch].
  apply elem_of_without in Hp as [Hfs Hout].
  apply Hout, Hl, elem_of_glob. split; assumption.
Qed.

(** The disk after a cycle that returns. *)
Lemma _run_files (env : Env) (s s' : State) :
  _run env s = (Ok tt, s') ->
  files_of s'
  = if do_delete (self s)
    then foldl (fun fs p => without p fs) (files_of s)
           (images_to_load_tar (self s) ++ images_to_load_tar_gz (self s)
            ++ stacks_to_load_yaml (self s))
    else files_of s.
Proof.
  intros Hrun. pose proof (_run_disk env s s' Hrun) as Hdisk.
  unfold disk in Hdisk at 2. rewrite remove_steps in Hdisk.
  unfold disk in Hdisk. injection Hdisk as _ Hfiles _ _. exact Hfiles.
Qed.

(** X4. The next scan after a cycle that returned. With the delete policy
    on it finds no archive of either kind and no stack to load, and the same
    stacks to run as the scan before the cycle: what was loaded is not
    loaded again, what is run is run at every pass. With the policy off it
    finds the same four lists as before, so that every pass loads every
    archive and pulls every image of the stacks to load again. *)
Theorem rescan_after_a_cycle (env : Env) (s s1 s2 : State) :
  _load_configuration s = (Ok tt, s1) -> _run env s1 = (Ok tt, s2) ->
  let s3 := (_load_configuration s2).2 in
  stacks_to_run_yaml (self s3) = stacks_to_run_yaml (self s1) /\
  (do_delete (self s) = true ->
   images_to_load_tar (self s3) = [] /\ images_to_load_tar_gz (self s3) = [] /\
   stacks_to_load_yaml (self s3) = []) /\
  (do_delete (self s) = false -> config s3 = config s1).
Proof.
  intros Hscan Hrun s3.
  destruct (_load_configuration_run s)
    as (s1' & Hscan' & Hfs1 & Htar & Htargz & Hsl & Hsr & Hst & _).
  rewrite Hscan in Hscan'. injection Hscan' as <-.
  destruct (_load_configuration_run s2)
    as (s3' & Hscan3 & _ & Htar3 & Htargz3 & Hsl3 & Hsr3 & _).
  assert (Hs3 : s3 = s3') by (subst s3; rewrite Hscan3; reflexivity).
  rewrite Hs3. clear Hs3 s3 Hscan3.
  assert (Hdel : do_delete (self s1) = do_delete (self s)).
  { unfold static in Hst. congruence. }
  pose proof (_run_files env s1 s2 Hrun) as Hfiles.
  rewrite Hdel, Hfs1, Htar, Htargz, Hsl in Hfiles.
  set (fs := files_of s) in *.
  set (L := glob fs images_to_load_dir ".tar" ++ glob fs images_to_load_dir ".tar.gz"
            ++ glob fs stacks_to_load_dir ".yaml" ++ glob fs stacks_to_load_dir ".yml") in *.
  assert (Hother : forall dir ext p,
            p ∈ L -> (dir, ext) ∈ [(stacks_to_run_dir, ".yaml"); (stacks_to_run_dir, ".yml")] ->
            glob_match dir ext p = false).
  { intros dir ext p Hp Hpat. destruct (glob_match dir ext p) eqn:Hmatch; [| reflexivity].
    exfalso. unfold L in Hp. rewrite !elem_of_app, !elem_of_glob in Hp.
    rewrite !elem_of_cons, elem_of_nil in Hpat.
    destruct Hpat as [Hpat | [Hpat | []]]; injection Hpat as -> ->.
    all: repeat match goal with
                | H : _ \/ _ |- _ => destruct H
                | H : _ /\ _ |- _ => destruct H
                end.
    all: two_patterns. }
  destruct (do_delete (self s)) eqn:Hpolicy.
  - assert (Hrun_lists : stacks_to_run_yaml (self s3') = stacks_to_run_yaml (self s1)).
    { rewrite Hsr3, Hsr, Hfiles.
      rewrite !glob_without_others; [reflexivity | |].
      all: intros p Hp; apply Hother; [exact Hp |].
      all: rewrite !elem_of_cons; auto. }
    split; [exact Hrun_lists |]. split; [| discriminate].
    intros _. rewrite Htar3, Htargz3, Hsl3, Hfiles.
    rewrite !glob_without_all; [repeat split | | | |].
    all: intros p Hp; unfold L; rewrite !elem_of_app; auto.
  - rewrite <- Hfs1 in Hfiles. fold fs in Hfiles.
    assert (Hcfg : config s3' = config s1).
    { unfold config. rewrite Htar3, Htargz3, Hsl3, Hsr3, Htar, Htargz, Hsl, Hsr, Hfiles.
      subst fs. rewrite Hfs1. reflexivity. }
    split; [unfold config in Hcfg; congruence |]. split; [discriminate |].
    intros _. exact Hcfg.
Qed.

(** Scenario A again: what the second scan finds. *)
Lemma rescan_after_a_cycle_witness :
  exists s2,
    _run demo_env scenario_a = (Ok tt, s2) /\
    config (_load_configuration s2).2 = ([], [], [], [core_yaml]).
Proof.
  assert (Hrun : exists s2, _run demo_env scenario_a = (Ok tt, s2)).
  { eexists. vm_compute. reflexivity. }
  destruct Hrun as (s2 & Hrun).
  destruct (rescan_after_a_cycle demo_env
              (boot ∅ [base_tar; tools_tar; core_yaml] ["duckietown/dt-ui:latest"])
              scenario_a s2 eq_refl Hrun) as (Hsr & Hon & _).
  destruct (Hon eq_refl) as (Htar & Htargz & Hsl).
  exists s2. split; [exact Hrun |].
  unfold config. rewrite Htar, Htargz, Hsl, Hsr. reflexivity.
Defined.

(** ** Loading an archive *)

Lemma sum_over_app {A : Type} (g : A -> Z) (l k : list A) :
  sum_over g (l ++ k) = sum_over g l + sum_over g k.
Proof. induction l as [| x l IH]; simpl; [reflexivity | rewrite IH; lia]. Qed.

Lemma sum_over_replicate (n : nat) (v : Z) :
  sum_over (fun x => x) (replicate n v) = Z.of_nat n * v.
Proof. induction n as [| n IH]; simpl; [reflexivity | rewrite IH; lia]. Qed.

(** The reads of a file add up to its size, none is empty, none is longer
    than the buffer. *)
Lemma file_reads_sum (size buffer : Z) :
  0 <= size -> 0 < buffer -> sum_over (fun x => x) (file_reads size buffer) = size.
Proof.
  intros Hsize Hbuffer. unfold file_reads.
  rewrite sum_over_app, sum_over_replicate, Z2Nat.id by (apply Z.div_pos; lia).
  pose proof (Z.div_mod size buffer ltac:(lia)) as Hdm.
  pose proof (Z.mod_pos_bound size buffer Hbuffer) as Hmod.
  destruct (0 <? size mod buffer) eqn:Hrest; simpl.
  - lia.
  - apply Z.ltb_ge in Hrest. lia.
Qed.

Lemma file_reads_bounds (size buffer : Z) :
  0 <= size -> 0 < buffer ->
  Forall (fun data => 0 < data <= buffer) (file_reads size buffer).
Proof.
  intros Hsize Hbuffer. unfold file_reads. apply Forall_app. split.
  - apply Forall_replicate. lia.
  - pose proof (Z.mod_pos_bound size buffer Hbuffer) as Hmod.
    destruct (0 <? size mod buffer) eqn:Hrest; [| constructor].
    apply Z.ltb_lt in Hrest. repeat constructor; lia.
Qed.

(** The read loop, while the process is not shutting down and every write
    is taken: one write per block, and the tick of the level ends at what
    was transferred. *)
Lemma send_chunks_run (env : Env) (archive : string) (level : nat) (reads : list Z) :
  (forall pre data, fault env pre (EvLoadWrite archive data) = None) ->
  forall (b : Z) (c : CodeLoader) (fs imgs : list string) (tr : list Event) (rp : Z),
  (level < length (tick c))%nat ->
  send_chunks env archive level reads b (mkState c (mkWorld fs imgs false tr) rp)
  = (Ok tt,
     mkState
       match reads with
       | [] => c
       | _ => with_tick (<[level := b + sum_over (fun x => x) reads]> (tick c)) c
       end
       (mkWorld fs imgs false (tr ++ (EvLoadWrite archive <$> reads))) rp).
Proof.
  intros Hfault.
  induction reads as [| data rest IH]; intros b c fs imgs tr rp Hlevel.
  - simpl. rewrite app_nil_r. reflexivity.
  - simpl send_chunks.
    cbv [bind get call is_shutdown world trace on_world log self recheck_period files
         docker_images].
    rewrite Hfault.
    cbv [_set_tick store_tick bind get lift setitem self modify on_self world
         recheck_period].
    apply Nat.ltb_lt in Hlevel as Hlt. rewrite Hlt.
    rewrite IH by (simpl; rewrite length_insert; exact Hlevel).
    rewrite <- app_assoc. simpl.
    f_equal. f_equal. destruct rest as [| data' rest].
    + simpl. rewrite Z.add_0_r. reflexivity.
    + unfold with_tick. simpl. rewrite list_insert_insert_eq.
      replace (b + data + (data' + sum_over (fun x => x) rest))
        with (b + (data + (data' + sum_over (fun x => x) rest))) by lia.
      reflexivity.
Qed.

(** The read loop of a process that is shutting down sends nothing. *)
Lemma send_chunks_shutdown (env : Env) (archive : string) (level : nat) (reads : list Z)
    (b : Z) (s : State) :
  is_shutdown (world s) = true -> send_chunks env archive level reads b s = (Ok tt, s).
Proof.
  intros Hdown. destruct reads as [| data rest]; [reflexivity |].
  simpl. unfold bind, get. rewrite Hdown. reflexivity.
Qed.

(** X5. Loading an archive that is on disk, while the process is not
    shutting down. When [docker load] can be started, the file can be
    opened and [docker load] takes every block written to it, the call
    returns: the file goes to [docker load] in
    blocks of at most 8 MiB, one write per block; the counter of level 2
    ends at the size of the file in bytes, out of that same size, whatever
    the size (an empty file ends at 0 of 0); level 2 names the archive and
    holds what [docker load] printed, level 3 is reset, levels 0 and 1 are
    untouched; the images of the archive are in the store and the disk is
    as it was. When the first write fails instead ([docker load] is gone),
    the call raises what the write raised: nothing is counted as
    transferred, no output is stored and the store is as it was. *)
Theorem archive_load_counts_every_byte (env : Env) (archive : string) (s : State) :
  wf (self s) -> archive ∈ files_of s -> is_shutdown (world s) = false ->
  0 <= file_size env archive ->
  (forall pre, fault env pre (EvDockerLoad archive) = None) ->
  (forall pre, fault env pre (EvOpen archive) = None) ->
  let reads := file_reads (file_size env archive) (8 * 1024 * 1024) in
  let started :=
    trace_of s ++ [EvSetTotal 2 (file_size env archive); EvDockerLoad archive;
                   EvOpen archive] in
  ((forall pre data, fault env pre (EvLoadWrite archive data) = None) ->
   exists s',
     _docker_load_archive env archive 8 2 s = (Ok tt, s') /\
     tick_at 2 s' = Some (file_size env archive) /\
     total_at 2 s' = Some (file_size env archive) /\
     action_at 2 s' = Some (Some ("Loading archive: " +:+ basename archive)) /\
     output_at 2 s' = Some (Some (docker_load_output env archive)) /\
     tick_at 3 s' = Some 0 /\ action_at 3 s' = Some None /\
     (forall l, (l < 2)%nat ->
        tick_at l s' = tick_at l s /\ total_at l s' = total_at l s /\
        action_at l s' = action_at l s /\ output_at l s' = output_at l s) /\
     docker_images (world s') = docker_images (world s) ++ archive_images env archive /\
     files_of s' = files_of s /\
     trace_of s' = started ++ (EvLoadWrite archive <$> reads) /\
     sum_over (fun x => x) reads = file_size env archive /\
     Forall (fun data => 0 < data <= 8 * 1024 * 1024) reads) /\
  (forall data rest e,
     reads = data :: rest ->
     fault env started (EvLoadWrite archive data) = Some e ->
     exists s',
       _docker_load_archive env archive 8 2 s = (Raise e, s') /\
       tick_at 2 s' = Some 0 /\
       total_at 2 s' = Some (file_size env archive) /\
       output_at 2 s' = Some None /\
       docker_images (world s') = docker_images (world s) /\
       files_of s' = files_of s /\
       trace_of s' = started ++ [EvLoadWrite archive data]).
Proof.
  intros Hwf Hin Hup Hsize Hload Hopen reads started. open_state s Hwf.
  unfold files_of in Hin. simpl in Hin, Hup. subst down.
  assert (Hsum : sum_over (fun x => x) reads = file_size env archive)
    by (apply file_reads_sum; lia).
  assert (Hbounds : Forall (fun data => 0 < data <= 8 * 1024 * 1024) reads)
    by (apply file_reads_bounds; lia).
  subst started. unfold trace_of. simpl.
  split.
  - intros Hwrite.
    unfold _docker_load_archive, stat_size. run_cbv.
    rewrite (bool_decide_eq_true_2 _ Hin). run_cbv.
    unfold call. run_cbv. rewrite Hload. run_cbv. rewrite Hopen. run_cbv.
    change (file_reads (file_size env archive) (8 * 1024 * 1024)) with reads.
    clearbody reads.
    rewrite (send_chunks_run env archive 2 reads Hwrite) by (simpl; lia).
    rewrite Hsum.
    destruct reads as [| data rest].
    + simpl in Hsum. rewrite <- Hsum. run_cbv.
      eexists. split; [reflexivity |].
      unfold tick_at, total_at, action_at, output_at, files_of, trace_of. simpl.
      rewrite <- !app_assoc.
      do 6 (split; [reflexivity |]).
      split; [intros l Hl; four_levels l; repeat split |].
      do 4 (split; [reflexivity |]). constructor.
    + run_cbv. eexists. split; [reflexivity |].
      unfold tick_at, total_at, action_at, output_at, files_of, trace_of. simpl.
      rewrite <- !app_assoc.
      do 6 (split; [reflexivity |]).
      split; [intros l Hl; four_levels l; repeat split |].
      do 3 (split; [reflexivity |]). split; [reflexivity | exact Hbounds].
  - intros data rest e Hreads Hfault.
    unfold _docker_load_archive, stat_size. run_cbv.
    rewrite (bool_decide_eq_true_2 _ Hin). run_cbv.
    unfold call. run_cbv. rewrite Hload. run_cbv. rewrite Hopen. run_cbv.
    change (file_reads (file_size env archive) (8 * 1024 * 1024)) with reads.
    rewrite Hreads. simpl send_chunks. run_cbv. unfold call. run_cbv.
    rewrite <- !app_assoc. simpl. rewrite Hfault.
    eexists. split; [reflexivity |].
    unfold tick_at, total_at, output_at, files_of, trace_of. simpl.
    rewrite <- ?app_assoc. repeat split.
Qed.

Lemma archive_load_counts_every_byte_witness :
  exists s',
    _docker_load_archive demo_env base_tar 8 2 scenario_a = (Ok tt, s') /\
    tick_at 2 s' = Some 20000000 /\ total_at 2 s' = Some 20000000 /\
    trace_of s'
    = trace_of scenario_a
      ++ [EvSetTotal 2 20000000; EvDockerLoad base_tar; EvOpen base_tar;
          EvLoadWrite base_tar 8388608; EvLoadWrite base_tar 8388608;
          EvLoadWrite base_tar 3222784].
Proof.
  destruct (archive_load_counts_every_byte demo_env base_tar scenario_a)
    as [Hreturns _].
  - repeat split.
  - apply (bool_decide_unpack _). vm_compute. reflexivity.
  - reflexivity.
  - vm_compute. discriminate.
  - reflexivity.
  - reflexivity.
  - destruct Hreturns as (s' & Hrun & Htick & Htotal & _ & _ & _ & _ & _ & _ & _ & Htrace & _).
    + reflexivity.
    + exists s'. split; [exact Hrun |]. split; [exact Htick |]. split; [exact Htotal |].
      rewrite Htrace. vm_compute. reflexivity.
Defined.

(** X6. An archive reached while the process is shutting down, with the
    delete policy on and collaborators that do not fail: not one byte is
    sent (the counter of level 2 stays at 0 of the size of the file), and
    the archive is removed from the disk all the same and counted as loaded
    at levels 1 and 0. *)
Theorem shutdown_removes_an_unsent_archive (env : Env) (archive : string) (s : State) :
  wf (self s) -> archive ∈ files_of s ->
  is_shutdown (world s) = true -> do_delete (self s) = true ->
  (forall pre ev, fault env pre ev = None) ->
  exists s' t0 t1,
    load_archive_item env archive s = (Ok tt, s') /\
    tick_at 2 s' = Some 0 /\ total_at 2 s' = Some (file_size env archive) /\
    removals (trace_of s') = removals (trace_of s) ++ [archive] /\
    files_of s' = without archive (files_of s) /\
    tick_at 0 s = Some t0 /\ tick_at 0 s' = Some (t0 + 1) /\
    tick_at 1 s = Some t1 /\ tick_at 1 s' = Some (t1 + 1).
Proof.
  intros Hwf Hin Hdown Hdel Hfault. open_state s Hwf.
  unfold files_of in Hin. simpl in Hin, Hdown, Hdel. subst down del.
  unfold load_archive_item, _docker_load_archive, stat_size. run_cbv.
  rewrite (bool_decide_eq_true_2 _ Hin). run_cbv.
  unfold call. run_cbv. rewrite !Hfault. run_cbv.
  rewrite send_chunks_shutdown by reflexivity. run_cbv.
  unfold remove_file. run_cbv.
  rewrite (bool_decide_eq_true_2 _ Hin). run_cbv.
  unfold call. run_cbv. rewrite Hfault. run_cbv.
  rewrite _boot_log_run. run_cbv.
  eexists. exists tk0, tk1. split; [reflexivity |].
  unfold tick_at, total_at, files_of, trace_of, removals, without. simpl.
  rewrite !omap_app. simpl. rewrite !app_nil_r.
  repeat split.
Qed.

Lemma shutdown_removes_an_unsent_archive_witness :
  exists s',
    load_archive_item demo_env base_tar
      (mkState (self scenario_a) (mkWorld [base_tar] [] true []) 60) = (Ok tt, s') /\
    tick_at 2 s' = Some 0 /\ total_at 2 s' = Some 20000000 /\ files_of s' = [].
Proof.
  destruct (shutdown_removes_an_unsent_archive demo_env base_tar
              (mkState (self scenario_a) (mkWorld [base_tar] [] true []) 60))
    as (s' & t0 & t1 & Hrun & Htick & Htotal & _ & Hfiles & _).
  - repeat split.
  - apply (bool_decide_unpack _). vm_compute. reflexivity.
  - reflexivity.
  - reflexivity.
  - reflexivity.
  - exists s'. split; [exact Hrun |]. split; [exact Htick |]. split; [exact Htotal |].
    rewrite Hfiles. vm_compute. reflexivity.
Defined.

(** ** Images: the look-up and the pulls *)

(** X7. [_docker_image_exists], when [docker images] can be run: the answer
    is yes exactly when the name asked for is empty or is the stripped form
    of a line of the listing (the name asked for is not stripped itself, and
    the last, empty field of the split makes the empty name present); the
    look-up leaves the loader, the store and the disk as they are. *)
Theorem image_lookup_matches_stripped_lines (env : Env) (image : string) (s : State) :
  fault env (trace_of s) EvDockerImages = None ->
  exists present s',
    _docker_image_exists env image s = (Ok present, s') /\
    (present = true <->
     image = "" \/ exists line, line ∈ docker_images (world s) /\ strip line = image) /\
    self s' = self s /\ docker_images (world s') = docker_images (world s) /\
    files_of s' = files_of s /\ trace_of s' = trace_of s ++ [EvDockerImages].
Proof.
  intros Hfault. unfold trace_of in Hfault.
  unfold _docker_image_exists, call, bind, get, ret. rewrite Hfault. simpl.
  eexists. eexists. split; [reflexivity |].
  split; [| repeat split].
  rewrite bool_decide_eq_true, fmap_app, elem_of_app, list_elem_of_fmap.
  simpl. rewrite list_elem_of_singleton.
  split.
  - intros [(line & -> & Hline) | ->]; [right; exists line; auto | left; reflexivity].
  - intros [-> | (line & Hline & <-)]; [right; reflexivity | left; exists line; auto].
Qed.

Lemma image_lookup_matches_stripped_lines_witness :
  exists s',
    _docker_image_exists demo_env "" (boot ∅ [] ["duckietown/dt-ui:latest"]) = (Ok true, s').
Proof.
  destruct (image_lookup_matches_stripped_lines demo_env ""
              (boot ∅ [] ["duckietown/dt-ui:latest"]) eq_refl)
    as (present & s' & Hrun & Hpresent & _).
  exists s'. rewrite Hrun. f_equal. f_equal. apply Hpresent. left. reflexivity.
Defined.

(** A pull is one [docker pull] and nothing else on the side of images. *)
Lemma _docker_pull_image_events (env : Env) (image : string) (level : nat) (v : list Event) :
  triple (fun s => image_events (trace_of s) = v) (_docker_pull_image env image level)
         (fun _ s => image_events (trace_of s) = v ++ [EvDockerPull image]).
Proof.
  unfold _docker_pull_image.
  apply (triple_seq_stable (fun s => image_events (trace_of s)) v); [stable_go |]. intros _.
  apply (triple_bind _ (fun _ s => image_events (trace_of s) = v ++ [EvDockerPull image])).
  - intros s [] s' Hv Hcall. apply call_run in Hcall as [_ ->].
    unfold trace_of, image_events in *. simpl. rewrite omap_app, Hv. reflexivity.
  - intros _. apply (triple_end_stable (fun s => image_events (trace_of s))). stable_go.
Qed.

Lemma _docker_image_exists_run (env : Env) (image : string) (s s' : State) (present : bool) :
  _docker_image_exists env image s = (Ok present, s') ->
  s' = on_world (log EvDockerImages) s /\
  present = bool_decide (image ∈ strip <$> (docker_images (world s) ++ [""])).
Proof.
  unfold _docker_image_exists, call, bind, get, ret.
  destruct (fault env _ _); [discriminate |].
  simpl. intros Hrun. injection Hrun as <- <-. split; reflexivity.
Qed.

(** X8. From one state, the two ways an image is handled. For a stack to
    run the store is looked up first, and the image is pulled only if the
    look-up misses it; for a stack to load the image is pulled without a
    look-up, present or not. *)
Theorem only_stacks_to_run_skip_present_images (env : Env) (image : string)
    (s s1 s2 : State) :
  run_stack_image env image s = (Ok tt, s1) ->
  load_stack_image env image s = (Ok tt, s2) ->
  image_events (trace_of s1)
  = image_events (trace_of s)
    ++ EvDockerImages
       :: (if bool_decide (image ∈ strip <$> (docker_images (world s) ++ [""]))
           then [] else [EvDockerPull image]) /\
  image_events (trace_of s2) = image_events (trace_of s) ++ [EvDockerPull image].
Proof.
  intros Hrun Hload. split.
  - unfold run_stack_image in Hrun.
    apply bind_ok in Hrun as (present & sa & Hlook & Hrun).
    apply _docker_image_exists_run in Hlook as [-> ->].
    apply bind_ok in Hrun as ([] & sb & Hpull & Hticks).
    assert (Hkeep : image_events (trace_of s1) = image_events (trace_of sb)).
    { eapply (stable_run (fun s => image_events (trace_of s))); [| exact Hticks]. stable_go. }
    rewrite Hkeep. clear Hkeep Hticks.
    destruct (bool_decide (image ∈ strip <$> (docker_images (world s) ++ [""]))); simpl in Hpull.
    + injection Hpull as <-. unfold trace_of, image_events. simpl.
      rewrite omap_app. reflexivity.
    + apply bind_ok in Hpull as ([] & sc & Hpull & Hlog).
      rewrite _boot_log_run in Hlog. injection Hlog as <-.
      pose proof (_docker_pull_image_events env image 3 _ _ _ _ eq_refl Hpull) as Hev.
      unfold trace_of, image_events in *. simpl in *.
      rewrite omap_app. simpl. rewrite app_nil_r, Hev, omap_app, <- app_assoc. reflexivity.
  - unfold load_stack_image in Hload.
    apply bind_ok in Hload as ([] & sa & Hpull & Hrest).
    pose proof (_docker_pull_image_events env image 3 _ _ _ _ eq_refl Hpull) as Hev.
    rewrite <- Hev.
    eapply (stable_run (fun s => image_events (trace_of s))); [| exact Hrest]. stable_go.
Qed.

(** An image that is in the store: not pulled for a stack to run, pulled
    for a stack to load. *)
Lemma only_stacks_to_run_skip_present_images_witness :
  exists s1 s2,
    run_stack_image demo_env "duckietown/dt-ui:latest" scenario_a = (Ok tt, s1) /\
    load_stack_image demo_env "duckietown/dt-ui:latest" scenario_a = (Ok tt, s2) /\
    image_events (trace_of s1) = [EvDockerImages] /\
    image_events (trace_of s2) = [EvDockerPull "duckietown/dt-ui:latest"].
Proof.
  assert (Hrun : exists s1,
            run_stack_image demo_env "duckietown/dt-ui:latest" scenario_a = (Ok tt, s1)).
  { eexists. vm_compute. reflexivity. }
  assert (Hload : exists s2,
            load_stack_image demo_env "duckietown/dt-ui:latest" scenario_a = (Ok tt, s2)).
  { eexists. vm_compute. reflexivity. }
  destruct Hrun as (s1 & Hrun). destruct Hload as (s2 & Hload).
  destruct (only_stacks_to_run_skip_present_images demo_env _ _ _ _ Hrun Hload) as [H1 H2].
  exists s1, s2. split; [exact Hrun |]. split; [exact Hload |].
  split; [rewrite H1 | rewrite H2]; vm_compute; reflexivity.
Defined.

(** ** A whole pull *)

Lemma layers_after_grows (lines : list string) :
  forall layers : gset string, layers ⊆ layers_after lines layers.
Proof.
  induction lines as [| line rest IH]; intros layers; simpl; [reflexivity |].
  destruct (classify line); [| apply IH | apply IH].
  etrans; [| apply IH]. set_solver.
Qed.

(** Once a line registers a layer, the set of layers is not empty. *)
Lemma layers_after_size (lines : list string) :
  forall layers : gset string,
  registers_any lines = true -> (1 <= size (layers_after lines layers))%nat.
Proof.
  induction lines as [| line rest IH]; intros layers; simpl; [discriminate |].
  destruct (classify line) as [layer | |]; simpl; try apply IH.
  intros _.
  assert (Hin : layer ∈ layers_after rest ({[layer]} ∪ layers)).
  { apply (layers_after_grows rest). set_solver. }
  assert (Hne : size (layers_after rest ({[layer]} ∪ layers)) <> 0%nat).
  { apply size_non_empty_iff. set_solver. }
  lia.
Qed.

(** The layer a line registers, if it registers one, and the distinct
    layers the lines of a stream register. *)
Definition registered (line : string) : option string :=
  match classify line with
  | Registers layer => Some layer
  | _ => None
  end.

Definition layers_seen (lines : list string) : gset string :=
  list_to_set (omap registered lines).

(** The collaborators of [env], except that [docker pull] prints [lines],
    all of them UTF-8. *)
Definition with_pull_output (lines : list string) (env : Env) : Env :=
  mkEnv (file_size env) (yaml_services env) (archive_images env) (docker_load_output env)
    (fun _ => lines) (fun _ => false) (pull_adds env) (disk_usage env) (fault env).

Lemma layers_after_seen (lines : list string) :
  forall layers : gset string, layers_after lines layers = layers_seen lines ∪ layers.
Proof.
  unfold layers_seen, registered.
  induction lines as [| line rest IH]; intros layers; simpl.
  - symmetry. apply union_empty_l_L.
  - rewrite IH. destruct (classify line) as [layer | |]; simpl; [| reflexivity ..].
    rewrite union_assoc_L, (union_comm_L _ {[layer]}). reflexivity.
Qed.

Lemma layers_seen_snoc (lines : list string) (line : string) :
  layers_seen (lines ++ [line])
  = layers_seen lines ∪ match classify line with
                        | Registers layer => {[layer]}
                        | _ => ∅
                        end.
Proof.
  unfold layers_seen, registered. rewrite omap_app, list_to_set_app_L. simpl.
  destruct (classify line); simpl; [rewrite union_empty_r_L |..]; reflexivity.
Qed.

Lemma completions_snoc (lines : list string) (line : string) :
  completions (lines ++ [line])
  = completions lines + match classify line with Completes => 1 | _ => 0 end.
Proof.
  induction lines as [| l rest IH]; simpl.
  - destruct (classify line); reflexivity.
  - rewrite IH. destruct (classify l); lia.
Qed.

Lemma registers_any_snoc (lines : list string) (line : string) :
  registers_any (lines ++ [line])
  = registers_any lines || match classify line with Registers _ => true | _ => false end.
Proof.
  unfold registers_any. rewrite existsb_app. simpl. rewrite orb_false_r. reflexivity.
Qed.

(** Two level lists of four entries that agree at every level are equal. *)
Lemma four_levels_eq {A : Type} (l k : list A) :
  length l = 4%nat -> length k = 4%nat ->
  (forall i, (i < 4)%nat -> l !! i = k !! i) -> l = k.
Proof.
  intros Hl Hk H.
  apply length_four in Hl as (l0 & l1 & l2 & l3 & ->).
  apply length_four in Hk as (k0 & k1 & k2 & k3 & ->).
  pose proof (H 0%nat ltac:(lia)) as H0. pose proof (H 1%nat ltac:(lia)) as H1.
  pose proof (H 2%nat ltac:(lia)) as H2. pose proof (H 3%nat ltac:(lia)) as H3.
  simpl in *. congruence.
Qed.

(** A pull that can be started, on a loader with four levels: every line
    the reader yields is read; the pull then returns, or raises when the
    output was not UTF-8. What it leaves at level 3 is counted from the
    lines read. *)
Lemma _docker_pull_image_result (env : Env) (image : string) (s : State) :
  wf (self s) ->
  (forall pre, fault env pre (EvDockerPull image) = None) ->
  exists s',
    _docker_pull_image env image 3 s
    = (if pull_undecodable env image
       then Raise (UnicodeDecodeError "'utf-8' codec can't decode byte")
       else Ok tt, s') /\
    wf (self s') /\
    action_at 3 s' = Some (Some ("Pulling image: " +:+ image)) /\
    tick_at 3 s' = Some (completions (pull_output env image)) /\
    total_at 3 s'
    = Some (if registers_any (pull_output env image)
            then 2 * Z.of_nat (size (layers_seen (pull_output env image)))
            else 1) /\
    (forall l, (l < 3)%nat ->
       tick_at l s' = tick_at l s /\ total_at l s' = total_at l s /\
       action_at l s' = action_at l s /\ output_at l s' = output_at l s).
Proof.
  intros Hwf Hfault.
  set (lines := pull_output env image).
  assert (Hframe : forall l, (l < 3)%nat ->
            stable (pres (tick_at l)) (_docker_pull_image env image 3) /\
            stable (pres (total_at l)) (_docker_pull_image env image 3) /\
            stable (pres (action_at l)) (_docker_pull_image env image 3) /\
            stable (pres (output_at l)) (_docker_pull_image env image 3)).
  { intros l Hl. repeat split; stable_go. }
  assert (Hlines : forall layers,
            stable (pres (fun s => action (self s))) (read_pull_lines 3 lines layers)).
  { intros layers. stable_go. }
  open_state s Hwf.
  set (s0 := mkState
               (mkCodeLoader tar targz sl sr 4 [tot0; tot1; tot2; 1] [tk0; tk1; tk2; 0]
                  [act0; act1; act2; Some ("Pulling image: " +:+ image)]
                  [out0; out1; out2; Some ""] bsy err excl del)
               (mkWorld fs imgs down ((tr ++ [EvDockerPull image]) ++ [EvSetTotal 3 1])) rp).
  destruct (read_pull_lines_spec 3 lines ∅ s0 "" 0 ltac:(repeat split) ltac:(lia)
              eq_refl eq_refl) as (s1 & Hread & Hwf1 & Htick1 & Htotal1).
  pose proof (stable_run _ _ _ _ _ (Hlines ∅) Hread) as Haction1. simpl in Haction1.
  set (s' := if pull_undecodable env image then s1
             else on_world (fun w =>
                    if pull_adds env image
                    then with_docker_images (docker_images w ++ [image]) w else w) s1).
  assert (Hself : self s' = self s1).
  { unfold s'. destruct (pull_undecodable env image); reflexivity. }
  assert (Hrun : _docker_pull_image env image 3
                   (mkState
                      (mkCodeLoader tar targz sl sr 4 [tot0; tot1; tot2; tot3]
                         [tk0; tk1; tk2; tk3] [act0; act1; act2; act3]
                         [out0; out1; out2; out3] bsy err excl del)
                      (mkWorld fs imgs down tr) rp)
                 = (if pull_undecodable env image
                    then Raise (UnicodeDecodeError "'utf-8' codec can't decode byte")
                    else Ok tt, s')).
  { unfold _docker_pull_image. run_cbv. unfold call. run_cbv. rewrite Hfault. run_cbv.
    fold lines. fold s0. rewrite Hread. unfold s'.
    destruct (pull_undecodable env image); reflexivity. }
  exists s'.
  split; [exact Hrun |].
  split; [rewrite Hself; exact Hwf1 |].
  split; [unfold action_at; rewrite Hself, Haction1; reflexivity |].
  split; [unfold tick_at; rewrite Hself; exact Htick1 |].
  split; [unfold total_at; rewrite Hself; fold (total_at 3 s1); rewrite Htotal1;
          rewrite layers_after_seen, union_empty_r_L;
          destruct (registers_any lines); reflexivity |].
  intros l Hl. destruct (Hframe l Hl) as (Hk & Ht & Ha & Ho).
  rewrite (stable_run _ _ _ _ _ Hk Hrun), (stable_run _ _ _ _ _ Ht Hrun),
    (stable_run _ _ _ _ _ Ha Hrun), (stable_run _ _ _ _ _ Ho Hrun).
  repeat split.
Qed.

(** X9. A pull that can be started reads every line the reader yields,
    whatever the line says: no line makes the parse fail. The pull returns
    when the output of [docker pull] is UTF-8 throughout, and raises
    [UnicodeDecodeError] when it is not, once the lines of the blocks before
    the bad bytes are read. Either way it leaves at level 3 the name of the
    image, a tick equal to the number of completing lines read, and a total
    that is twice the number of distinct layers registered, or 1 when no
    line registered any; the total is never 0. The levels above are not
    written. *)
Theorem pull_reads_every_line (env : Env) (image : string) (s : State) :
  wf (self s) ->
  (forall pre, fault env pre (EvDockerPull image) = None) ->
  exists s' tot,
    _docker_pull_image env image 3 s
    = (if pull_undecodable env image
       then Raise (UnicodeDecodeError "'utf-8' codec can't decode byte")
       else Ok tt, s') /\
    wf (self s') /\
    action_at 3 s' = Some (Some ("Pulling image: " +:+ image)) /\
    tick_at 3 s' = Some (completions (pull_output env image)) /\
    total_at 3 s' = Some tot /\
    tot = (if registers_any (pull_output env image)
           then 2 * Z.of_nat (size (layers_seen (pull_output env image)))
           else 1) /\
    1 <= tot /\
    (forall l, (l < 3)%nat ->
       tick_at l s' = tick_at l s /\ total_at l s' = total_at l s /\
       action_at l s' = action_at l s /\ output_at l s' = output_at l s).
Proof.
  intros Hwf Hfault.
  destruct (_docker_pull_image_result env image s Hwf Hfault)
    as (s' & Hrun & Hwf' & Haction & Htick & Htotal & Hframe).
  exists s'. eexists.
  split; [exact Hrun |]. split; [exact Hwf' |]. split; [exact Haction |].
  split; [exact Htick |]. split; [exact Htotal |]. split; [reflexivity |].
  split; [| exact Hframe].
  destruct (registers_any (pull_output env image)) eqn:Hany; [| lia].
  pose proof (layers_after_size (pull_output env image) ∅ Hany) as Hsize.
  rewrite layers_after_seen, union_empty_r_L in Hsize. lia.
Qed.

Lemma pull_reads_every_line_witness :
  exists s',
    _docker_pull_image demo_env "duckietown/dt-core:latest" 3 scenario_a = (Ok tt, s') /\
    tick_at 3 s' = Some 2 /\ total_at 3 s' = Some 2.
Proof.
  destruct (pull_reads_every_line demo_env "duckietown/dt-core:latest" scenario_a)
    as (s' & tot & Hrun & _ & _ & Htick & Htotal & Htot & _).
  - repeat split.
  - reflexivity.
  - exists s'. split; [exact Hrun |]. split; [exact Htick |].
    rewrite Htotal, Htot. vm_compute. reflexivity.
Defined.

(** *** A stream, line by line *)

(** C8. A pull, line by line. Take any stream [before] of lines and any
    line [line], and compare the pull of an image when [docker pull] prints
    [before] with the pull when it prints [before] and then [line]. Both
    return. After [before], the tick of level 3 is the number of completing
    lines of [before] and the total is twice the number of distinct layers
    its lines registered (1 when none did). The one more line adds this: a
    line of the class Waiting / Pulling fs layer adds its layer to the
    layers seen and the total becomes twice their number, no tick changes;
    a line of the class Download complete / Pull complete adds one to the
    tick of level 3, no total changes; any other line changes no tick and
    no total. *)
Theorem pull_stream_effect (env : Env) (image : string) (before : list string)
    (line : string) (s : State) :
  wf (self s) ->
  (forall pre, fault env pre (EvDockerPull image) = None) ->
  exists s1 s2,
    _docker_pull_image (with_pull_output before env) image 3 s = (Ok tt, s1) /\
    _docker_pull_image (with_pull_output (before ++ [line]) env) image 3 s = (Ok tt, s2) /\
    tick_at 3 s1 = Some (completions before) /\
    total_at 3 s1
    = Some (if registers_any before then 2 * Z.of_nat (size (layers_seen before)) else 1) /\
    match classify line with
    | Registers layer =>
        layers_seen (before ++ [line]) = layers_seen before ∪ {[layer]} /\
        total_at 3 s2 = Some (2 * Z.of_nat (size (layers_seen (before ++ [line])))) /\
        tick (self s2) = tick (self s1)
    | Completes =>
        tick_at 3 s2 = Some (completions before + 1) /\
        total (self s2) = total (self s1)
    | Other =>
        tick (self s2) = tick (self s1) /\
        total (self s2) = total (self s1)
    end.
Proof.
  intros Hwf Hfault.
  destruct (_docker_pull_image_result (with_pull_output before env) image s Hwf Hfault)
    as (s1 & Hrun1 & Hwf1 & _ & Htick1 & Htotal1 & Hframe1).
  destruct (_docker_pull_image_result (with_pull_output (before ++ [line]) env) image s
              Hwf Hfault)
    as (s2 & Hrun2 & Hwf2 & _ & Htick2 & Htotal2 & Hframe2).
  simpl in Hrun1, Hrun2, Htick1, Htick2, Htotal1, Htotal2.
  rewrite completions_snoc in Htick2. rewrite registers_any_snoc in Htotal2.
  assert (Hticks : tick_at 3 s2 = tick_at 3 s1 -> tick (self s2) = tick (self s1)).
  { intros H3. destruct Hwf1 as (_ & _ & Hl1 & _). destruct Hwf2 as (_ & _ & Hl2 & _).
    apply four_levels_eq; [exact Hl2 | exact Hl1 |].
    intros i Hi. destruct (decide (i = 3%nat)) as [-> | Hne]; [exact H3 |].
    destruct (Hframe1 i ltac:(lia)) as (E1 & _). destruct (Hframe2 i ltac:(lia)) as (E2 & _).
    unfold tick_at in E1, E2. congruence. }
  assert (Htotals : total_at 3 s2 = total_at 3 s1 -> total (self s2) = total (self s1)).
  { intros H3. destruct Hwf1 as (_ & Hl1 & _). destruct Hwf2 as (_ & Hl2 & _).
    apply four_levels_eq; [exact Hl2 | exact Hl1 |].
    intros i Hi. destruct (decide (i = 3%nat)) as [-> | Hne]; [exact H3 |].
    destruct (Hframe1 i ltac:(lia)) as (_ & E1 & _).
    destruct (Hframe2 i ltac:(lia)) as (_ & E2 & _).
    unfold total_at in E1, E2. congruence. }
  exists s1, s2.
  split; [exact Hrun1 |]. split; [exact Hrun2 |]. split; [exact Htick1 |].
  split; [exact Htotal1 |].
  pose proof (layers_seen_snoc before line) as Hseen.
  destruct (classify line) as [layer | |].
  - rewrite orb_true_r in Htotal2.
    split; [exact Hseen |]. split; [exact Htotal2 |].
    apply Hticks. rewrite Htick1, Htick2, Z.add_0_r. reflexivity.
  - rewrite orb_false_r in Htotal2.
    split; [exact Htick2 |].
    apply Htotals. rewrite Htotal1, Htotal2, Hseen, union_empty_r_L. reflexivity.
  - rewrite orb_false_r in Htotal2.
    split.
    + apply Hticks. rewrite Htick1, Htick2, Z.add_0_r. reflexivity.
    + apply Htotals. rewrite Htotal1, Htotal2, Hseen, union_empty_r_L. reflexivity.
Qed.

(** A second layer after a first one and its download: the total goes from
    2 to 4, the tick stays at 1. *)
Lemma pull_stream_effect_witness :
  exists s1 s2,
    _docker_pull_image
      (with_pull_output ["a3ed95caeb02: Pulling fs layer"; "a3ed95caeb02: Download complete"]
         demo_env)
      "duckietown/dt-core:latest" 3 scenario_a = (Ok tt, s1) /\
    _docker_pull_image
      (with_pull_output ["a3ed95caeb02: Pulling fs layer"; "a3ed95caeb02: Download complete";
                         "b0f9a5ce4c1d: Waiting"] demo_env)
      "duckietown/dt-core:latest" 3 scenario_a = (Ok tt, s2) /\
    tick_at 3 s1 = Some 1 /\ total_at 3 s1 = Some 2 /\
    tick_at 3 s2 = Some 1 /\ total_at 3 s2 = Some 4.
Proof.
  destruct (pull_stream_effect demo_env "duckietown/dt-core:latest"
              ["a3ed95caeb02: Pulling fs layer"; "a3ed95caeb02: Download complete"]
              "b0f9a5ce4c1d: Waiting" scenario_a)
    as (s1 & s2 & Hrun1 & Hrun2 & Htick1 & Htotal1 & Hline).
  - repeat split.
  - reflexivity.
  - assert (Hclass : classify "b0f9a5ce4c1d: Waiting" = Registers "b0f9a5ce4c1d")
      by (vm_compute; reflexivity).
    rewrite Hclass in Hline. destruct Hline as (_ & Htotal2 & Hticks).
    exists s1, s2. split; [exact Hrun1 |]. split; [exact Hrun2 |].
    split; [rewrite Htick1; vm_compute; reflexivity |].
    split; [rewrite Htotal1; vm_compute; reflexivity |].
    split; [unfold tick_at; rewrite Hticks; fold (tick_at 3 s1); rewrite Htick1;
            vm_compute; reflexivity |].
    rewrite Htotal2. vm_compute. reflexivity.
Defined.

(** ** The boot log *)

(** The collaborators of [env], except that a write to the boot log fails
    as [f] says. *)
Definition with_boot_log_faults (f : list Event -> string -> string -> option exn)
    (env : Env) : Env :=
  mkEnv (file_size env) (yaml_services env) (archive_images env) (docker_load_output env)
    (pull_output env) (pull_undecodable env) (pull_adds env) (disk_usage env)
    (fun pre ev =>
       match ev with
       | EvBootLog phase msg => f pre phase msg
       | _ => fault env pre ev
       end).

Lemma _boot_log_deaf (f : list Event -> string -> string -> option exn) (env : Env) :
  _boot_log (with_boot_log_faults f env) = _boot_log env.
Proof.
  apply functional_extensionality. intros phase.
  apply functional_extensionality. intros message.
  apply functional_extensionality. intros s.
  rewrite !_boot_log_run. reflexivity.
Qed.

Lemma _run_deaf (f : list Event -> string -> string -> option exn) (env : Env) :
  _run (with_boot_log_faults f env) = _run env.
Proof.
  unfold _run, run_phases, load_archive_item, run_stack_item, run_stack_images,
    run_stack_image, run_stack_up, load_stack_item, load_stack_image.
  rewrite !_boot_log_deaf. reflexivity.
Qed.

Lemma start_loop_deaf (f : list Event -> string -> string -> option exn) (env : Env)
    (fuel : nat) :
  start_loop (with_boot_log_faults f env) fuel = start_loop env fuel.
Proof.
  induction fuel as [| n IH]; [reflexivity |].
  simpl. rewrite IH. unfold start_cycle, cycle_body. rewrite _run_deaf. reflexivity.
Qed.

(** X10. The boot log is best effort: make the writes to it fail in any way
    whatever, and a run of [start] has the same outcome and leaves the same
    loader, the same disk, the same store and the same history of calls:
    a failed write is swallowed where it happens and changes nothing. *)
Theorem boot_log_failures_change_nothing
    (f : list Event -> string -> string -> option exn) (env : Env) (fuel : nat) (s : State) :
  start (with_boot_log_faults f env) fuel s = start env fuel s.
Proof. unfold start. rewrite start_loop_deaf. reflexivity. Qed.

(** ** Levels out of range *)

(** X11. The loader has levels 0 to 3. At any level from 4 on, each
    operation on the progress tree raises [IndexError] and leaves the
    loader as it was: a total, a tick or a status is not written to another
    level instead, and a status write does not clear anything first. *)
Theorem level_out_of_range_raises (level : nat) (a : string) (v : Z) (s : State) :
  wf (self s) -> (4 <= level)%nat ->
  _set_total level v s = (Raise IndexError, s) /\
  _set_tick level v s = (Raise IndexError, s) /\
  _tick level s = (Raise IndexError, s) /\
  _set_action level a s = (Raise IndexError, s) /\
  _set_status level a v s = (Raise IndexError, s).
Proof.
  intros (Hml & Htot & Htk & Hact & Hout) Hlevel.
  assert (Hk : (level <? length (tick (self s)))%nat = false)
    by (apply Nat.ltb_ge; lia).
  assert (Ht : (level <? length (total (self s)))%nat = false)
    by (apply Nat.ltb_ge; lia).
  assert (Ha : (level <? length (action (self s)))%nat = false)
    by (apply Nat.ltb_ge; lia).
  assert (Hget : tick (self s) !! level = None)
    by (apply lookup_ge_None; lia).
  assert (Hrange : range (level + 1) (max_level (self s)) = []).
  { unfold range. replace (max_level (self s) - (level + 1))%nat with 0%nat by lia.
    reflexivity. }
  assert (Htick : _set_tick level v s = (Raise IndexError, s)).
  { unfold _set_tick, store_tick, bind, get, lift, setitem. rewrite Hk. reflexivity. }
  split.
  { unfold _set_total, store_total, bind, get, lift, setitem. rewrite Ht. reflexivity. }
  split; [exact Htick |].
  split.
  { unfold _tick, bind, get, lift, getitem. rewrite Hget. reflexivity. }
  split.
  { unfold _set_action. unfold bind at 1, get. rewrite Hrange.
    unfold for_each, store_action, bind, get, ret, lift, setitem. rewrite Ha. reflexivity. }
  unfold _set_status. rewrite (bind_raise _ _ _ _ _ Htick). reflexivity.
Qed.

Lemma level_out_of_range_raises_witness :
  _set_status 4 "Loading" 0 scenario_a = (Raise IndexError, scenario_a).
Proof.
  refine (proj2 (proj2 (proj2 (proj2
            (level_out_of_range_raises 4 "Loading" 0 scenario_a _ _))))).
  - repeat split.
  - lia.
Defined.

(** ** The listing of a scan *)

(** [s * n] *)
Fixpoint str_mul (s : string) (n : nat) : string :=
  match n with
  | O => ""
  | S n' => s +:+ str_mul s n'
  end.

Definition tab : string := String (ascii_of_nat 9) "".
Definition newline : ascii := ascii_of_nat 10.

(** [list_files(lst, bullet, indent)]; the callers leave [bullet] at ['-']
    and [indent] at 1. *)
Definition list_files (lst : list string) (bullet : string) (indent : nat) : string :=
  match lst with
  | [] => str_mul tab indent +:+ "(none)"
  | _ =>
      let pre := str_mul tab indent +:+ bullet +:+ " " in
      pre +:+ String.concat (String newline pre) lst
  end.

Example list_files_two :
  list_files ["base.tar"; "tools.tar"] "-" 1
  = tab +:+ "- base.tar" +:+ String newline (tab +:+ "- tools.tar").
Proof. reflexivity. Qed.

Lemma free_of_append (c : ascii) (s t : string) :
  free_of c (s +:+ t) = free_of c s && free_of c t.
Proof.
  unfold free_of. induction s as [| x s IH]; simpl; [reflexivity |].
  rewrite IH, andb_assoc. reflexivity.
Qed.

Lemma free_of_str_mul (c : ascii) (s : string) (n : nat) :
  free_of c s = true -> free_of c (str_mul s n) = true.
Proof.
  intros Hs. induction n as [| n IH]; simpl; [reflexivity |].
  rewrite free_of_append, Hs, IH. reflexivity.
Qed.

Lemma append_assoc (s t u : string) : (s +:+ t) +:+ u = s +:+ t +:+ u.
Proof.
  induction s as [| x s IH]; [reflexivity |].
  rewrite !append_cons. f_equal. exact IH.
Qed.

(** The lines of names joined by a newline and a prefix. *)
Lemma split_prefixed (pre : string) (names : list string) :
  free_of newline pre = true -> Forall (fun n => free_of newline n = true) names ->
  names <> [] ->
  split newline (pre +:+ String.concat (String newline pre) names)
  = (fun n => pre +:+ n) <$> names.
Proof.
  intros Hpre Hfree Hne.
  induction names as [| n names IH]; [contradiction |].
  apply Forall_cons in Hfree as [Hn Hnames].
  destruct names as [| m names].
  - simpl. apply split_free. rewrite free_of_append, Hpre, Hn. reflexivity.
  - change (String.concat (String newline pre) (n :: m :: names))
      with (n +:+ String newline pre +:+ String.concat (String newline pre) (m :: names)).
    rewrite <- append_assoc.
    change (String newline pre +:+ String.concat (String newline pre) (m :: names))
      with (String newline (pre +:+ String.concat (String newline pre) (m :: names))).
    rewrite split_free_append by (rewrite free_of_append, Hpre, Hn; reflexivity).
    rewrite IH by (assumption || discriminate). reflexivity.
Qed.

(** X12. The listing [list_files] prints for a list of names that is not
    empty has one line per name, in the order of the list, each made of the
    indentation, the bullet, a blank and the name: splitting the listing at
    the newlines gives the names back behind that prefix. (No name and no
    bullet holds a newline.) The listing of the empty list is the one line
    "(none)" behind the indentation. *)
Theorem list_files_one_line_per_file (lst : list string) (bullet : string) (indent : nat) :
  free_of newline bullet = true -> Forall (fun n => free_of newline n = true) lst ->
  split newline (list_files lst bullet indent)
  = match lst with
    | [] => [str_mul tab indent +:+ "(none)"]
    | _ => (fun name => str_mul tab indent +:+ bullet +:+ " " +:+ name) <$> lst
    end.
Proof.
  intros Hbullet Hfree.
  assert (Htabs : free_of newline (str_mul tab indent) = true)
    by (apply free_of_str_mul; reflexivity).
  destruct lst as [| n names].
  - unfold list_files. apply split_free. rewrite free_of_append, Htabs. reflexivity.
  - unfold list_files. cbv zeta.
    rewrite split_prefixed; [| | exact Hfree | discriminate].
    + apply list_fmap_ext. intros i name _. rewrite !append_assoc. reflexivity.
    + rewrite !free_of_append, Htabs, Hbullet. reflexivity.
Qed.

Lemma list_files_one_line_per_file_witness :
  split newline (list_files ["base.tar"; "tools.tar"] "-" 1)
  = [tab +:+ "- base.tar"; tab +:+ "- tools.tar"].
Proof.
  rewrite (list_files_one_line_per_file ["base.tar"; "tools.tar"] "-" 1).
  - reflexivity.
  - reflexivity.
  - repeat constructor.
Defined.

(** ** What a pass never does *)

(** Where the delete policy is off, the disk as the policy sees it; where
    it is on, nothing. *)
Definition kept (env : Env) (s : State)
    : option (bool * list string * list string * list string) :=
  if do_delete (self s) then None else Some (disk env s).

(** The one removal of an item, under the test of the policy. *)
Lemma stable_guarded_remove (env : Env) (p : string) (k : M unit) :
  stable (pres (kept env)) k ->
  stable (pres (kept env))
    (s <- get ;; (if do_delete (self s) then remove_file env p else ret tt) ;; k).
Proof.
  intros Hk s. unfold bind at 1, get.
  destruct (do_delete (self s)) eqn:Hdel.
  - assert (Hself : stable (pres (fun s => do_delete (self s))) (remove_file env p ;; k)).
    { apply stable_bind; [tc_solve | stable_go |]. intros _.
      intros s0. specialize (Hk s0). unfold pres, kept in *.
      destruct (do_delete (self (k s0).2)), (do_delete (self s0)); congruence. }
    specialize (Hself s). unfold pres, kept in *. rewrite Hself, Hdel. reflexivity.
  - apply (stable_bind (pres (kept env))); [apply stable_ret; tc_solve |].
    intros _. exact Hk.
Qed.

Lemma load_archive_item_kept (env : Env) (archive : string) :
  stable (pres (kept env)) (load_archive_item env archive).
Proof.
  unfold load_archive_item.
  apply stable_bind; [tc_solve | unfold kept; stable_go |]. intros _.
  apply stable_guarded_remove. unfold kept. stable_go.
Qed.

Lemma load_stack_item_kept (env : Env) (d : gmap string (list string)) (stack : string) :
  stable (pres (kept env)) (load_stack_item env d stack).
Proof.
  unfold load_stack_item.
  apply stable_bind; [tc_solve | unfold kept; stable_go |]. intros images.
  apply stable_bind; [tc_solve | unfold kept; stable_go |]. intros _.
  apply stable_bind; [tc_solve | unfold kept; stable_go |]. intros _.
  apply stable_bind; [tc_solve | unfold kept; stable_go |]. intros images'.
  apply stable_bind; [tc_solve | unfold kept; stable_go |]. intros _.
  apply stable_guarded_remove. unfold kept. stable_go.
Qed.

Lemma phase_kept (env : Env) (items : CodeLoader -> list string) (status : string)
    (body : string -> M unit) :
  (forall x, stable (pres (kept env)) (body x)) ->
  stable (pres (kept env)) (phase items status body).
Proof.
  intros Hbody. unfold phase.
  apply stable_bind; [tc_solve | apply stable_get; tc_solve |]. intros s.
  apply stable_bind; [tc_solve | unfold kept; stable_go |]. intros _.
  apply stable_bind; [tc_solve | unfold kept; stable_go |]. intros _.
  apply stable_bind; [tc_solve | apply stable_get; tc_solve |]. intros s'.
  apply stable_for_each; [tc_solve |]. intros x _. apply Hbody.
Qed.

Lemma _run_kept (env : Env) : stable (pres (kept env)) (_run env).
Proof.
  unfold _run.
  apply stable_bind; [tc_solve | unfold kept; stable_go |]. intros _.
  apply stable_bind; [tc_solve | apply stable_get; tc_solve |]. intros s.
  apply stable_bind; [tc_solve | unfold kept; stable_go |]. intros d_load.
  apply stable_bind; [tc_solve | unfold kept; stable_go |]. intros d_run.
  apply stable_bind; [tc_solve | unfold kept; stable_go |]. intros _.
  apply stable_bind; [tc_solve | unfold kept; stable_go |]. intros _.
  apply stable_bind; [tc_solve | | intros _; unfold kept; stable_go].
  unfold run_phases.
  apply stable_bind; [tc_solve | apply phase_kept, load_archive_item_kept |]. intros _.
  apply stable_bind; [tc_solve | apply phase_kept, load_archive_item_kept |]. intros _.
  apply stable_bind;
    [tc_solve | apply phase_kept; intros x; unfold kept; stable_go |]. intros _.
  apply stable_bind; [tc_solve | apply phase_kept, load_stack_item_kept |]. intros _.
  unfold kept. stable_go.
Qed.

Lemma start_kept (env : Env) (fuel : nat) : stable (pres (kept env)) (start env fuel).
Proof.
  assert (Hloop : stable (pres (kept env)) (start_loop env fuel)).
  { induction fuel as [| n IH]; simpl.
    - apply stable_ret; tc_solve.
    - apply stable_bind; [tc_solve | apply stable_get; tc_solve |].
      intros s. destruct (is_shutdown (world s)); [apply stable_ret; tc_solve |].
      apply stable_bind; [tc_solve | | intros _; exact IH].
      unfold start_cycle.
      apply stable_try_finally; [tc_solve | | unfold kept; stable_go].
      apply stable_try_except; [tc_solve | | intros e; unfold kept; stable_go].
      unfold cycle_body.
      apply stable_bind; [tc_solve | unfold kept; stable_go |]. intros _.
      apply stable_bind; [tc_solve | apply _run_kept |]. intros _.
      unfold kept. stable_go. }
  unfold start.
  apply stable_bind; [tc_solve | unfold kept; stable_go |]. intros _.
  apply stable_bind; [tc_solve | unfold kept; stable_go |]. intros _.
  apply stable_bind; [tc_solve | unfold kept; stable_go |]. intros _.
  apply stable_bind; [tc_solve | exact Hloop |]. intros _.
  unfold kept. stable_go.
Qed.

(** X13. With [NO_DELETE] set to 1 the loader never removes a file: after
    any run of [start] (any number of passes, any failure of any
    collaborator, returning or raising) the disk holds the files it held,
    and the run called [os.remove] not once. *)
Theorem no_delete_keeps_every_file (env : Env) (environ : gmap string string)
    (w : World) (rp : Z) (fuel : nat) :
  environ !! "NO_DELETE" = Some "1" ->
  let s := mkState (__init__ environ) w rp in
  let s' := (start env fuel s).2 in
  files_of s' = files_of s /\ removals (trace_of s') = removals (trace_of s).
Proof.
  intros Henv s s'.
  pose proof (start_kept env fuel s) as Hkept. fold s' in Hkept.
  assert (Hoff : do_delete (self s) = false).
  { unfold s, __init__. simpl. rewrite Henv. reflexivity. }
  unfold pres, kept in Hkept. rewrite Hoff in Hkept.
  destruct (do_delete (self s')); [discriminate |].
  unfold disk in Hkept. split; congruence.
Qed.

Lemma no_delete_keeps_every_file_witness :
  files_of (start demo_env 2
              (mkState (__init__ {["NO_DELETE" := "1"]})
                 (mkWorld [base_tar; extra_yaml] [] false []) 60)).2
  = [base_tar; extra_yaml].
Proof.
  exact (proj1 (no_delete_keeps_every_file demo_env {["NO_DELETE" := "1"]}
                  (mkWorld [base_tar; extra_yaml] [] false []) 60 2 eq_refl)).
Defined.

(** ** The status after a failure *)

Lemma bind_raise_inv {A B : Type} (m : M A) (k : A -> M B) (s s' : State) (e : exn) :
  bind m k s = (Raise e, s') ->
  m s = (Raise e, s') \/ exists a s1, m s = (Ok a, s1) /\ k a s1 = (Raise e, s').
Proof.
  unfold bind. destruct (m s) as [[a | e0] s1]; [eauto |].
  intros H. left. injection H as -> ->. reflexivity.
Qed.

(** A cycle that raises does so before its last line, so that the loader
    is left busy. *)
Lemma _run_raises_busy (env : Env) (s s' : State) (e : exn) :
  _run env s = (Raise e, s') -> busy (self s') = true.
Proof.
  intros Hrun. unfold _run in Hrun.
  unfold bind at 1, modify in Hrun. unfold bind at 1, get in Hrun.
  set (sb := on_self (with_busy true) s) in *.
  assert (Hb : busy (self sb) = true) by reflexivity.
  clearbody sb.
  repeat match type of Hrun with
         | _ => progress cbv beta zeta in Hrun
         | bind ?m _ ?s0 = (Raise _, _) =>
             let Hs := fresh "Hs" in
             let Hm := fresh "Hm" in
             let a := fresh "a" in
             let s1 := fresh "s" in
             assert (Hs : stable (pres (fun s => busy (self s))) m) by stable_go;
             apply bind_raise_inv in Hrun as [Hm | (a & s1 & Hm & Hrun)];
             [ rewrite (stable_run _ _ _ _ _ Hs Hm); exact Hb
             | apply (stable_run _ _ _ _ _ Hs) in Hm;
               rewrite Hb in Hm; clear Hb Hs; rename Hm into Hb ]
         end.
  discriminate.
Qed.

(** X14. A pass whose scan returned and whose cycle raised, on a loader
    with four levels and the error flag off: the pass ends with the
    [TypeError] of the handler, and the loader it leaves is busy; a status
    read after the failure says "busy", not "error" and not "ready", unless
    the disk usage of the data directory cannot be read, in which case the
    status read raises what [psutil.disk_usage] raises. *)
Theorem failed_cycle_reads_busy (env : Env) (s s1 : State) (e : exn) :
  wf (self s) -> error (self s) = false ->
  _run env (_load_configuration s).2 = (Raise e, s1) ->
  exists s',
    start_cycle env s
    = (Raise (TypeError "sequence item 0: expected str instance, type found"), s') /\
    busy (self s') = true /\
    match disk_usage env LOADER_DATA_DIR with
    | Ok _ => exists st, get_status env (self s') = Ok st /\ st_status st = "busy"
    | Raise e' => get_status env (self s') = Raise e'
    end.
Proof.
  intros Hwf Herr Hrun.
  destruct (_load_configuration_run s) as (s0 & Hscan & _).
  rewrite Hscan in Hrun. simpl in Hrun.
  assert (Hbody : cycle_body env s = (Raise e, s1)).
  { unfold cycle_body. rewrite (bind_run _ _ _ _ _ Hscan).
    apply bind_raise. exact Hrun. }
  pose proof (stable_run static _ _ _ _ (cycle_body_static env) Hbody) as Hst.
  assert (Hwf1 : wf (self s1)).
  { unfold static in Hst. unfold wf in *.
    injection Hst as Hml Hlt Hlk Hla Hlo _ _ _ _. rewrite Hml, Hlt, Hlk, Hla, Hlo.
    exact Hwf. }
  assert (Herr1 : error (self s1) = false) by (unfold static in Hst; congruence).
  exists (on_world (log (EvSleep (recheck_period s1))) (on_world (log EvPrinterStop) s1)).
  split.
  { unfold start_cycle, try_finally, try_except. rewrite Hbody, on_exception_raises.
    reflexivity. }
  change (self (on_world (log (EvSleep (recheck_period s1)))
                  (on_world (log EvPrinterStop) s1))) with (self s1).
  split; [exact (_run_raises_busy env _ _ _ Hrun) |].
  destruct (disk_usage env LOADER_DATA_DIR) as [du | e'] eqn:Hdisk.
  - destruct (get_status_returns env (self s1) du Hdisk Hwf1) as (st & Hread & Hname & _).
    rewrite Herr1, (_run_raises_busy env _ _ _ Hrun) in Hname.
    exists st. split; assumption.
  - exact (get_status_raises env (self s1) e' Hdisk).
Qed.

(** A stack to run whose manifest has no services. *)
Lemma failed_cycle_reads_busy_witness :
  exists s' st,
    start_cycle demo_env (boot ∅ [broken_yaml] [])
    = (Raise (TypeError "sequence item 0: expected str instance, type found"), s') /\
    get_status demo_env (self s') = Ok st /\ st_status st = "busy".
Proof.
  assert (Hrun : exists e s1,
            _run demo_env (_load_configuration (boot ∅ [broken_yaml] [])).2 = (Raise e, s1)).
  { eexists. eexists. vm_compute. reflexivity. }
  destruct Hrun as (e & s1 & Hrun).
  destruct (failed_cycle_reads_busy demo_env (boot ∅ [broken_yaml] []) s1 e)
    as (s' & Hcycle & _ & Hstatus).
  - repeat split.
  - reflexivity.
  - exact Hrun.
  - change (exists st, get_status demo_env (self s') = Ok st /\ st_status st = "busy")
      in Hstatus.
    destruct Hstatus as (st & Hread & Hname).
    exists s', st. auto.
Defined.

(** ** The bring-ups of a cycle *)

(** The exclude list and the bring-ups so far. *)
Definition ups (s : State) : list string * list (string * string) :=
  (exclude_run (self s), compose_ups (trace_of s)).

(** What a stack to run adds to the bring-ups, under the exclude list. *)
Definition bring_up (stack : string) (v : list string * list (string * string))
    : list string * list (string * string) :=
  (v.1,
   v.2 ++ (if bool_decide (lower (stack_name_of stack) ∈ v.1) then []
           else [(stack_name_of stack, stack)])).

Lemma _docker_run_stack_ups (env : Env) (stack : string) (level : nat)
    (v : list string * list (string * string)) :
  triple (fun s => ups s = v) (_docker_run_stack env stack level)
         (fun _ s => ups s = (v.1, v.2 ++ [(stack_name_of stack, stack)])).
Proof.
  unfold _docker_run_stack.
  apply (triple_seq_stable ups v); [unfold ups; stable_go |]. intros _.
  apply (triple_seq_stable ups v); [unfold ups; stable_go |]. intros _.
  apply (triple_bind _ (fun _ s => ups s = (v.1, v.2 ++ [(stack_name_of stack, stack)]))).
  - intros s [] s' Hv Hcall. apply call_run in Hcall as [_ ->].
    unfold ups, trace_of, compose_ups in *. simpl. rewrite omap_app. simpl.
    rewrite <- Hv. reflexivity.
  - intros _. apply (triple_end_stable ups). unfold ups. stable_go.
Qed.

Lemma run_stack_item_ups (env : Env) (d : gmap string (list string)) (stack : string)
    (v : list string * list (string * string)) :
  triple (fun s => ups s = v) (run_stack_item env d stack)
         (fun _ s => ups s = bring_up stack v).
Proof.
  unfold run_stack_item.
  apply (triple_seq_stable ups v); [unfold ups; stable_go |]. intros _.
  unfold run_stack_up.
  intros s [] s' Hv Hrun.
  unfold bind at 1, get in Hrun.
  apply bind_ok in Hrun as ([] & s1 & Hup & Hrest).
  assert (Hsame : ups s' = ups s1).
  { eapply (stable_run ups); [| exact Hrest]. unfold ups. stable_go. }
  rewrite Hsame. clear Hsame Hrest. unfold bring_up.
  assert (Hex : exclude_run (self s) = v.1) by (rewrite <- Hv; reflexivity).
  rewrite Hex in Hup.
  destruct (bool_decide (lower (stack_name_of stack) ∈ v.1)); simpl in Hup.
  - injection Hup as <-. rewrite Hv, app_nil_r. destruct v; reflexivity.
  - apply bind_ok in Hup as ([] & s2 & Hcompose & Hlog).
    rewrite _boot_log_run in Hlog. injection Hlog as <-.
    rewrite <- (_docker_run_stack_ups env stack 3 v s tt s2 Hv Hcompose).
    unfold ups, trace_of, compose_ups. simpl. rewrite omap_app. simpl.
    rewrite app_nil_r. reflexivity.
Qed.

(** A phase does to [f] what its items do, in their order, when its
    prelude leaves [f] alone. *)
Lemma phase_folds {X : Type} (f : State -> X) (step : string -> X -> X)
    (items : CodeLoader -> list string) (status : string) (body : string -> M unit)
    (s s' : State) :
  (forall s1 s2, config s1 = config s2 -> items (self s1) = items (self s2)) ->
  (forall n, stable (pres f) (_set_total 1 n ;; _set_status 1 status 0)) ->
  (forall x v, triple (fun s => f s = v) (body x) (fun _ s => f s = step x v)) ->
  phase items status body s = (Ok tt, s') ->
  f s' = foldl (fun v x => step x v) (f s) (items (self s)).
Proof.
  intros Hitems Hpre Hbody Hrun.
  destruct (phase_run items status body s s' Hitems Hrun) as (s2 & Hprelude & Hloop).
  eapply (for_each_folds f step body _ Hbody (f s)); [| exact Hloop].
  exact (stable_run f _ _ _ _ (Hpre _) Hprelude).
Qed.

Lemma foldl_bring_up (E : list string) (stacks : list string) :
  forall v : list (string * string),
  foldl (fun v x => bring_up x v) (E, v) stacks
  = (E, v ++ ((fun stack => (stack_name_of stack, stack))
              <$> List.filter (fun stack => negb (bool_decide (lower (stack_name_of stack) ∈ E)))
                    stacks)).
Proof.
  induction stacks as [| stack stacks IH]; intros v; simpl.
  - rewrite app_nil_r. reflexivity.
  - unfold bring_up at 2. simpl. rewrite IH.
    destruct (bool_decide (lower (stack_name_of stack) ∈ E)); simpl.
    + rewrite app_nil_r. reflexivity.
    + rewrite <- app_assoc. reflexivity.
Qed.

(** X15. The bring-ups of a cycle that returns: [docker-compose up] is run
    once for every stack to run whose lower-cased name is not in the exclude
    list, in the order of the scan, with the name and the path of the
    stack, and for nothing else; no archive and no stack to load is ever
    brought up. *)
Theorem cycle_brings_up_the_included_stacks (env : Env) (s s' : State) :
  _run env s = (Ok tt, s') ->
  compose_ups (trace_of s')
  = compose_ups (trace_of s)
    ++ ((fun stack => (stack_name_of stack, stack))
        <$> List.filter
              (fun stack => negb (bool_decide (lower (stack_name_of stack) ∈ exclude_run (self s))))
              (stacks_to_run_yaml (self s))).
Proof.
  intros Hrun. unfold _run in Hrun.
  unfold bind at 1, modify in Hrun. unfold bind at 1, get in Hrun.
  apply bind_ok in Hrun as (d_load & s0 & Hload & Hrun).
  apply read_stacks_spec in Hload as [-> _].
  apply bind_ok in Hrun as (d_run & s0 & Hrunning & Hrun).
  apply read_stacks_spec in Hrunning as [-> _].
  apply bind_ok in Hrun as ([] & s1 & Htotal & Hrun).
  apply bind_ok in Hrun as ([] & s2 & Hstatus & Hrun).
  apply bind_ok in Hrun as ([] & s3 & Hphases & Hdone).
  unfold modify in Hdone. injection Hdone as <-.
  assert (U1 : ups s1 = ups s).
  { eapply (stable_run ups) in Htotal; [exact Htotal | unfold ups; stable_go]. }
  assert (U2 : ups s2 = ups s1).
  { eapply (stable_run ups); [| exact Hstatus]. unfold ups. stable_go. }
  assert (C1 : config s1 = config s).
  { eapply (stable_run config) in Htotal; [exact Htotal | stable_go]. }
  assert (C2 : config s2 = config s1).
  { eapply (stable_run config); [| exact Hstatus]. stable_go. }
  destruct (run_phases_run env d_load d_run s2 s3 Hphases)
    as (p1 & p2 & p3 & p4 & H1 & H2 & H3 & H4 & K1 & K2 & K3 & ->).
  assert (Hpre : forall status n,
            stable (pres ups) (_set_total 1 n ;; _set_status 1 status 0)).
  { intros status n. unfold ups. stable_go. }
  assert (Harchive : forall x, stable (pres ups) (load_archive_item env x)).
  { intros x. unfold ups. stable_go. }
  assert (Hstack : forall x, stable (pres ups) (load_stack_item env d_load x)).
  { intros x. unfold ups. stable_go. }
  pose proof (phase_folds ups (fun _ v => v) images_to_load_tar _ _ _ _
                ltac:(config_proj) (Hpre _)
                (fun x v => triple_end_stable ups v _ (Harchive x)) H1) as D1.
  pose proof (phase_folds ups (fun _ v => v) images_to_load_tar_gz _ _ _ _
                ltac:(config_proj) (Hpre _)
                (fun x v => triple_end_stable ups v _ (Harchive x)) H2) as D2.
  pose proof (phase_folds ups bring_up stacks_to_run_yaml _ _ _ _
                ltac:(config_proj) (Hpre _) (run_stack_item_ups env d_run) H3) as D3.
  pose proof (phase_folds ups (fun _ v => v) stacks_to_load_yaml _ _ _ _
                ltac:(config_proj) (Hpre _)
                (fun x v => triple_end_stable ups v _ (Hstack x)) H4) as D4.
  rewrite foldl_keeps in D1, D2, D4.
  assert (Hall : ups p4 = foldl (fun v x => bring_up x v) (ups s) (stacks_to_run_yaml (self s))).
  { rewrite D4, D3, D2, D1, U2, U1. f_equal.
    rewrite C1 in C2. unfold config in K2, C2. congruence. }
  unfold ups in Hall at 2. rewrite foldl_bring_up in Hall.
  unfold ups in Hall. injection Hall as _ Hups.
  change (compose_ups (trace_of (on_self (with_busy false)
            (on_world (log (EvBootLog "done" "All stacks up")) p4))))
    with (compose_ups (trace_of p4 ++ [EvBootLog "done" "All stacks up"])).
  unfold compose_ups in *. rewrite omap_app. simpl. rewrite app_nil_r. exact Hups.
Qed.

Lemma cycle_brings_up_the_included_stacks_witness :
  exists s',
    _run demo_env scenario_a = (Ok tt, s') /\
    compose_ups (trace_of s') = [("core", core_yaml)].
Proof.
  assert (Hrun : exists s', _run demo_env scenario_a = (Ok tt, s')).
  { eexists. vm_compute. reflexivity. }
  destruct Hrun as (s' & Hrun).
  exists s'. split; [exact Hrun |].
  rewrite (cycle_brings_up_the_included_stacks demo_env scenario_a s' Hrun).
  vm_compute. reflexivity.
Defined.

(** ** Loads and removals, in their order *)

(** The [docker load]s and the removals of a trace. *)
Definition disk_events (tr : list Event) : list Event :=
  omap (fun ev => match ev with
                  | EvDockerLoad _ | EvRemove _ => Some ev
                  | _ => None
                  end) tr.

(** The delete policy, and the loads and removals so far. *)
Definition handled (s : State) : bool * list Event :=
  (do_delete (self s), disk_events (trace_of s)).

(** What an archive, and what a stack to load, adds to them. *)
Definition archive_events (policy : bool) (archive : string) : list Event :=
  EvDockerLoad archive :: (if policy then [EvRemove archive] else []).

Definition handle_archive (archive : string) (v : bool * list Event) : bool * list Event :=
  (v.1, v.2 ++ archive_events v.1 archive).

Definition handle_stack (stack : string) (v : bool * list Event) : bool * list Event :=
  (v.1, v.2 ++ (if v.1 then [EvRemove stack] else [])).

Lemma _docker_load_archive_handled (env : Env) (archive : string) (buffer_mb : Z)
    (level : nat) (v : bool * list Event) :
  triple (fun s => handled s = v) (_docker_load_archive env archive buffer_mb level)
         (fun _ s => handled s = (v.1, v.2 ++ [EvDockerLoad archive])).
Proof.
  unfold _docker_load_archive.
  apply (triple_seq_stable handled v); [unfold handled, disk_events; stable_go |]. intros _.
  apply (triple_seq_stable handled v); [unfold handled, disk_events; stable_go |].
  intros total_bytes.
  apply (triple_seq_stable handled v); [unfold handled, disk_events; stable_go |]. intros _.
  apply (triple_bind _ (fun _ s => handled s = (v.1, v.2 ++ [EvDockerLoad archive]))).
  - intros s [] s' Hv Hcall. apply call_run in Hcall as [_ ->].
    unfold handled, trace_of, disk_events in *. simpl. rewrite omap_app. simpl.
    rewrite <- Hv. reflexivity.
  - intros _. apply (triple_end_stable handled). unfold handled, disk_events. stable_go.
Qed.

Lemma remove_file_handled (env : Env) (p : string) (v : bool * list Event) :
  triple (fun s => handled s = v) (remove_file env p)
         (fun _ s => handled s = (v.1, v.2 ++ [EvRemove p])).
Proof.
  unfold remove_file.
  apply (triple_seq_stable handled v); [unfold handled, disk_events; stable_go |]. intros _.
  intros s [] s' Hv Hrun. unfold bind at 1, get in Hrun.
  destruct (bool_decide (p ∈ files (world s))); [| discriminate].
  apply bind_ok in Hrun as ([] & s1 & Hcall & Hrun).
  apply call_run in Hcall as [_ ->].
  unfold modify in Hrun. injection Hrun as <-.
  unfold handled, trace_of, disk_events in *. simpl. rewrite omap_app. simpl.
  rewrite <- Hv. reflexivity.
Qed.

(** The removal of an item under the test of the policy, then the rest. *)
Lemma guarded_remove_handled (env : Env) (p : string) (k : M unit)
    (v : bool * list Event) :
  stable (pres handled) k ->
  triple (fun s => handled s = v)
         (s <- get ;; (if do_delete (self s) then remove_file env p else ret tt) ;; k)
         (fun _ s => handled s = (v.1, v.2 ++ (if v.1 then [EvRemove p] else []))).
Proof.
  intros Hk s [] s' Hv Hrun. unfold bind at 1, get in Hrun.
  apply bind_ok in Hrun as ([] & s1 & Hremove & Hrest).
  rewrite (stable_run handled _ _ _ _ Hk Hrest). clear Hrest.
  assert (Hpolicy : do_delete (self s) = v.1) by (rewrite <- Hv; reflexivity).
  rewrite Hpolicy in Hremove. destruct v.1 eqn:Hv1.
  - rewrite (remove_file_handled env p v s tt s1 Hv Hremove), Hv1. reflexivity.
  - injection Hremove as <-. rewrite Hv, app_nil_r. destruct v; simpl in *; congruence.
Qed.

Lemma load_archive_item_handled (env : Env) (archive : string) (v : bool * list Event) :
  triple (fun s => handled s = v) (load_archive_item env archive)
         (fun _ s => handled s = handle_archive archive v).
Proof.
  unfold load_archive_item, handle_archive, archive_events.
  apply (triple_bind _ (fun _ s => handled s = (v.1, v.2 ++ [EvDockerLoad archive])));
    [apply _docker_load_archive_handled |].
  intros _.
  eapply triple_weaken;
    [apply (guarded_remove_handled env archive _ (v.1, v.2 ++ [EvDockerLoad archive]));
     unfold handled, disk_events; stable_go
    | auto |].
  intros u s Hs. rewrite Hs. simpl. rewrite <- app_assoc. reflexivity.
Qed.

Lemma load_stack_item_handled (env : Env) (d : gmap string (list string)) (stack : string)
    (v : bool * list Event) :
  triple (fun s => handled s = v) (load_stack_item env d stack)
         (fun _ s => handled s = handle_stack stack v).
Proof.
  unfold load_stack_item, handle_stack.
  apply (triple_seq_stable handled v); [unfold handled, disk_events; stable_go |]. intros images.
  apply (triple_seq_stable handled v); [unfold handled, disk_events; stable_go |]. intros _.
  apply (triple_seq_stable handled v); [unfold handled, disk_events; stable_go |]. intros _.
  apply (triple_seq_stable handled v); [unfold handled, disk_events; stable_go |]. intros images'.
  apply (triple_seq_stable handled v); [unfold handled, disk_events; stable_go |]. intros _.
  apply guarded_remove_handled. unfold handled, disk_events. stable_go.
Qed.

Lemma foldl_handle_archive (policy : bool) (l : list string) :
  forall v : list Event,
  foldl (fun v x => handle_archive x v) (policy, v) l
  = (policy, v ++ mjoin (archive_events policy <$> l)).
Proof.
  induction l as [| x l IH]; intros v; simpl.
  - rewrite app_nil_r. reflexivity.
  - unfold handle_archive at 2. simpl. rewrite IH, <- app_assoc. reflexivity.
Qed.

Lemma foldl_handle_stack (policy : bool) (l : list string) :
  forall v : list Event,
  foldl (fun v x => handle_stack x v) (policy, v) l
  = (policy, v ++ (if policy then EvRemove <$> l else [])).
Proof.
  induction l as [| x l IH]; intros v; simpl.
  - destruct policy; rewrite app_nil_r; reflexivity.
  - unfold handle_stack at 2. simpl. rewrite IH.
    destruct policy; simpl; rewrite <- app_assoc; reflexivity.
Qed.

(** X16. The loads and the removals of a cycle that returns, in their
    order: every archive is loaded once, the uncompressed ones first, each
    in the order of the scan; with the delete policy on, an archive is
    removed right after its own load and before the next archive is loaded,
    and the stacks to load are removed after the last archive; with the
    policy off there are the loads only. No archive is removed before it
    was loaded. *)
Theorem cycle_removes_after_loading (env : Env) (s s' : State) :
  _run env s = (Ok tt, s') ->
  disk_events (trace_of s')
  = disk_events (trace_of s)
    ++ mjoin (archive_events (do_delete (self s))
              <$> (images_to_load_tar (self s) ++ images_to_load_tar_gz (self s)))
    ++ (if do_delete (self s) then EvRemove <$> stacks_to_load_yaml (self s) else []).
Proof.
  intros Hrun. unfold _run in Hrun.
  unfold bind at 1, modify in Hrun. unfold bind at 1, get in Hrun.
  apply bind_ok in Hrun as (d_load & s0 & Hload & Hrun).
  apply read_stacks_spec in Hload as [-> _].
  apply bind_ok in Hrun as (d_run & s0 & Hrunning & Hrun).
  apply read_stacks_spec in Hrunning as [-> _].
  apply bind_ok in Hrun as ([] & s1 & Htotal & Hrun).
  apply bind_ok in Hrun as ([] & s2 & Hstatus & Hrun).
  apply bind_ok in Hrun as ([] & s3 & Hphases & Hdone).
  unfold modify in Hdone. injection Hdone as <-.
  assert (U1 : handled s1 = handled s).
  { eapply (stable_run handled) in Htotal;
      [exact Htotal | unfold handled, disk_events; stable_go]. }
  assert (U2 : handled s2 = handled s1).
  { eapply (stable_run handled); [| exact Hstatus]. unfold handled, disk_events. stable_go. }
  assert (C1 : config s1 = config s).
  { eapply (stable_run config) in Htotal; [exact Htotal | stable_go]. }
  assert (C2 : config s2 = config s1).
  { eapply (stable_run config); [| exact Hstatus]. stable_go. }
  destruct (run_phases_run env d_load d_run s2 s3 Hphases)
    as (p1 & p2 & p3 & p4 & H1 & H2 & H3 & H4 & K1 & K2 & K3 & ->).
  assert (Hpre : forall status n,
            stable (pres handled) (_set_total 1 n ;; _set_status 1 status 0)).
  { intros status n. unfold handled, disk_events. stable_go. }
  assert (Hstack : forall x, stable (pres handled) (run_stack_item env d_run x)).
  { intros x. unfold handled, disk_events. stable_go. }
  pose proof (phase_folds handled handle_archive images_to_load_tar _ _ _ _
                ltac:(config_proj) (Hpre _) (load_archive_item_handled env) H1) as D1.
  pose proof (phase_folds handled handle_archive images_to_load_tar_gz _ _ _ _
                ltac:(config_proj) (Hpre _) (load_archive_item_handled env) H2) as D2.
  pose proof (phase_folds handled (fun _ v => v) stacks_to_run_yaml _ _ _ _
                ltac:(config_proj) (Hpre _)
                (fun x v => triple_end_stable handled v _ (Hstack x)) H3) as D3.
  pose proof (phase_folds handled handle_stack stacks_to_load_yaml _ _ _ _
                ltac:(config_proj) (Hpre _) (load_stack_item_handled env d_load) H4) as D4.
  rewrite foldl_keeps in D3.
  assert (Hall : handled p4
                 = foldl (fun v x => handle_stack x v)
                     (foldl (fun v x => handle_archive x v) (handled s)
                        (images_to_load_tar (self s) ++ images_to_load_tar_gz (self s)))
                     (stacks_to_load_yaml (self s))).
  { rewrite D4, D3, D2, D1, U2, U1, foldl_app.
    rewrite C1 in C2. unfold config in K1, K3, C2.
    replace (images_to_load_tar (self s2)) with (images_to_load_tar (self s)) by congruence.
    replace (images_to_load_tar_gz (self p1)) with (images_to_load_tar_gz (self s))
      by congruence.
    replace (stacks_to_load_yaml (self p3)) with (stacks_to_load_yaml (self s))
      by congruence.
    reflexivity. }
  unfold handled in Hall at 2. rewrite foldl_handle_archive, foldl_handle_stack in Hall.
  unfold handled in Hall. injection Hall as _ Hevents.
  change (disk_events (trace_of (on_self (with_busy false)
            (on_world (log (EvBootLog "done" "All stacks up")) p4))))
    with (disk_events (trace_of p4 ++ [EvBootLog "done" "All stacks up"])).
  unfold disk_events in *. rewrite omap_app. simpl.
  rewrite app_nil_r, Hevents, <- app_assoc. reflexivity.
Qed.

Lemma cycle_removes_after_loading_witness :
  exists s',
    _run demo_env scenario_a = (Ok tt, s') /\
    disk_events (trace_of s')
    = [EvDockerLoad base_tar; EvRemove base_tar; EvDockerLoad tools_tar; EvRemove tools_tar].
Proof.
  assert (Hrun : exists s', _run demo_env scenario_a = (Ok tt, s')).
  { eexists. vm_compute. reflexivity. }
  destruct Hrun as (s' & Hrun).
  exists s'. split; [exact Hrun |].
  rewrite (cycle_removes_after_loading demo_env scenario_a s' Hrun).
  vm_compute. reflexivity.
Defined.

(** ** Loads, pulls and removals, in their order *)

(** The [docker load]s, the [docker pull]s and the removals of a trace. *)
Definition work_events (tr : list Event) : list Event :=
  omap (fun ev => match ev with
                  | EvDockerLoad _ | EvDockerPull _ | EvRemove _ => Some ev
                  | _ => None
                  end) tr.

(** The delete policy, and the loads, pulls and removals so far. *)
Definition worked (s : State) : bool * list Event :=
  (do_delete (self s), work_events (trace_of s)).

(** What a stack to load adds to them: the pulls of its images, then its
    removal under the policy. *)
Definition stack_events (images : list string) (policy : bool) (stack : string) : list Event :=
  (EvDockerPull <$> images) ++ (if policy then [EvRemove stack] else []).

Definition work_archive (archive : string) (v : bool * list Event) : bool * list Event :=
  (v.1, v.2 ++ archive_events v.1 archive).

Definition work_stack (d : gmap string (list string)) (stack : string)
    (v : bool * list Event) : bool * list Event :=
  (v.1, v.2 ++ stack_events (default [] (d !! stack)) v.1 stack).

Definition is_pull (ev : Event) : Prop := exists image, ev = EvDockerPull image.

(** Events among which there is neither a load nor a removal: what is left
    of them are pulls. *)
Lemma work_events_pulls (tr : list Event) :
  disk_events tr = [] -> Forall is_pull (work_events tr).
Proof.
  unfold disk_events, work_events.
  induction tr as [| ev tr IH]; simpl; [constructor |].
  destruct ev; simpl; try discriminate; try exact IH.
  intros H. constructor; [eexists; reflexivity | exact (IH H)].
Qed.

(** What leaves the loads and the removals alone adds pulls only. *)
Lemma adds_pulls {A : Type} (m : M A) (s s' : State) (r : Result A) :
  stable grows m -> stable (pres handled) m -> m s = (r, s') ->
  exists pulls,
    Forall is_pull pulls /\ worked s' = ((worked s).1, (worked s).2 ++ pulls).
Proof.
  intros Hgrows Hkeeps Hrun.
  pose proof (Hgrows s) as Hg. rewrite Hrun in Hg. simpl in Hg.
  destruct Hg as [ext Hext].
  pose proof (stable_run handled _ _ _ _ Hkeeps Hrun) as Hh.
  unfold handled in Hh. injection Hh as Hpolicy Hdisk.
  rewrite Hext in Hdisk. unfold disk_events in Hdisk. rewrite omap_app in Hdisk.
  rewrite <- (app_nil_r (omap _ (trace_of s))) in Hdisk at 2.
  apply app_inv_head in Hdisk.
  exists (work_events ext). split; [apply work_events_pulls; exact Hdisk |].
  unfold worked. rewrite Hpolicy, Hext. unfold work_events. rewrite omap_app. reflexivity.
Qed.

Lemma _docker_load_archive_worked (env : Env) (archive : string) (buffer_mb : Z)
    (level : nat) (v : bool * list Event) :
  triple (fun s => worked s = v) (_docker_load_archive env archive buffer_mb level)
         (fun _ s => worked s = (v.1, v.2 ++ [EvDockerLoad archive])).
Proof.
  unfold _docker_load_archive.
  apply (triple_seq_stable worked v); [unfold worked, work_events; stable_go |]. intros _.
  apply (triple_seq_stable worked v); [unfold worked, work_events; stable_go |].
  intros total_bytes.
  apply (triple_seq_stable worked v); [unfold worked, work_events; stable_go |]. intros _.
  apply (triple_bind _ (fun _ s => worked s = (v.1, v.2 ++ [EvDockerLoad archive]))).
  - intros s [] s' Hv Hcall. apply call_run in Hcall as [_ ->].
    unfold worked, trace_of, work_events in *. simpl. rewrite omap_app. simpl.
    rewrite <- Hv. reflexivity.
  - intros _. apply (triple_end_stable worked). unfold worked, work_events. stable_go.
Qed.

Lemma _docker_pull_image_worked (env : Env) (image : string) (level : nat)
    (v : bool * list Event) :
  triple (fun s => worked s = v) (_docker_pull_image env image level)
         (fun _ s => worked s = (v.1, v.2 ++ [EvDockerPull image])).
Proof.
  unfold _docker_pull_image.
  apply (triple_seq_stable worked v); [unfold worked, work_events; stable_go |]. intros _.
  apply (triple_bind _ (fun _ s => worked s = (v.1, v.2 ++ [EvDockerPull image]))).
  - intros s [] s' Hv Hcall. apply call_run in Hcall as [_ ->].
    unfold worked, trace_of, work_events in *. simpl. rewrite omap_app. simpl.
    rewrite <- Hv. reflexivity.
  - intros _. apply (triple_end_stable worked). unfold worked, work_events. stable_go.
Qed.

Lemma remove_file_worked (env : Env) (p : string) (v : bool * list Event) :
  triple (fun s => worked s = v) (remove_file env p)
         (fun _ s => worked s = (v.1, v.2 ++ [EvRemove p])).
Proof.
  unfold remove_file.
  apply (triple_seq_stable worked v); [unfold worked, work_events; stable_go |]. intros _.
  intros s [] s' Hv Hrun. unfold bind at 1, get in Hrun.
  destruct (bool_decide (p ∈ files (world s))); [| discriminate].
  apply bind_ok in Hrun as ([] & s1 & Hcall & Hrun).
  apply call_run in Hcall as [_ ->].
  unfold modify in Hrun. injection Hrun as <-.
  unfold worked, trace_of, work_events in *. simpl. rewrite omap_app. simpl.
  rewrite <- Hv. reflexivity.
Qed.

(** The removal of an item under the test of the policy, then the rest. *)
Lemma guarded_remove_worked (env : Env) (p : string) (k : M unit)
    (v : bool * list Event) :
  stable (pres worked) k ->
  triple (fun s => worked s = v)
         (s <- get ;; (if do_delete (self s) then remove_file env p else ret tt) ;; k)
         (fun _ s => worked s = (v.1, v.2 ++ (if v.1 then [EvRemove p] else []))).
Proof.
  intros Hk s [] s' Hv Hrun. unfold bind at 1, get in Hrun.
  apply bind_ok in Hrun as ([] & s1 & Hremove & Hrest).
  rewrite (stable_run worked _ _ _ _ Hk Hrest). clear Hrest.
  assert (Hpolicy : do_delete (self s) = v.1) by (rewrite <- Hv; reflexivity).
  rewrite Hpolicy in Hremove. destruct v.1 eqn:Hv1.
  - rewrite (remove_file_worked env p v s tt s1 Hv Hremove), Hv1. reflexivity.
  - injection Hremove as <-. rewrite Hv, app_nil_r. destruct v; simpl in *; congruence.
Qed.

(** An archive: its load, then its removal under the policy. *)
Lemma load_archive_item_worked (env : Env) (archive : string) (v : bool * list Event) :
  triple (fun s => worked s = v) (load_archive_item env archive)
         (fun _ s => worked s = work_archive archive v).
Proof.
  unfold load_archive_item, work_archive, archive_events.
  apply (triple_bind _ (fun _ s => worked s = (v.1, v.2 ++ [EvDockerLoad archive])));
    [apply _docker_load_archive_worked |].
  intros _.
  eapply triple_weaken;
    [apply (guarded_remove_worked env archive _ (v.1, v.2 ++ [EvDockerLoad archive]));
     unfold worked, work_events; stable_go
    | auto |].
  intros u s Hs. rewrite Hs. simpl. rewrite <- app_assoc. reflexivity.
Qed.

(** An image of a stack to load: its pull. *)
Lemma load_stack_image_worked (env : Env) (image : string) (v : bool * list Event) :
  triple (fun s => worked s = v) (load_stack_image env image)
         (fun _ s => worked s = (v.1, v.2 ++ [EvDockerPull image])).
Proof.
  unfold load_stack_image.
  apply (triple_bind _ (fun _ s => worked s = (v.1, v.2 ++ [EvDockerPull image])));
    [apply _docker_pull_image_worked |].
  intros _. apply (triple_end_stable worked). unfold worked, work_events. stable_go.
Qed.

Lemma foldl_pulls (policy : bool) (images : list string) :
  forall v : list Event,
  foldl (fun (v : bool * list Event) image => (v.1, v.2 ++ [EvDockerPull image]))
    (policy, v) images
  = (policy, v ++ (EvDockerPull <$> images)).
Proof.
  induction images as [| image images IH]; intros v; simpl.
  - rewrite app_nil_r. reflexivity.
  - rewrite IH, <- app_assoc. reflexivity.
Qed.

(** A stack to load: the pulls of its images, in the order of the
    dictionary's list, then its removal under the policy. *)
Lemma load_stack_item_worked (env : Env) (d : gmap string (list string)) (stack : string)
    (v : bool * list Event) :
  triple (fun s => worked s = v) (load_stack_item env d stack)
         (fun _ s => worked s = work_stack d stack v).
Proof.
  unfold load_stack_item, work_stack, stack_events, lookup_stack.
  destruct (d !! stack) as [images |]; simpl.
  - apply (triple_seq_stable worked v); [unfold worked, work_events; stable_go |]. intros imgs.
    apply (triple_seq_stable worked v); [unfold worked, work_events; stable_go |]. intros _.
    apply (triple_seq_stable worked v); [unfold worked, work_events; stable_go |]. intros _.
    intros s [] s' Hv Hrun.
    apply bind_ok in Hrun as (images' & s0 & Hret & Hrun).
    unfold ret in Hret. injection Hret as <- <-.
    apply bind_ok in Hrun as ([] & s1 & Hloop & Hrest).
    pose proof (for_each_folds worked
                  (fun image (v : bool * list Event) => (v.1, v.2 ++ [EvDockerPull image]))
                  (load_stack_image env) images (load_stack_image_worked env) v
                  s tt s1 Hv Hloop) as H1.
    destruct v as [policy evs]. simpl in H1. rewrite foldl_pulls in H1.
    assert (Hk : stable (pres worked)
                   (_boot_log env "loading" ("Stack completed: " +:+ stack_name_of stack) ;;
                    _tick 1)).
    { unfold worked, work_events. stable_go. }
    rewrite (guarded_remove_worked env stack _ _ Hk s1 tt s' H1 Hrest). simpl.
    rewrite <- app_assoc. reflexivity.
  - intros s [] s' _ Hrun. unfold bind at 1, raise in Hrun. discriminate.
Qed.

Lemma foldl_work_archive (policy : bool) (l : list string) :
  forall v : list Event,
  foldl (fun v x => work_archive x v) (policy, v) l
  = (policy, v ++ mjoin (archive_events policy <$> l)).
Proof.
  induction l as [| x l IH]; intros v; simpl.
  - rewrite app_nil_r. reflexivity.
  - unfold work_archive at 2. simpl. rewrite IH, <- app_assoc. reflexivity.
Qed.

Lemma foldl_work_stack (d : gmap string (list string)) (policy : bool) (l : list string) :
  forall v : list Event,
  foldl (fun v x => work_stack d x v) (policy, v) l
  = (policy, v ++ mjoin ((fun x => stack_events (default [] (d !! x)) policy x) <$> l)).
Proof.
  induction l as [| x l IH]; intros v; simpl.
  - rewrite app_nil_r. reflexivity.
  - unfold work_stack at 2. simpl. rewrite IH, <- app_assoc. reflexivity.
Qed.

(** A cycle that returns, in loads, pulls and removals: the archives, each
    with its removal; then the pulls for the stacks to run; then the stacks
    to load, each with its pulls first and its removal last. *)
Lemma _run_worked (env : Env) (s s' : State) :
  _run env s = (Ok tt, s') ->
  exists run_pulls,
    Forall is_pull run_pulls /\
    work_events (trace_of s')
    = work_events (trace_of s)
      ++ mjoin (archive_events (do_delete (self s))
                <$> (images_to_load_tar (self s) ++ images_to_load_tar_gz (self s)))
      ++ run_pulls
      ++ mjoin ((fun stack => stack_events (stack_images env stack) (do_delete (self s)) stack)
                <$> stacks_to_load_yaml (self s)).
Proof.
  intros Hrun. unfold _run in Hrun.
  unfold bind at 1, modify in Hrun. unfold bind at 1, get in Hrun.
  apply bind_ok in Hrun as (d_load & s0 & Hload & Hrun).
  apply read_stacks_spec in Hload as [-> Hd_load].
  apply bind_ok in Hrun as (d_run & s0 & Hrunning & Hrun).
  apply read_stacks_spec in Hrunning as [-> _].
  apply bind_ok in Hrun as ([] & s1 & Htotal & Hrun).
  apply bind_ok in Hrun as ([] & s2 & Hstatus & Hrun).
  apply bind_ok in Hrun as ([] & s3 & Hphases & Hdone).
  unfold modify in Hdone. injection Hdone as <-.
  assert (U1 : worked s1 = worked s).
  { eapply (stable_run worked) in Htotal;
      [exact Htotal | unfold worked, work_events; stable_go]. }
  assert (U2 : worked s2 = worked s1).
  { eapply (stable_run worked); [| exact Hstatus]. unfold worked, work_events. stable_go. }
  assert (C1 : config s1 = config s).
  { eapply (stable_run config) in Htotal; [exact Htotal | stable_go]. }
  assert (C2 : config s2 = config s1).
  { eapply (stable_run config); [| exact Hstatus]. stable_go. }
  destruct (run_phases_run env d_load d_run s2 s3 Hphases)
    as (p1 & p2 & p3 & p4 & H1 & H2 & H3 & H4 & K1 & K2 & K3 & ->).
  assert (Hpre : forall status n,
            stable (pres worked) (_set_total 1 n ;; _set_status 1 status 0)).
  { intros status n. unfold worked, work_events. stable_go. }
  pose proof (phase_folds worked work_archive images_to_load_tar _ _ _ _
                ltac:(config_proj) (Hpre _) (load_archive_item_worked env) H1) as D1.
  pose proof (phase_folds worked work_archive images_to_load_tar_gz _ _ _ _
                ltac:(config_proj) (Hpre _) (load_archive_item_worked env) H2) as D2.
  assert (Hgrows : stable grows
                     (phase stacks_to_run_yaml "Loading stacks we run at boot"
                        (run_stack_item env d_run))) by stable_go.
  assert (Hkeeps : stable (pres handled)
                     (phase stacks_to_run_yaml "Loading stacks we run at boot"
                        (run_stack_item env d_run)))
    by (unfold handled, disk_events; stable_go).
  destruct (adds_pulls _ _ _ _ Hgrows Hkeeps H3) as (run_pulls & Hpulls & D3).
  pose proof (phase_folds worked (work_stack d_load) stacks_to_load_yaml _ _ _ _
                ltac:(config_proj) (Hpre _) (load_stack_item_worked env d_load) H4) as D4.
  rewrite C1 in C2. unfold config in K1, K2, K3, C2.
  replace (images_to_load_tar (self s2)) with (images_to_load_tar (self s)) in D1
    by congruence.
  replace (images_to_load_tar_gz (self p1)) with (images_to_load_tar_gz (self s)) in D2
    by congruence.
  replace (stacks_to_load_yaml (self p3)) with (stacks_to_load_yaml (self s)) in D4
    by congruence.
  rewrite U2, U1 in D1. unfold worked in D1 at 2. rewrite foldl_work_archive in D1.
  rewrite D1, foldl_work_archive in D2.
  rewrite D2 in D3. simpl in D3.
  rewrite D3, foldl_work_stack in D4.
  unfold worked in D4. injection D4 as _ Hevents.
  exists run_pulls. split; [exact Hpulls |].
  change (work_events (trace_of (on_self (with_busy false)
            (on_world (log (EvBootLog "done" "All stacks up")) p4))))
    with (work_events (trace_of p4 ++ [EvBootLog "done" "All stacks up"])).
  unfold work_events in *. rewrite omap_app. simpl.
  rewrite app_nil_r, Hevents, fmap_app, join_app, <- !app_assoc.
  do 5 f_equal.
  apply Forall_fmap_ext_1, Forall_forall. intros stack Hin.
  change (stacks_to_load_yaml (self (on_self (with_busy true) s)))
    with (stacks_to_load_yaml (self s)) in Hd_load.
  rewrite Hd_load, (bool_decide_eq_true_2 _ Hin). reflexivity.
Qed.

(** C4, amended. A cycle that returns has removed, with the policy on, the
    archives of both kinds and the manifests of the stacks to load, each
    once and in the order of the phases, and nothing with the policy off;
    the manifests of the stacks to run are never removed. Among the loads,
    the pulls and the removals of the cycle, the removal of an archive comes
    right after its own load, before the next archive is loaded, and the
    removal of the manifest of a stack to load comes right after the pulls
    of its own images, before the first pull for the next stack; the pulls
    for the stacks to run lie between the archives and the stacks to load.
    No removal failed in a cycle that returns: a cycle in which a removal
    fails raises. *)
Theorem delete_policy_removes_loaded_files (env : Env) (s s' : State) (r : Result unit) :
  _run env s = (r, s') ->
  (r = Ok tt ->
   removals (trace_of s') = removals (trace_of s) ++ to_remove (self s) /\
   (forall p, p ∈ files_of s' <-> p ∈ files_of s /\ p ∉ to_remove (self s)) /\
   failed_removals env (trace_of s') = failed_removals env (trace_of s) /\
   exists run_pulls,
     Forall is_pull run_pulls /\
     work_events (trace_of s')
     = work_events (trace_of s)
       ++ mjoin (archive_events (do_delete (self s))
                 <$> (images_to_load_tar (self s) ++ images_to_load_tar_gz (self s)))
       ++ run_pulls
       ++ mjoin ((fun stack =>
                    stack_events (stack_images env stack) (do_delete (self s)) stack)
                 <$> stacks_to_load_yaml (self s))) /\
  (failed_removals env (trace_of s') <> failed_removals env (trace_of s) ->
   exists e, r = Raise e).
Proof.
  intros Hrun.
  assert (Hreturns : r = Ok tt ->
    removals (trace_of s') = removals (trace_of s) ++ to_remove (self s) /\
    (forall p, p ∈ files_of s' <-> p ∈ files_of s /\ p ∉ to_remove (self s)) /\
    failed_removals env (trace_of s') = failed_removals env (trace_of s)).
  { intros ->. pose proof (_run_disk env s s' Hrun) as Hdisk.
    unfold disk in Hdisk at 2. rewrite remove_steps in Hdisk.
    unfold disk in Hdisk. injection Hdisk as Hpolicy Hfiles Hremoved Hfailed.
    unfold to_remove.
    split; [exact Hremoved |]. split; [| exact Hfailed].
    intros p. rewrite Hfiles. destruct (do_delete (self s)).
    - apply elem_of_without.
    - split; [intros Hp; split; [exact Hp | apply not_elem_of_nil] | tauto]. }
  split.
  - intros Hr. destruct (Hreturns Hr) as (Hremoved & Hfiles & Hfailed).
    split; [exact Hremoved |]. split; [exact Hfiles |]. split; [exact Hfailed |].
    subst r. exact (_run_worked env s s' Hrun).
  - intros Hfailed. destruct r as [[] | e].
    + exfalso. apply Hfailed. apply (Hreturns eq_refl).
    + exists e. reflexivity.
Qed.

(** One archive and one stack to load of one image, the policy on: the
    archive is loaded and removed, then the image is pulled and the
    manifest removed, and nothing is left on disk. *)
Lemma delete_policy_removes_loaded_files_witness :
  exists s',
    _run demo_env scenario_e = (Ok tt, s') /\
    removals (trace_of s') = [base_tar; extra_yaml] /\
    files_of s' = [] /\
    failed_removals demo_env (trace_of s') = [] /\
    work_events (trace_of s')
    = [EvDockerLoad base_tar; EvRemove base_tar;
       EvDockerPull "duckietown/dt-core:latest"; EvRemove extra_yaml].
Proof.
  assert (Hrun : exists s',
            _run demo_env scenario_e = (Ok tt, s') /\ files_of s' = [] /\
            work_events (trace_of s')
            = [EvDockerLoad base_tar; EvRemove base_tar;
               EvDockerPull "duckietown/dt-core:latest"; EvRemove extra_yaml]).
  { eexists. split; [vm_compute; reflexivity | split; reflexivity]. }
  destruct Hrun as (s' & Hrun & Hfiles & Hwork).
  destruct (delete_policy_removes_loaded_files demo_env scenario_e s' (Ok tt) Hrun)
    as [Hreturns _].
  destruct (Hreturns eq_refl) as (Hremoved & _ & Hfailed & _).
  exists s'. split; [exact Hrun |].
  split; [rewrite Hremoved; vm_compute; reflexivity |].
  split; [exact Hfiles |].
  split; [rewrite Hfailed; vm_compute; reflexivity | exact Hwork].
Defined.

(** ** The two ends of a percentage *)

Lemma digits2_pos_size (p : positive) : digits2_pos p = Pos.size p.
Proof. induction p as [p IH | p IH |]; simpl; [rewrite IH | rewrite IH |]; reflexivity. Qed.

Lemma digits2_pos_le (p : positive) (n : positive) :
  Zpos p < 2 ^ Zpos n -> (digits2_pos p <= n)%positive.
Proof.
  intros Hp. rewrite digits2_pos_size.
  pose proof (Pos.size_le p) as Hle.
  apply Pos.le_nlt. intros Hlt.
  assert (H2 : 2 ^ Zpos (Pos.size p) <= 2 * Zpos p).
  { change (2 * Zpos p) with (Zpos p~0). rewrite <- Pos2Z.inj_pow. apply Pos2Z.pos_le_pos. exact Hle. }
  assert (H3 : 2 ^ (Zpos n + 1) <= 2 ^ Zpos (Pos.size p)).
  { apply Z.pow_le_mono_r; lia. }
  rewrite Z.pow_add_r in H3 by lia. lia.
Qed.

Lemma digits2_pos_iter (p : positive) (k : positive) :
  digits2_pos (Pos.iter xO p k) = (digits2_pos p + k)%positive.
Proof.
  induction k as [| k IH] using Pos.peano_ind.
  - simpl. lia.
  - rewrite Pos.iter_succ. simpl. rewrite IH. lia.
Qed.

(** A mantissa of 53 digits with an exponent in range needs no rounding. *)
Lemma binary_round_aux_canonical (m : positive) (e : Z) :
  digits2_pos m = 53%positive -> -1074 <= e <= 971 ->
  binary_round_aux prec emax false (Zpos m) e loc_Exact = S754_finite false m e.
Proof.
  intros Hm He.
  assert (Hfexp : fexp prec emax (Zdigits2 (Zpos m) + e) - e = 0).
  { simpl Zdigits2. rewrite Hm. unfold fexp, emin, prec, emax. lia. }
  unfold binary_round_aux, shr_fexp. rewrite Hfexp.
  cbn [shr shr_record_of_loc shr_m loc_of_shr_record round_nearest_even].
  rewrite Hfexp.
  cbn [shr shr_record_of_loc shr_m].
  replace (e <=? emax - prec) with true
    by (symmetry; apply Z.leb_le; unfold emax, prec; lia).
  reflexivity.
Qed.

(** The float of a positive integer below 2^53 is finite and positive. *)
Lemma of_pos_finite (p : positive) :
  Zpos p < 2 ^ 53 ->
  exists m e, binary_normalize prec emax (Zpos p) 0 false = S754_finite false m e.
Proof.
  intros Hp. pose proof (digits2_pos_le p 53 Hp) as Hd.
  unfold binary_normalize, binary_round.
  assert (Hfexp : fexp prec emax (Zpos (digits2_pos p) + 0) = Zpos (digits2_pos p) - 53).
  { unfold fexp, emin, prec, emax. lia. }
  rewrite Hfexp. unfold shl_align.
  destruct (Zpos (digits2_pos p) - 53 - 0) as [| k | k] eqn:Hk; [| lia |].
  - rewrite binary_round_aux_canonical; [eauto | lia | lia].
  - rewrite binary_round_aux_canonical; [eauto | | lia].
    rewrite digits2_pos_iter. lia.
Qed.

Lemma div_eucl_shiftl (m : positive) (n : Z) :
  0 <= n -> Z.div_eucl (Z.shiftl (Zpos m) n) (Zpos m) = (2 ^ n, 0).
Proof.
  intros Hn. rewrite Z.shiftl_mul_pow2 by exact Hn.
  destruct (Z.div_eucl (Zpos m * 2 ^ n) (Zpos m)) as [q r] eqn:E.
  assert (Hq : q = Zpos m * 2 ^ n / Zpos m) by (unfold Z.div; rewrite E; reflexivity).
  assert (Hr : r = (Zpos m * 2 ^ n) mod Zpos m) by (unfold Z.modulo; rewrite E; reflexivity).
  rewrite Z.mul_comm, Z.div_mul in Hq by lia.
  rewrite Z.mul_comm, Z.mod_mul in Hr by lia.
  subst. reflexivity.
Qed.

(** A finite float divided by itself is 1, exactly. *)
Lemma SFdiv_self (m : positive) (e : Z) :
  SFdiv prec emax (S754_finite false m e) (S754_finite false m e) = Prim2SF 1.
Proof.
  unfold SFdiv, SFdiv_core_binary.
  replace (Zdigits2 (Zpos m) + e - (Zdigits2 (Zpos m) + e)) with 0 by lia.
  replace (e - e) with 0 by lia.
  change (Z.min (fexp prec emax 0) 0) with (-53).
  change (0 - -53) with 53.
  cbv zeta iota.
  change (IntDef.Z.div_eucl (IntDef.Z.shiftl (Zpos m) 53) (Zpos m))
    with (Z.div_eucl (Z.shiftl (Zpos m) 53) (Zpos m)).
  rewrite div_eucl_shiftl by lia.
  assert (Hloc : new_location (Zpos m) 0 = loc_Exact).
  { unfold new_location, new_location_even, new_location_odd.
    destruct (Z.even (Zpos m)); reflexivity. }
  rewrite Hloc. vm_compute. reflexivity.
Qed.

Lemma div_self (x : float) (m : positive) (e : Z) :
  Prim2SF x = S754_finite false m e -> (x / x)%float = 1%float.
Proof.
  intros Hx. rewrite <- (SF2Prim_Prim2SF (x / x)), FloatAxioms.div_spec, Hx.
  unfold SF64div. rewrite SFdiv_self. apply SF2Prim_Prim2SF.
Qed.

Lemma div_zero (x : float) (m : positive) (e : Z) :
  Prim2SF x = S754_finite false m e -> (0 / x)%float = 0%float.
Proof.
  intros Hx. rewrite <- (SF2Prim_Prim2SF (0 / x)), FloatAxioms.div_spec, Hx.
  reflexivity.
Qed.

Lemma float_of_int_finite (t : Z) :
  1 <= t < 2 ^ 53 -> exists m e, Prim2SF (float_of_int t) = S754_finite false m e.
Proof.
  intros Ht. destruct t as [| q | q]; try lia.
  unfold float_of_int. rewrite of_uint63_spec, Uint63.of_Z_spec.
  rewrite Z.mod_small.
  - apply of_pos_finite. lia.
  - split; [lia |]. apply Z.lt_trans with (2 ^ 53); [lia | reflexivity].
Qed.

(** X17. [percentage] at its two ends, for a total below 2^53: an empty
    counter reads 0 and a counter that is full, or over its total, reads
    100 exactly; the division and the product in floating point round
    nothing there. A total of 0 counts as 1, so that a counter of at least 1
    out of 0 reads 100. (In between, the float product can fall short by
    one: [percentage 29 100] is 28.) *)
Theorem percentage_is_exact_at_both_ends (partial total : Z) :
  0 <= total < 2 ^ 53 ->
  percentage 0 total = 0 /\
  (1 <= partial -> total <= partial -> percentage partial total = 100).
Proof.
  intros Htotal. unfold percentage, truediv.
  destruct (total =? 0) eqn:Hzero.
  - split; [vm_compute; reflexivity |].
    intros Hp _. rewrite Z.min_r by lia. vm_compute. reflexivity.
  - apply Z.eqb_neq in Hzero.
    destruct (float_of_int_finite total ltac:(lia)) as (m & e & Hfin).
    split.
    + rewrite Z.min_l by lia.
      change (float_of_int 0) with 0%float.
      rewrite (div_zero _ _ _ Hfin). vm_compute. reflexivity.
    + intros _ Hp. rewrite Z.min_r by lia.
      rewrite (div_self _ _ _ Hfin). vm_compute. reflexivity.
Qed.

Lemma percentage_is_exact_at_both_ends_witness :
  percentage 0 20000000 = 0 /\ percentage 20971520 20000000 = 100.
Proof.
  destruct (percentage_is_exact_at_both_ends 20971520 20000000) as [Hempty Hfull].
  - split; [lia | reflexivity].
  - split; [exact Hempty |]. apply Hfull; lia.
Defined.

(** ** Manifests that cannot be read *)

(** Reading the manifests writes nothing. *)
Lemma read_stacks_state (env : Env) (stacks : list string) :
  forall (d : gmap string (list string)) (s : State), (read_stacks env stacks d s).2 = s.
Proof.
  induction stacks as [| stack rest IH]; intros d s; [reflexivity |].
  simpl. unfold bind at 1.
  destruct (_images_in_stack env stack s) as [[images | e] s1] eqn:Himg.
  - assert (Hs1 : s1 = s).
    { unfold _images_in_stack, bind, get, lift, ret, raise in Himg.
      destruct (bool_decide (stack ∈ files (world s))); [| discriminate].
      destruct (yaml_services env stack); [| discriminate].
      injection Himg as _ <-. reflexivity. }
    subst s1. apply IH.
  - unfold _images_in_stack, bind, get, lift, ret, raise in Himg.
    destruct (bool_decide (stack ∈ files (world s))).
    + destruct (yaml_services env stack); [discriminate |].
      injection Himg as _ <-. reflexivity.
    + injection Himg as _ <-. reflexivity.
Qed.

(** The manifest [stack] cannot be read: it is not on disk, or the yaml
    has no service list with images. *)
Definition unreadable (env : Env) (s : State) (stack : string) : Prop :=
  stack ∉ files_of s \/ exists e, yaml_services env stack = Raise e.

Lemma read_stacks_unreadable (env : Env) (stacks : list string) (stack : string) :
  stack ∈ stacks ->
  forall (d : gmap string (list string)) (s : State),
  unreadable env s stack ->
  exists e, read_stacks env stacks d s = (Raise e, s).
Proof.
  induction stacks as [| x rest IH]; intros Hin d s Hbad; [inversion Hin |].
  simpl. unfold bind at 1.
  destruct (_images_in_stack env x s) as [[images | e] s1] eqn:Himg.
  - assert (Hx : s1 = s /\ x <> stack).
    { unfold _images_in_stack, bind, get, lift, ret, raise in Himg.
      destruct (bool_decide (x ∈ files (world s))) eqn:Hfile; [| discriminate].
      destruct (yaml_services env x) eqn:Hyaml; [| discriminate].
      injection Himg as _ <-. split; [reflexivity |].
      intros ->. destruct Hbad as [Hgone | (e & He)].
      - apply bool_decide_eq_true in Hfile. exact (Hgone Hfile).
      - congruence. }
    destruct Hx as [-> Hne].
    apply IH; [| exact Hbad].
    apply elem_of_cons in Hin as [-> | Hin]; [contradiction | exact Hin].
  - exists e. f_equal.
    pose proof (read_stacks_state env [x] d s) as Hstate.
    simpl in Hstate. unfold bind in Hstate. rewrite Himg in Hstate. exact Hstate.
Qed.

(** X18. A cycle reads every manifest, the stacks to load first, before it
    does anything else. So a manifest of either kind that cannot be read
    (it is gone from the disk, or its yaml has no service list) makes the
    cycle raise at once: no total is written, no archive is loaded, no image
    pulled, nothing removed; the loader is as it was, except that it is
    busy. *)
Theorem unreadable_manifest_stops_the_cycle (env : Env) (s : State) (stack : string) :
  stack ∈ stacks_to_load_yaml (self s) ++ stacks_to_run_yaml (self s) ->
  unreadable env s stack ->
  exists e, _run env s = (Raise e, on_self (with_busy true) s).
Proof.
  intros Hin Hbad. unfold _run.
  unfold bind at 1, modify. unfold bind at 1, get.
  set (sb := on_self (with_busy true) s).
  assert (Hbad' : unreadable env sb stack) by exact Hbad.
  change (stacks_to_load_yaml (self sb)) with (stacks_to_load_yaml (self s)).
  change (stacks_to_run_yaml (self sb)) with (stacks_to_run_yaml (self s)).
  apply elem_of_app in Hin as [Hin | Hin].
  - destruct (read_stacks_unreadable env _ stack Hin ∅ sb Hbad') as (e & Hread).
    exists e. apply bind_raise. exact Hread.
  - destruct (read_stacks env (stacks_to_load_yaml (self s)) ∅ sb)
      as [[d_load | e] s1] eqn:Hload.
    + pose proof (read_stacks_state env (stacks_to_load_yaml (self s)) ∅ sb) as Hs1.
      rewrite Hload in Hs1. simpl in Hs1. subst s1.
      destruct (read_stacks_unreadable env _ stack Hin ∅ sb Hbad') as (e & Hread).
      exists e. rewrite (bind_run _ _ _ _ _ Hload). apply bind_raise. exact Hread.
    + pose proof (read_stacks_state env (stacks_to_load_yaml (self s)) ∅ sb) as Hs1.
      rewrite Hload in Hs1. simpl in Hs1. subst s1.
      exists e. apply bind_raise. exact Hload.
Qed.

(** One archive and one stack to run whose manifest has no services: the
    archive is not loaded. *)
Lemma unreadable_manifest_stops_the_cycle_witness :
  exists e,
    _run demo_env (_load_configuration (boot ∅ [base_tar; broken_yaml] [])).2
    = (Raise e,
       on_self (with_busy true) (_load_configuration (boot ∅ [base_tar; broken_yaml] [])).2).
Proof.
  apply (unreadable_manifest_stops_the_cycle demo_env _ broken_yaml).
  - apply (bool_decide_unpack _). vm_compute. reflexivity.
  - right. eexists. vm_compute. reflexivity.
Defined.

(** ** The name of a stack *)

Lemma split_nonempty (c : ascii) (s : string) : split c s <> [].
Proof.
  destruct s as [| x s]; simpl; [discriminate |].
  destruct (Ascii.eqb x c); [discriminate |].
  destruct (split c s); discriminate.
Qed.

(** The fields of a string with a separator in it: those before it, then
    those after it. *)
Lemma split_at_separator (c : ascii) (a b : string) :
  split c (a +:+ String c b) = split c a ++ split c b.
Proof.
  induction a as [| x a IH]; simpl.
  - rewrite Ascii.eqb_refl. reflexivity.
  - rewrite IH. destruct (Ascii.eqb x c); [reflexivity |].
    pose proof (split_nonempty c a) as Hne.
    destruct (split c a) as [| y ys]; [contradiction | reflexivity].
Qed.

(** [os.path.basename] of a path that ends with a name without a slash. *)
Lemma basename_join (dir name : string) :
  free_of "/" name = true -> basename (dir +:+ String "/" name) = name.
Proof.
  intros Hname. unfold basename.
  rewrite split_at_separator, (split_free "/" name Hname).
  apply last_last.
Qed.

Lemma prefix_dot (old : string) (x : ascii) (s : string) :
  Ascii.eqb x "." = false -> String.prefix (String "." old) (String x s) = false.
Proof.
  intros Hx. cbn [String.prefix].
  destruct (ascii_dec "." x) as [<- | Hne]; [| reflexivity].
  rewrite Ascii.eqb_refl in Hx. discriminate.
Qed.

Lemma prefix_refl (s : string) : String.prefix s s = true.
Proof.
  induction s as [| x s IH]; [reflexivity |].
  cbn [String.prefix]. destruct (ascii_dec x x) as [_ | Hne]; [exact IH | contradiction].
Qed.

(** [replace] leaves a string alone in which [old], which starts with a
    dot, cannot start. *)
Lemma replace_dot_free (old new s : string) :
  free_of "." s = true -> replace (String "." old) new s = s.
Proof.
  unfold replace, free_of.
  induction s as [| x s IH]; [reflexivity |].
  intros [Hx Hs]%andb_true_iff. apply negb_true_iff in Hx.
  cbn [replace_from all_chars]. rewrite (prefix_dot old x s Hx), (IH Hs). reflexivity.
Qed.

Lemma replace_from_skip (old new t : string) :
  replace_from old new (String.length t) t = "".
Proof. induction t as [| x t IH]; [reflexivity | exact IH]. Qed.

(** [replace] of the suffix [old] behind a string without a dot. *)
Lemma replace_suffix (old new s : string) :
  free_of "." s = true ->
  replace (String "." old) new (s +:+ String "." old) = s +:+ new.
Proof.
  unfold replace, free_of.
  induction s as [| x s IH].
  - intros _.
    change ("" +:+ String "." old) with (String "." old). change ("" +:+ new) with new.
    cbn [replace_from].
    rewrite (prefix_refl (String "." old)).
    change (String.length (String "." old) - 1)%nat with (String.length old - 0)%nat.
    rewrite Nat.sub_0_r, replace_from_skip. apply append_empty_r.
  - intros [Hx Hs]%andb_true_iff. apply negb_true_iff in Hx.
    rewrite !append_cons. cbn [replace_from].
    rewrite (prefix_dot old x _ Hx), (IH Hs). reflexivity.
Qed.

(** Replacing [".yaml"] leaves a name alone that ends with [".yml"]. *)
Lemma replace_yaml_keeps_yml (s : string) :
  free_of "." s = true -> replace ".yaml" "" (s +:+ ".yml") = s +:+ ".yml".
Proof.
  unfold replace, free_of.
  induction s as [| x s IH]; [reflexivity |].
  intros [Hx Hs]%andb_true_iff. apply negb_true_iff in Hx.
  rewrite !append_cons. cbn [replace_from].
  rewrite (prefix_dot "yaml" x _ Hx), (IH Hs). reflexivity.
Qed.

(** X19. The name of a stack is the name of its file without the directory
    and without the extension: for a file name without a slash and without
    a dot, [name.yaml] and [name.yml] in any directory both give [name], so
    that the two files stand for the same stack. *)
Theorem stack_name_drops_the_extension (dir name : string) :
  free_of "/" name = true ->
  free_of "." name = true ->
  stack_name_of (dir +:+ "/" +:+ name +:+ ".yaml") = name /\
  stack_name_of (dir +:+ "/" +:+ name +:+ ".yml") = name.
Proof.
  intros Hslash Hdot. unfold stack_name_of. split.
  - change (dir +:+ "/" +:+ name +:+ ".yaml")
      with (dir +:+ String "/" (name +:+ ".yaml")).
    rewrite basename_join by (rewrite free_of_append, Hslash; reflexivity).
    rewrite (replace_suffix "yaml" "" name Hdot), append_empty_r.
    apply (replace_dot_free "yml" "" name Hdot).
  - change (dir +:+ "/" +:+ name +:+ ".yml")
      with (dir +:+ String "/" (name +:+ ".yml")).
    rewrite basename_join by (rewrite free_of_append, Hslash; reflexivity).
    rewrite (replace_yaml_keeps_yml name Hdot).
    rewrite (replace_suffix "yml" "" name Hdot). apply append_empty_r.
Qed.

Lemma stack_name_drops_the_extension_witness :
  stack_name_of "/data/loader/stacks_to_run/duckietown.yaml" = "duckietown" /\
  stack_name_of "/data/loader/stacks_to_run/duckietown.yml" = "duckietown".
Proof.
  exact (stack_name_drops_the_extension "/data/loader/stacks_to_run" "duckietown"
           eq_refl eq_refl).
Defined.
